(** * Relay admission and execution pipeline

    A shallow embedding of the two relay servers of the repository:
    - [Js]: relayer-server.js together with [executeForward] of
      meta-exec-lib/src/index.js;
    - [Go]: main.go.

    Network calls (contract reads, fee data, gas estimation, submission,
    receipts) and clock readings are inputs of the model: a [World] record
    holds what each awaited call answers for the request at hand. *)

From Stdlib Require Import ZArith String Ascii List Lia.
From Stdlib.Strings Require Import Byte.
From stdpp Require Import base decidable option list gmap strings pretty.

Local Open Scope string_scope.
Local Open Scope list_scope.
Local Open Scope Z_scope.

(** ** Strings *)

(** [String.prototype.toLowerCase] / the folding of [strings.EqualFold],
    on the ASCII range that addresses and hashes use. *)
Definition lower_ascii (c : ascii) : ascii :=
  let n := nat_of_ascii c in
  if ((65 <=? n) && (n <=? 90))%nat then ascii_of_nat (n + 32) else c.

Fixpoint toLowerCase (s : string) : string :=
  match s with
  | EmptyString => EmptyString
  | String c s' => String (lower_ascii c) (toLowerCase s')
  end.

(** [String.prototype.includes] / [strings.Contains]. *)
Fixpoint includes (hay needle : string) : bool :=
  String.prefix needle hay ||
  match hay with
  | EmptyString => false
  | String _ hay' => includes hay' needle
  end.

Definition str_eqb (a b : string) : bool := bool_decide (a = b).

Global Instance byte_eq_decision : EqDecision byte := Byte.byte_eq_dec.

(** ** Shared vocabulary *)

(** A promise that has settled (JS) or a [(value, error)] pair (Go). *)
Inductive Result (A : Type) : Type :=
| Ok (a : A)
| Err (msg : string).
Arguments Ok {A} a.
Arguments Err {A} msg.

Record Receipt : Type := mkReceipt {
  blockNumber : Z;
  gasUsed : Z;
  status : Z
}.

(** What the HTTP client gets back. *)
Inductive Response : Type :=
| Success (txHash : string) (block : Z) (gas : Z)
| Failure (code : Z) (error : string) (details : string).

Definition isFailure (r : Response) : Prop :=
  match r with Failure _ _ _ => True | Success _ _ _ => False end.

(** The answer to a request whose key is in the processed-requests store. *)
Definition duplicateResponse : Response :=
  Failure 400 "This request has already been processed" EmptyString.

(** Calls that leave the process, plus the write to the processed-requests
    store, in the order the handler performs them. *)
Inductive Event : Type :=
| EvProbe (user : string)
| EvFeeFetch
| EvExecutor
| EvEstimateGas
| EvSubmit (gasLimit : Z)
| EvMark (key : string)
| EvWait.

Global Instance Event_eq_dec : EqDecision Event.
Proof. solve_decision. Defined.

Definition isSubmit (e : Event) : bool :=
  match e with EvSubmit _ => true | _ => false end.

Definition submitted (tr : list Event) : bool := existsb isSubmit tr.

(** The gas limits of the transactions a run has submitted. *)
Definition submissions (tr : list Event) : list Z :=
  omap (fun e => match e with EvSubmit g => Some g | _ => None end) tr.

(** Wrap-around of Go's fixed-width integers. *)
Definition wrap_u64 (z : Z) : Z := z mod 2 ^ 64.
Definition wrap_i64 (z : Z) : Z := (z + 2 ^ 63) mod 2 ^ 64 - 2 ^ 63.

(** ** Handler monad

    A request handler threads the server's store, logs the events it
    performs, and may stop early: with a response already sent ([Return]) or,
    in JS, with an exception that reaches the [catch] block ([Throw]). *)

Inductive Outcome (A : Type) : Type :=
| Next (a : A)
| Return (r : Response)
| Throw (msg : string).
Arguments Next {A} a.
Arguments Return {A} r.
Arguments Throw {A} msg.

Definition Handler (S A : Type) : Type := S -> S * list Event * Outcome A.

Definition ret {S A} (a : A) : Handler S A := fun s => (s, [], Next a).

Definition bind {S A B} (m : Handler S A) (k : A -> Handler S B) : Handler S B :=
  fun s =>
    match m s with
    | (s1, t1, Next a) =>
        match k a s1 with
        | (s2, t2, o) => (s2, t1 ++ t2, o)
        end
    | (s1, t1, Return r) => (s1, t1, Return r)
    | (s1, t1, Throw msg) => (s1, t1, Throw msg)
    end.

Notation "x <- m ;; k" := (bind m (fun x => k))
  (at level 90, m at level 80, k at level 90, right associativity).
Notation "m ;;; k" := (bind m (fun _ => k))
  (at level 90, k at level 90, right associativity).

Definition respond {S A} (code : Z) (error details : string) : Handler S A :=
  fun s => (s, [], Return (Failure code error details)).

Definition throw {S A} (msg : string) : Handler S A := fun s => (s, [], Throw msg).

Definition emit {S} (e : Event) : Handler S unit := fun s => (s, [e], Next tt).

Definition await {S A} (r : Result A) : Handler S A :=
  match r with
  | Ok a => ret a
  | Err msg => throw msg
  end.

(** ** Rate limiter vocabulary *)


(** Successive calls of a rate limiter [check] for one address: the answers
    and the map they leave. *)
Fixpoint checkEach (check : string -> Z -> gmap string (list Z) -> bool * gmap string (list Z))
    (address : string) (times : list Z) (limits : gmap string (list Z))
    : list bool * gmap string (list Z) :=
  match times with
  | [] => ([], limits)
  | t :: times' =>
      let '(ok, limits1) := check address t limits in
      let '(oks, limits2) := checkEach check address times' limits1 in
      (ok :: oks, limits2)
  end.


(** The times of the calls that a rate limiter accepted. *)
Fixpoint acceptedTimes (times : list Z) (oks : list bool) : list Z :=
  match times, oks with
  | t :: times', ok :: oks' =>
      if (ok : bool) then t :: acceptedTimes times' oks' else acceptedTimes times' oks'
  | _, _ => []
  end.

(** No sender has more than [limit] times on record. *)
Definition withinLimit (limit : nat) (limits : gmap string (list Z)) : Prop :=
  forall address l, limits !! address = Some l -> (length l <= limit)%nat.

(** ** relayer-server.js *)

Module Js.

Definition CACHE_DURATION : Z := 5 * 60 * 1000.
Definition RATE_LIMIT_WINDOW : Z := 60 * 1000.
Definition MAX_REQUESTS_PER_WINDOW : nat := 5.
(** [ethers.parseUnits('100', 'gwei')] *)
Definition MAX_GAS_PRICE : Z := 100 * 10 ^ 9.

(** [req.body.forward]. Addresses, hash and nonce are the strings the JSON
    body carries ([nonce] as the template literal of [requestId] prints it);
    [deadline] is an integer number of seconds. *)
Record Forward : Type := mkForward {
  from : string;
  to : string;
  value : string;
  space : string;
  nonce : string;
  deadline : Z;
  dataHash : string;
  caller : string
}.

Record Request : Type := mkRequest {
  forward : option Forward;
  signature : string;
  callData : string
}.

Record Config : Type := mkConfig {
  HUB_ADDRESS : string;
  NFT_CONTRACT : string;
  relayerAddress : string
}.

(** The module-level mutable state: the [processedRequests] set, the
    [rateLimits] map, and the pending [setTimeout] callbacks that delete a
    request id (due time in ms, id). *)
Record Store : Type := mkStore {
  processedRequests : gset string;
  rateLimits : gmap string (list Z);
  timers : list (Z * string)
}.

Definition emptyStore : Store := mkStore ∅ ∅ [].

(** What the outside answers while one request is handled. *)
Record World : Type := mkWorld {
  clock : Z;                       (* Date.now() in the synchronous prefix *)
  minted : Result bool;            (* nftContract.minted(userAddress) *)
  gasPrice : Result (option Z);    (* provider.getFeeData().gasPrice, None for null *)
  execData : Result string;        (* metaIface.encodeFunctionData("execute", ...):
                                      throws on a tuple that does not encode,
                                      such as one whose dataHash is not 32 bytes *)
  callerAllowed : Result bool;     (* meta.isCallerAllowed(caller) *)
  estimateGas : Result Z;          (* provider.estimateGas(...) *)
  sendTransaction : Result string; (* relayer.sendTransaction(...): tx.hash *)
  markClock : Z;                   (* Date.now() when executeForward resolves *)
  waitTime : Z;                    (* ms until tx.wait() settles *)
  wait : Result Receipt            (* tx.wait() *)
}.

(** [res.status(code).json({ success: false, error })] followed by
    [return]. *)
Definition reject {A} (code : Z) (error : string) : Handler Store A :=
  respond code error EmptyString.

(** *** Rate limiting helper *)

Definition checkRateLimit (address : string) (now : Z)
    (limits : gmap string (list Z)) : bool * gmap string (list Z) :=
  let userLimits := default [] (limits !! address) in
  let recentRequests :=
    filter (fun time => now - time < RATE_LIMIT_WINDOW) userLimits in
  if bool_decide (MAX_REQUESTS_PER_WINDOW <= length recentRequests)%nat
  then (false, limits)
  else (true, <[address := recentRequests ++ [now]]> limits).

Definition rateLimitGate (address : string) (now : Z) : Handler Store bool :=
  fun s =>
    let '(ok, limits) := checkRateLimit address now (rateLimits s) in
    (mkStore (processedRequests s) limits (timers s), [], Next ok).

(** The periodic [setInterval] sweep of [rateLimits]. *)
Definition sweepRateLimits (now : Z) (limits : gmap string (list Z))
    : gmap string (list Z) :=
  omap (fun times =>
          let recent := filter (fun time => now - time < RATE_LIMIT_WINDOW) times in
          match recent with
          | [] => None
          | _ => Some recent
          end) limits.

(** The store once the limiter has seen a request of [fwd] at [now]. *)
Definition limited (fwd : Forward) (now : Z) (s : Store) : Store :=
  mkStore (processedRequests s)
    (checkRateLimit (from fwd) now (rateLimits s)).2 (timers s).

(** *** Processed-requests set and its expiry timers *)

Definition requestId (f : Forward) : string := from f +:+ "-" +:+ nonce f.

Definition isDuplicate (id : string) : Handler Store bool :=
  fun s => (s, [], Next (bool_decide (id ∈ processedRequests s))).

(** [processedRequests.add(requestId); setTimeout(() =>
    processedRequests.delete(requestId), CACHE_DURATION)] *)
Definition markProcessed (id : string) (now : Z) : Handler Store unit :=
  fun s =>
    (mkStore ({[id]} ∪ processedRequests s) (rateLimits s)
             (timers s ++ [(now + CACHE_DURATION, id)]),
     [EvMark id], Next tt).

(** The store once [fwd] has been marked at [now]. *)
Definition marked (fwd : Forward) (now : Z) (s : Store) : Store :=
  mkStore ({[requestId fwd]} ∪ processedRequests s) (rateLimits s)
    (timers s ++ [(now + CACHE_DURATION, requestId fwd)]).

(** The event loop runs the timer callbacks that are due at [now]. *)
Definition fireTimers (now : Z) (s : Store) : Store :=
  let due := filter (fun t : Z * string => t.1 <= now) (timers s) in
  let pending := filter (fun t : Z * string => ¬ t.1 <= now) (timers s) in
  mkStore (processedRequests s ∖ list_to_set (due.*2)) (rateLimits s) pending.

(** Every pending timer is for a key in the set, and no key has two. *)
Definition timersSound (s : Store) : Prop :=
  NoDup (timers s).*2
  /\ forall t, t ∈ timers s -> t.2 ∈ processedRequests s.

(** The key [k] is in the set and the timer that will delete it is due at
    [due]. *)
Definition held (k : string) (due : Z) (s : Store) : Prop :=
  timersSound s /\ k ∈ processedRequests s /\ (due, k) ∈ timers s.

(** Every key in the set has a pending timer. *)
Definition timersCover (s : Store) : Prop :=
  forall k, k ∈ processedRequests s -> exists due, (due, k) ∈ timers s.

(** *** The synchronous prefix of [app.post('/relay')] *)

(** [new Date(ms).toISOString()] throws a RangeError outside the range of
    valid time values. *)
Definition toISOString (ms : Z) : Handler Store unit :=
  if bool_decide (-8640000000000000 <= ms <= 8640000000000000)
  then ret tt
  else throw "Invalid time value".

Section Pipeline.

(** [ethers.keccak256]: the hex digest of a hex string, or a throw on
    anything that is not a hex string. *)
Variable keccak256 : string -> Result string.
Variable CONFIG : Config.

Definition admission (req : Request) (now : Z) : Handler Store Forward :=
  match forward req with
  | None => reject 400 "Missing required fields: forward, signature, callData"
  | Some fwd =>
      if str_eqb (signature req) EmptyString || str_eqb (callData req) EmptyString
      then reject 400 "Missing required fields: forward, signature, callData"
      else
        let userAddress := from fwd in
        toISOString (deadline fwd * 1000) ;;;
        withinLimit <- rateLimitGate userAddress now ;;
        if negb withinLimit
        then reject 429 "Too many requests. Please try again later."
        else
          dup <- isDuplicate (requestId fwd) ;;
          if dup
          then reject 400 "This request has already been processed"
          else if negb (str_eqb (toLowerCase (to fwd))
                                (toLowerCase (NFT_CONTRACT CONFIG)))
          then reject 400 "Invalid target contract"
          else if negb (str_eqb (toLowerCase (caller fwd))
                                (toLowerCase (relayerAddress CONFIG)))
          then reject 400 "Invalid caller address"
          else
            computedHash <- await (keccak256 (callData req)) ;;
            if negb (str_eqb (dataHash fwd) EmptyString) &&
               negb (str_eqb (toLowerCase computedHash)
                             (toLowerCase (dataHash fwd)))
            then reject 400 "DataHash mismatch - signature invalid"
            else
              let nowSec := now / 1000 in
              if deadline fwd <? nowSec
              then reject 400 "Transaction deadline expired"
              else ret fwd
  end.

(** How far a request gets in [admission], read off the conditions of the
    source in their order. *)
Definition wellFormed (req : Request) (fwd : Forward) : Prop :=
  forward req = Some fwd /\ signature req <> EmptyString /\ callData req <> EmptyString
  /\ -8640000000000000 <= deadline fwd * 1000 <= 8640000000000000.

Definition reachesHashGate (req : Request) (fwd : Forward) (now : Z) (s : Store)
    : Prop :=
  wellFormed req fwd
  /\ (checkRateLimit (from fwd) now (rateLimits s)).1 = true
  /\ (requestId fwd ∉ processedRequests s)
  /\ toLowerCase (to fwd) = toLowerCase (NFT_CONTRACT CONFIG)
  /\ toLowerCase (caller fwd) = toLowerCase (relayerAddress CONFIG).

Definition reachesDeadlineGate (req : Request) (fwd : Forward) (now : Z)
    (s : Store) : Prop :=
  reachesHashGate req fwd now s
  /\ exists computedHash,
       keccak256 (callData req) = Ok computedHash
       /\ (dataHash fwd = EmptyString
           \/ toLowerCase computedHash = toLowerCase (dataHash fwd)).

(** *** The awaited checks: already-minted probe and gas price *)

Definition preflight (fwd : Forward) (w : World) : Handler Store unit :=
  emit (EvProbe (from fwd)) ;;;
  hasMinted <- await (minted w) ;;
  if (hasMinted : bool)
  then reject 400 "    ed an NFT"
  else
    emit EvFeeFetch ;;;
    feeData <- await (gasPrice w) ;;
    match feeData with
    | Some price =>
        if MAX_GAS_PRICE <? price
        then reject 503 "Network gas prices too high. Please try again later."
        else ret tt
    | None => ret tt
    end.

(** The fee data do not stop the request: no gas price, or one within the
    ceiling. *)
Definition feeOk (w : World) : Prop :=
  gasPrice w = Ok None
  \/ exists p, gasPrice w = Ok (Some p) /\ p <= MAX_GAS_PRICE.

(** *** [executeForward] of meta-exec-lib *)

Record Overrides : Type := mkOverrides {
  gasLimit : option Z
}.

(** The ABI encoding of the call is the world's [execData]: ethers throws
    there on a tuple that does not encode. *)
Definition executeForward (fTuple : Forward) (overrides : Overrides)
    (hasCaller checkAllowlist : bool) (w : World) : Handler Store string :=
  emit EvExecutor ;;;
  data <- await (execData w) ;;
  if str_eqb data EmptyString || str_eqb data "0x"
  then throw "Empty execData."
  else
    (if checkAllowlist && hasCaller
     then
       allowed <- await (callerAllowed w) ;;
       if (allowed : bool) then ret tt
       else throw ("Caller " +:+ caller fTuple +:+ " not allowed")
     else ret tt) ;;;
    limit <- match gasLimit overrides with
             | Some g => ret g
             | None => emit EvEstimateGas ;;; await (estimateGas w)
             end ;;
    emit (EvSubmit limit) ;;;
    await (sendTransaction w).

(** *** After submission: mark, wait, answer *)

Definition confirmation (txHash : string) (w : World) : Handler Store Response :=
  emit EvWait ;;;
  receipt <- await (wait w) ;;
  ret (Success txHash (blockNumber receipt) (gasUsed receipt)).

(** The [catch] block. The [details] field is only filled in development
    mode and is left empty here. *)
Definition errorMessage (msg : string) : string :=
  if includes msg "Already minted" then "This address has already minted an NFT"
  else if includes msg "insufficient funds" then "Relayer has insufficient funds"
  else if includes msg "nonce" then "Invalid nonce or nonce already used"
  else if includes msg "signature" then "Invalid signature"
  else if includes msg "deadline" then "Transaction deadline expired"
  else if includes msg "dataHash" then "Invalid data hash"
  else if includes msg "caller" then "Invalid caller address"
  else "Transaction failed".

Definition settle (o : Outcome Response) : Response :=
  match o with
  | Next r => r
  | Return r => r
  | Throw msg => Failure 500 (errorMessage msg) EmptyString
  end.

(** The whole body of the [try] block. *)
Definition relayBody (req : Request) (w : World) : Handler Store Response :=
  fwd <- admission req (clock w) ;;
  preflight fwd w ;;;
  txHash <- executeForward fwd (mkOverrides None) true true w ;;
  markProcessed (requestId fwd) (markClock w) ;;;
  confirmation txHash w.

(** [app.post('/relay')], run to completion on a store. *)
Definition relay (req : Request) (w : World) (s : Store)
    : Store * list Event * Response :=
  match relayBody req w s with
  | (s', tr, o) => (s', tr, settle o)
  end.

(** *** Requests in flight together

    The handler is an async function: other requests run whenever it awaits.
    It reads and writes the store in two places only, the synchronous prefix
    ([admission]) and the continuation that runs once [executeForward] has
    resolved ([markProcessed]); the awaited calls in between do not touch
    the store. A thread therefore advances in three steps. *)

Inductive Phase : Type :=
| Arrived
| InFlight (fwd : Forward)
| Waiting (txHash : string)
| Finished (r : Response).

Record Thread : Type := mkThread {
  phase : Phase;
  log : list Event
}.

Definition newThread : Thread := mkThread Arrived [].

Definition submitAndMark (fwd : Forward) (w : World) : Handler Store string :=
  preflight fwd w ;;;
  txHash <- executeForward fwd (mkOverrides None) true true w ;;
  markProcessed (requestId fwd) (markClock w) ;;;
  ret txHash.

Definition advance {A} (th : Thread) (k : A -> Phase)
    (r : Store * list Event * Outcome A) : Store * Thread :=
  match r with
  | (s, t, Next a) => (s, mkThread (k a) (log th ++ t))
  | (s, t, Return r) => (s, mkThread (Finished r) (log th ++ t))
  | (s, t, Throw msg) => (s, mkThread (Finished (settle (Throw msg))) (log th ++ t))
  end.

Definition threadStep (req : Request) (w : World) (th : Thread) (s : Store)
    : option (Store * Thread) :=
  match phase th with
  | Arrived => Some (advance th InFlight (admission req (clock w) s))
  | InFlight fwd => Some (advance th Waiting (submitAndMark fwd w s))
  | Waiting txHash => Some (advance th Finished (confirmation txHash w s))
  | Finished _ => None
  end.

(** Two requests served by one process. *)
Record System : Type := mkSystem {
  store : Store;
  first : Thread;
  second : Thread
}.

Inductive Side : Type := Fst | Snd.

Definition sysStep (j1 j2 : Request * World) (who : Side) (sys : System)
    : option System :=
  match who with
  | Fst =>
      match threadStep j1.1 j1.2 (first sys) (store sys) with
      | Some (s, th) => Some (mkSystem s th (second sys))
      | None => None
      end
  | Snd =>
      match threadStep j2.1 j2.2 (second sys) (store sys) with
      | Some (s, th) => Some (mkSystem s (first sys) th)
      | None => None
      end
  end.

Definition sys_step (j1 j2 : Request * World) (sys sys' : System) : Prop :=
  exists who, sysStep j1 j2 who sys = Some sys'.

Definition runSchedule (j1 j2 : Request * World) (sched : list Side)
    (sys : System) : System :=
  foldl (fun sys who => default sys (sysStep j1 j2 who sys)) sys sched.

(** What holds of the two threads when both requests carry the key [k]:
    a thread that has not got past the admission has logged nothing, a
    thread whose log shows the mark of [k] has submitted, and [k] is in the
    store only if one of the logs shows its mark. *)
Definition marks (k : string) (th : Thread) : Prop :=
  In (EvMark k) (log th) /\ submitted (log th) = true.

(** What holds of one thread serving a request with key [k]. *)
Definition threadOk (req : Request) (k : string) (th : Thread) : Prop :=
  match phase th with
  | Arrived => log th = []
  | InFlight fwd => log th = [] /\ requestId fwd = k
  | Waiting _ => marks k th
  | Finished r =>
      (r = duplicateResponse -> log th = [])
      /\ (In (EvMark k) (log th) -> submitted (log th) = true)
  end.

Definition sysOk (req1 req2 : Request) (k : string) (sys : System) : Prop :=
  threadOk req1 k (first sys) /\ threadOk req2 k (second sys)
  /\ (k ∈ processedRequests (store sys) ->
      In (EvMark k) (log (first sys)) \/ In (EvMark k) (log (second sys)))
  /\ (phase (first sys) = Finished duplicateResponse -> marks k (second sys))
  /\ (phase (second sys) = Finished duplicateResponse -> marks k (first sys)).


(** *** Requests served one after the other, with the timer callbacks and
    the rate-limit sweep in between *)

Inductive Input : Type :=
| Post (req : Request) (w : World)
| Timers (now : Z)
| Sweep (now : Z).

Definition serve (s : Store) (i : Input) : Store :=
  match i with
  | Post req w => (relay req w s).1.1
  | Timers now => fireTimers now s
  | Sweep now =>
      mkStore (processedRequests s) (sweepRateLimits now (rateLimits s)) (timers s)
  end.

Definition serveAll (s : Store) (inputs : list Input) : Store :=
  foldl serve s inputs.

(** An input served before the timer due at [due] can run. *)
Definition firesBefore (due : Z) (i : Input) : Prop :=
  match i with
  | Timers now => now < due
  | _ => True
  end.

End Pipeline.

(** The request gets past every check of the synchronous prefix. *)
Definition passesGates (keccak256 : string -> Result string) (CONFIG : Config)
    (req : Request) (fwd : Forward) (w : World) (s : Store) : Prop :=
  reachesDeadlineGate keccak256 CONFIG req fwd (clock w) s
  /\ clock w / 1000 <= deadline fwd.

(** The store and the thread of a request that is served on its own, after
    [n] steps from the store [s]. *)
Fixpoint soloRun (keccak256 : string -> Result string) (CONFIG : Config)
    (req : Request) (w : World) (n : nat) (s : Store) : Store * Thread :=
  match n with
  | O => (s, newThread)
  | S n' =>
      let st := soloRun keccak256 CONFIG req w n' s in
      default st (threadStep keccak256 CONFIG req w st.2 st.1)
  end.

(** Two stores that hold the same for the sender [a] and the key [k]. *)
Definition sameFor (a k : string) (s s' : Store) : Prop :=
  rateLimits s !! a = rateLimits s' !! a
  /\ (k ∈ processedRequests s <-> k ∈ processedRequests s').

End Js.

(** ** main.go *)

Module Go.

(** [time.Duration] and [time.Time] count nanoseconds. *)
Definition Second : Z := 10 ^ 9.
Definition Minute : Z := 60 * Second.

Definition cacheDuration : Z := 5 * Minute.
Definition rateLimitWindow : Z := 1 * Minute.
Definition maxRequestsPerWindow : nat := 5.
Definition cleanupInterval : Z := 1 * Minute.

(** [time.Time.Unix] *)
Definition Unix (t : Z) : Z := t / Second.

(** [big.Int.Int64]: the low 64 bits of the magnitude read as an int64,
    negated for a negative number. *)
Definition Int64 (x : Z) : Z :=
  let v := wrap_i64 (Z.abs x mod 2 ^ 64) in
  if x <? 0 then wrap_i64 (- v) else v.

(** [strings.TrimPrefix] *)
Fixpoint dropPrefix (s prefix : string) : option string :=
  match prefix, s with
  | EmptyString, _ => Some s
  | String c prefix', String d s' =>
      if bool_decide (c = d) then dropPrefix s' prefix' else None
  | String _ _, EmptyString => None
  end.

Definition TrimPrefix (s prefix : string) : string :=
  default s (dropPrefix s prefix).

(** [hex.DecodeString]. A string is the sequence of its bytes. *)
Definition fromHexChar (c : ascii) : option N :=
  let n := N_of_ascii c in
  if ((48 <=? n) && (n <=? 57))%N then Some (n - 48)%N
  else if ((97 <=? n) && (n <=? 102))%N then Some (n - 87)%N
  else if ((65 <=? n) && (n <=? 70))%N then Some (n - 55)%N
  else None.

(** [hex.ErrLength] *)
Definition ErrLength : string := "encoding/hex: odd length hex string".

(** [hex.InvalidByteError.Error]: [fmt.Sprintf("encoding/hex: invalid byte:
    %#U", rune(e))]. The verb [%#U] prints the code point as [U+] and four
    capital hex digits, followed by the character in quotes, in UTF-8, when
    [strconv.IsPrint] holds of it. *)
Definition upperHexDigit (n : N) : ascii :=
  if (n <? 10)%N then ascii_of_N (48 + n) else ascii_of_N (55 + n).

(** [strconv.IsPrint] on the code points below 256. *)
Definition IsPrint (r : N) : bool :=
  ((32 <=? r) && (r <=? 126))%N
  || ((161 <=? r) && (r <=? 255) && negb (r =? 173))%N.

(** [utf8.EncodeRune] on the code points below 256. *)
Definition EncodeRune (r : N) : string :=
  if (r <? 128)%N then String (ascii_of_N r) EmptyString
  else String (ascii_of_N (192 + r / 64))
         (String (ascii_of_N (128 + r mod 64)) EmptyString).

Definition InvalidByteError (c : ascii) : string :=
  let r := N_of_ascii c in
  "encoding/hex: invalid byte: U+00"
  +:+ String (upperHexDigit (r / 16)) (String (upperHexDigit (r mod 16)) EmptyString)
  +:+ (if IsPrint r then " '" +:+ EncodeRune r +:+ "'" else EmptyString).

(** The pairs are decoded from the left and the first byte that is no hex
    digit is reported; a last byte without a partner is looked at after
    all the pairs, and reported as invalid before the odd length is. *)
Fixpoint DecodeString (src : string) : Result (list byte) :=
  match src with
  | EmptyString => Ok []
  | String a EmptyString =>
      match fromHexChar a with
      | Some _ => Err ErrLength
      | None => Err (InvalidByteError a)
      end
  | String a (String b rest) =>
      match fromHexChar a, fromHexChar b with
      | Some h, Some l =>
          match DecodeString rest with
          | Ok bytes => Ok (byte_of_ascii (ascii_of_N (16 * h + l)) :: bytes)
          | Err e => Err e
          end
      | None, _ => Err (InvalidByteError a)
      | Some _, None => Err (InvalidByteError b)
      end
  end.

(** [hex.EncodeToString] *)
Definition hexDigit (n : N) : ascii :=
  if (n <? 10)%N then ascii_of_N (48 + n) else ascii_of_N (87 + n).

Fixpoint EncodeToString (src : list byte) : string :=
  match src with
  | [] => EmptyString
  | b :: rest =>
      let n := N_of_ascii (ascii_of_byte b) in
      String (hexDigit (n / 16)) (String (hexDigit (n mod 16)) (EncodeToString rest))
  end.

(** [Bytes32.UnmarshalJSON]. The argument is what [json.Unmarshal(data,
    &hexStr)] gives: the JSON string's value, or its error. *)
Definition UnmarshalJSON (data : Result string) : Result (list byte) :=
  match data with
  | Err e => Err e
  | Ok hexStr =>
      match DecodeString (TrimPrefix hexStr "0x") with
      | Err e => Err ("invalid hex string: " +:+ e)
      | Ok decoded =>
          if bool_decide (length decoded = 32%nat)
          then Ok decoded
          else Err ("expected 32 bytes, got " +:+ pretty (length decoded))
      end
  end.

(** [Bytes32.MarshalJSON]: the value of the JSON string it writes. *)
Definition MarshalJSON (b : list byte) : string := "0x" +:+ EncodeToString b.

(** A string of hex digits. *)
Definition isHex (s : string) : Prop :=
  Forall (fun c => is_Some (fromHexChar c)) (list_ascii_of_string s).

(** The decoded request body. A [common.Address] is represented by the
    string its [Hex] method prints, a [*big.Int] by its value: the numbers
    of the body are all present (see [Body] for a body without its
    deadline). *)
Record Forward : Type := mkForward {
  From : string;
  To : string;
  Value : Z;
  Space : Z;
  Nonce : Z;
  Deadline : Z;
  DataHash : list byte;
  Caller : string
}.

Record RelayRequest : Type := mkRelayRequest {
  Forward_ : Forward;
  Signature : string;
  CallData : string
}.

Record Config : Type := mkConfig {
  HubAddress : string;
  NFTContract : string;
  MaxGasPrice : Z;
  relayerAddress : string
}.

(** [Server.processedRequests] with the time of the mark, and
    [RateLimit.requests] with Unix seconds. *)
Record Store : Type := mkStore {
  processedRequests : gmap string Z;
  requests : gmap string (list Z)
}.

Definition emptyStore : Store := mkStore ∅ ∅.

(** One call of [TransactionReceipt]: how long it takes and what it finds. *)
Record Poll : Type := mkPoll {
  latency : Z;
  found : option Receipt
}.

Record World : Type := mkWorld {
  rateClock : Z;                  (* time.Now().Unix() in checkRateLimit *)
  deadlineClock : Z;              (* time.Now().Unix() at the deadline check *)
  mintedCall : Result bool;       (* CallContract and unpacking in checkAlreadyMinted *)
  feeCheck : Result Z;            (* SuggestGasPrice in relayHandler *)
  packed : Result string;         (* parsedABI.Pack("execute", ...) *)
  pendingNonce : Result Z;        (* PendingNonceAt *)
  suggestGasPrice : Result Z;     (* SuggestGasPrice in executeMetaTransaction *)
  estimateGas : Result Z;         (* EstimateGas *)
  signTx : Result string;         (* types.SignTx: the signed transaction's hash *)
  sendTransaction : Result unit;  (* SendTransaction *)
  waitClock : Z;                  (* time.Now() when waitForReceipt starts *)
  polls : nat -> Poll;            (* the successive TransactionReceipt calls *)
  markClock : Z                   (* time.Now() in markProcessed *)
}.

(** [s.sendError(w, status, message, details); return] *)
Definition sendError {A} (code : Z) (message details : string) : Handler Store A :=
  respond code message details.

(** [if err != nil { return ..., fmt.Errorf(prefix + "%v", err) }] *)
Definition orFail {A} (prefix : string) (r : Result A) : Handler Store A :=
  match r with
  | Ok a => ret a
  | Err msg => throw (prefix +:+ msg)
  end.

(** *** Rate limiting methods

    The times are Unix seconds read from the system clock, for which the
    int64 subtraction is exact. *)

Definition checkRateLimit (address : string) (now : Z)
    (reqs : gmap string (list Z)) : bool * gmap string (list Z) :=
  let recentRequests :=
    filter (fun reqTime => now - reqTime < rateLimitWindow / Second)
           (default [] (reqs !! address)) in
  if bool_decide (maxRequestsPerWindow <= length recentRequests)%nat
  then (false, reqs)
  else (true, <[address := recentRequests ++ [now]]> reqs).

Definition rateLimitGate (address : string) (now : Z) : Handler Store bool :=
  fun s =>
    let '(ok, reqs) := checkRateLimit address now (requests s) in
    (mkStore (processedRequests s) reqs, [], Next ok).

Definition limited (address : string) (now : Z) (s : Store) : Store :=
  mkStore (processedRequests s) (checkRateLimit address now (requests s)).2.

(** *** Processed requests tracking *)

Definition isProcessed (requestID : string) : Handler Store bool :=
  fun s => (s, [], Next (bool_decide (is_Some (processedRequests s !! requestID)))).

Definition markProcessed (requestID : string) (clock : Z) : Handler Store unit :=
  fun s =>
    (mkStore (<[requestID := clock]> (processedRequests s)) (requests s),
     [EvMark requestID], Next tt).

Definition marked (requestID : string) (now : Z) (s : Store) : Store :=
  mkStore (<[requestID := now]> (processedRequests s)) (requests s).

(** One tick of [cleanupRoutine]. *)
Definition cleanupRoutine (now : Z) (s : Store) : Store :=
  let cutoff := Unix (now - rateLimitWindow) in
  mkStore
    (filter (fun entry : string * Z => ¬ cacheDuration < now - entry.2)
            (processedRequests s))
    (omap (fun times =>
             let recent := filter (fun t => cutoff < t) times in
             match recent with
             | [] => None
             | _ => Some recent
             end) (requests s)).

(** *** waitForReceipt

    [pollLoop] is the [for] loop, run on a logical clock: [now] is the time
    the next [TransactionReceipt] call starts and [deadline] the expiry of
    the 2-minute context. It returns the start time of every call made, the
    time the function returns, and its result. When the context expires and
    the 2-second timer fires at the same instant, Go's [select] may take
    either; the extra call then fails at once on the expired context and the
    result is the same, so the model takes the [ctx.Done()] case. *)
Definition timeoutMsg : string := "timeout waiting for transaction receipt".

Fixpoint pollLoop (fuel : nat) (polls : nat -> Poll) (i : nat)
    (now deadline : Z) : option (list Z * Z * Result Receipt) :=
  match fuel with
  | O => None
  | S fuel' =>
      let back := now + Z.max 0 (latency (polls i)) in
      if deadline <=? back
      then Some ([now], Z.max now deadline, Err timeoutMsg)
      else
        match found (polls i) with
        | Some receipt => Some ([now], back, Ok receipt)
        | None =>
            if back + 2 * Second <? deadline
            then
              match pollLoop fuel' polls (S i) (back + 2 * Second) deadline with
              | Some (starts, finish, r) => Some (now :: starts, finish, r)
              | None => None
              end
            else Some ([now], deadline, Err timeoutMsg)
        end
  end.

Definition waitForReceipt (polls : nat -> Poll) (start : Z)
    : option (list Z * Z * Result Receipt) :=
  pollLoop 60 polls 0 start (start + 2 * Minute).

(** [strings.EqualFold(a.Hex(), b.Hex())] *)
Definition bytes32Equal (a b : string) : bool :=
  str_eqb (toLowerCase a) (toLowerCase b).

Definition parseError (errMsg : string) : string :=
  if includes errMsg "Already minted" then "This address has already minted an NFT"
  else if includes errMsg "insufficient funds" then "Relayer has insufficient funds"
  else if includes errMsg "nonce" then "Invalid nonce or nonce already used"
  else if includes errMsg "signature" then "Invalid signature"
  else if includes errMsg "deadline" then "Transaction deadline expired"
  else if includes errMsg "dataHash" then "Invalid data hash"
  else if includes errMsg "caller" then "Invalid caller address"
  else "Transaction failed".

(** The request gets past the required fields and the rate limiter. *)
Definition arrives (req : RelayRequest) (w : World) (s : Store) : Prop :=
  Signature req <> EmptyString /\ CallData req <> EmptyString
  /\ (checkRateLimit (From (Forward_ req)) (rateClock w) (requests s)).1 = true.

Section Pipeline.

(** [crypto.Keccak256Hash] *)
Variable Keccak256Hash : list byte -> list byte.
Variable config : Config.

Definition requestID (f : Forward) : string :=
  From f +:+ "-" +:+ pretty (Nonce f).

(** *** relayHandler, in the pieces between which other goroutines may run *)

(** Decoding, required fields and the rate limiter (under [rateLimit.mu]).
    The log line between the required fields and the limiter reads the
    deadline, which is present in a [RelayRequest]. *)
Definition arrival (body : Result RelayRequest) (w : World)
    : Handler Store RelayRequest :=
  match body with
  | Err msg => sendError 400 "Invalid request body" msg
  | Ok req =>
      if str_eqb (Signature req) EmptyString || str_eqb (CallData req) EmptyString
      then sendError 400 "Missing required fields: forward, signature, callData"
                     EmptyString
      else
        withinLimit <- rateLimitGate (From (Forward_ req)) (rateClock w) ;;
        if negb withinLimit
        then sendError 429 "Too many requests. Please try again later." EmptyString
        else ret req
  end.

(** The duplicate check (under [reqMutex]) and the local gates. *)
Definition gates (req : RelayRequest) (w : World) : Handler Store unit :=
  let fwd := Forward_ req in
  dup <- isProcessed (requestID fwd) ;;
  if dup
  then sendError 400 "This request has already been processed" EmptyString
  else if negb (bytes32Equal (To fwd) (NFTContract config))
  then sendError 400 "Invalid target contract" EmptyString
  else if negb (bytes32Equal (Caller fwd) (relayerAddress config))
  then sendError 400 "Invalid caller address" EmptyString
  else
    match DecodeString (TrimPrefix (CallData req) "0x") with
    | Err msg => sendError 400 "Invalid callData format" msg
    | Ok callDataBytes =>
        let computedHash := Keccak256Hash callDataBytes in
        let receivedHash := DataHash fwd in
        if negb (bool_decide (computedHash = receivedHash))
        then sendError 400 "DataHash mismatch - signature invalid" EmptyString
        else
          let now := deadlineClock w in
          if Int64 (Deadline fwd) <? now
          then sendError 400 "Transaction deadline expired" EmptyString
          else ret tt
    end.

(** How far a request gets in [gates]. *)
Definition reachesHashGate (req : RelayRequest) (callDataBytes : list byte)
    (s : Store) : Prop :=
  processedRequests s !! requestID (Forward_ req) = None
  /\ bytes32Equal (To (Forward_ req)) (NFTContract config) = true
  /\ bytes32Equal (Caller (Forward_ req)) (relayerAddress config) = true
  /\ DecodeString (TrimPrefix (CallData req) "0x") = Ok callDataBytes.

Definition reachesDeadlineGate (req : RelayRequest) (s : Store) : Prop :=
  exists callDataBytes,
    reachesHashGate req callDataBytes s
    /\ Keccak256Hash callDataBytes = DataHash (Forward_ req).

Definition checkAlreadyMinted (address : string) (w : World) : Handler Store bool :=
  emit (EvProbe address) ;;;
  await (mintedCall w).

(** Run [m]; an error it returns becomes a value. *)
Definition try {A} (m : Handler Store A) : Handler Store (Result A) :=
  fun s =>
    match m s with
    | (s', t, Next a) => (s', t, Next (Ok a))
    | (s', t, Return r) => (s', t, Return r)
    | (s', t, Throw msg) => (s', t, Next (Err msg))
    end.

(** The gas limit [executeMetaTransaction] puts on the transaction. *)
Definition bufferedGas (w : World) : Z :=
  match estimateGas w with
  | Err _ => 500000
  | Ok estimate => wrap_u64 (estimate * 120) / 100
  end.

(** The events of [executeMetaTransaction] when it gets as far as the wait. *)
Definition executorEvents (w : World) : list Event :=
  [EvExecutor; EvEstimateGas; EvSubmit (bufferedGas w); EvWait].

Definition executeMetaTransaction (req : RelayRequest) (w : World)
    : Handler Store (string * Z * Z) :=
  emit EvExecutor ;;;
  sigBytes <- orFail "invalid signature format: "
                (DecodeString (TrimPrefix (Signature req) "0x")) ;;
  callDataBytes <- orFail "invalid callData format: "
                     (DecodeString (TrimPrefix (CallData req) "0x")) ;;
  data <- orFail "failed to pack execute: " (packed w) ;;
  nonce <- orFail "failed to get nonce: " (pendingNonce w) ;;
  gasPrice <- orFail "failed to get gas price: " (suggestGasPrice w) ;;
  emit EvEstimateGas ;;;
  let estimatedGas := bufferedGas w in
  txHash <- orFail "failed to sign transaction: " (signTx w) ;;
  emit (EvSubmit estimatedGas) ;;;
  orFail "failed to send transaction: " (sendTransaction w) ;;;
  emit EvWait ;;;
  match waitForReceipt (polls w) (waitClock w) with
  | None => throw "unreachable: the receipt wait did not return"
  | Some (_, _, waited) =>
      receipt <- orFail "failed to get receipt: " waited ;;
      if status receipt =? 0
      then throw "transaction reverted by contract"
      else ret (txHash, blockNumber receipt, gasUsed receipt)
  end.

(** The fee check does not stop the request: the fetch failed, or the price
    is within the ceiling. *)
Definition feeOk (w : World) : Prop :=
  (exists m, feeCheck w = Err m)
  \/ exists p, feeCheck w = Ok p /\ p <= MaxGasPrice config.

(** From the already-minted probe to the confirmed transaction. *)
Definition execution (req : RelayRequest) (w : World)
    : Handler Store (string * Z * Z) :=
  probe <- try (checkAlreadyMinted (From (Forward_ req)) w) ;;
  match probe with
  | Err msg => sendError 500 "Failed to verify minting status" msg
  | Ok hasMinted =>
      if (hasMinted : bool)
      then sendError 400 "You already minted an NFT" EmptyString
      else
        emit EvFeeFetch ;;;
        (match feeCheck w with
         | Err _ => ret tt
         | Ok gasPrice =>
             if MaxGasPrice config <? gasPrice
             then sendError 503 "Network gas prices too high. Please try again later."
                            EmptyString
             else ret tt
         end) ;;;
        result <- try (executeMetaTransaction req w) ;;
        match result with
        | Err msg => sendError 500 (parseError msg) msg
        | Ok confirmed => ret confirmed
        end
  end.

Definition completion (req : RelayRequest) (confirmed : string * Z * Z)
    (w : World) : Handler Store Response :=
  markProcessed (requestID (Forward_ req)) (markClock w) ;;;
  ret (Success confirmed.1.1 confirmed.1.2 confirmed.2).

Definition relayBody (body : Result RelayRequest) (w : World)
    : Handler Store Response :=
  req <- arrival body w ;;
  gates req w ;;;
  confirmed <- execution req w ;;
  completion req confirmed w.

Definition settle (o : Outcome Response) : Response :=
  match o with
  | Next r => r
  | Return r => r
  | Throw msg => Failure 500 "Internal Server Error" msg
  end.

(** [relayHandler], run to completion on a store. *)
Definition relayHandler (body : Result RelayRequest) (w : World) (s : Store)
    : Store * list Event * Response :=
  match relayBody body w s with
  | (s', tr, o) => (s', tr, settle o)
  end.

(** *** Goroutines serving two requests *)

Inductive Phase : Type :=
| Arrived
| Limited (req : RelayRequest)
| InFlight (req : RelayRequest)
| Confirmed (req : RelayRequest) (confirmed : string * Z * Z)
| Finished (r : Response).

Record Thread : Type := mkThread {
  phase : Phase;
  log : list Event
}.

Definition newThread : Thread := mkThread Arrived [].

Definition advance {A} (th : Thread) (k : A -> Phase)
    (r : Store * list Event * Outcome A) : Store * Thread :=
  match r with
  | (s, t, Next a) => (s, mkThread (k a) (log th ++ t))
  | (s, t, Return r) => (s, mkThread (Finished r) (log th ++ t))
  | (s, t, Throw msg) => (s, mkThread (Finished (settle (Throw msg))) (log th ++ t))
  end.

Definition threadStep (body : Result RelayRequest) (w : World) (th : Thread)
    (s : Store) : option (Store * Thread) :=
  match phase th with
  | Arrived => Some (advance th Limited (arrival body w s))
  | Limited req => Some (advance th (fun _ => InFlight req) (gates req w s))
  | InFlight req => Some (advance th (Confirmed req) (execution req w s))
  | Confirmed req confirmed =>
      Some (advance th Finished (completion req confirmed w s))
  | Finished _ => None
  end.

Record System : Type := mkSystem {
  store : Store;
  first : Thread;
  second : Thread
}.

Inductive Side : Type := Fst | Snd.

Definition sysStep (j1 j2 : Result RelayRequest * World) (who : Side)
    (sys : System) : option System :=
  match who with
  | Fst =>
      match threadStep j1.1 j1.2 (first sys) (store sys) with
      | Some (s, th) => Some (mkSystem s th (second sys))
      | None => None
      end
  | Snd =>
      match threadStep j2.1 j2.2 (second sys) (store sys) with
      | Some (s, th) => Some (mkSystem s (first sys) th)
      | None => None
      end
  end.

Definition sys_step (j1 j2 : Result RelayRequest * World) (sys sys' : System)
    : Prop :=
  exists who, sysStep j1 j2 who sys = Some sys'.

Definition runSchedule (j1 j2 : Result RelayRequest * World)
    (sched : list Side) (sys : System) : System :=
  foldl (fun sys who => default sys (sysStep j1 j2 who sys)) sys sched.

(** The same for two goroutines whose requests carry the key [k]. *)
Definition marks (k : string) (th : Thread) : Prop :=
  In (EvMark k) (log th) /\ submitted (log th) = true.

Definition threadOk (k : string) (th : Thread) : Prop :=
  match phase th with
  | Arrived => log th = []
  | Limited req => log th = [] /\ requestID (Forward_ req) = k
  | InFlight req => log th = [] /\ requestID (Forward_ req) = k
  | Confirmed req _ =>
      requestID (Forward_ req) = k /\ submitted (log th) = true
  | Finished r =>
      (r = duplicateResponse -> log th = [])
      /\ (In (EvMark k) (log th) -> submitted (log th) = true)
  end.

Definition sysOk (k : string) (sys : System) : Prop :=
  threadOk k (first sys) /\ threadOk k (second sys)
  /\ (is_Some (processedRequests (store sys) !! k) ->
      In (EvMark k) (log (first sys)) \/ In (EvMark k) (log (second sys)))
  /\ (phase (first sys) = Finished duplicateResponse -> marks k (second sys))
  /\ (phase (second sys) = Finished duplicateResponse -> marks k (first sys)).


(** *** Requests served one after the other, with cleanup ticks in between *)

Inductive Input : Type :=
| Post (body : Result RelayRequest) (w : World)
| Cleanup (now : Z).

Definition serve (s : Store) (i : Input) : Store :=
  match i with
  | Post body w => (relayHandler body w s).1.1
  | Cleanup now => cleanupRoutine now s
  end.

Definition serveAll (s : Store) (inputs : list Input) : Store :=
  foldl serve s inputs.

(** An input that is not a tick of [cleanupRoutine] more than [cacheDuration]
    after [tm]. *)
Definition cleansBefore (tm : Z) (i : Input) : Prop :=
  match i with
  | Cleanup now => now - tm <= cacheDuration
  | _ => True
  end.

End Pipeline.

(** The request gets past every check that comes before the probe. *)
Definition passesGates (Keccak256Hash : list byte -> list byte) (config : Config)
    (req : RelayRequest) (w : World) (s : Store) : Prop :=
  arrives req w s
  /\ reachesDeadlineGate Keccak256Hash config req
       (limited (From (Forward_ req)) (rateClock w) s)
  /\ deadlineClock w <= Int64 (Deadline (Forward_ req)).

(** What [json.NewDecoder(r.Body).Decode(&req)] leaves: an error, or the
    request. The numbers of [forward] are [*big.Int]s, nil when the body
    leaves them out. Once the required fields are found present, and before
    the rate limiter is asked, [relayHandler] calls [Deadline.Int64()] for
    its log line, which panics on nil: a body without [forward.deadline] is
    none of the requests of [Forward], whose numbers are all there. *)
Inductive Body : Type :=
| Undecodable (msg : string)
| WithoutDeadline (signature callData : string)
| Decoded (req : RelayRequest).

(** [relayHandler] on a body. The reply is [None] when the goroutine
    panics: net/http recovers, and the client gets no response. *)
Definition serveBody (Keccak256Hash : list byte -> list byte) (config : Config)
    (body : Body) (w : World) (s : Store)
    : Store * list Event * option Response :=
  match body with
  | Undecodable msg =>
      let out := relayHandler Keccak256Hash config (Err msg) w s in
      (out.1.1, out.1.2, Some out.2)
  | WithoutDeadline signature callData =>
      if str_eqb signature EmptyString || str_eqb callData EmptyString
      then (s, [],
            Some (Failure 400 "Missing required fields: forward, signature, callData"
                    EmptyString))
      else (s, [], None)
  | Decoded req =>
      let out := relayHandler Keccak256Hash config (Ok req) w s in
      (out.1.1, out.1.2, Some out.2)
  end.

(** The store and the goroutine of a request that is served on its own,
    after [n] steps from the store [s]. *)
Fixpoint soloRun (Keccak256Hash : list byte -> list byte) (config : Config)
    (body : Result RelayRequest) (w : World) (n : nat) (s : Store)
    : Store * Thread :=
  match n with
  | O => (s, newThread)
  | S n' =>
      let st := soloRun Keccak256Hash config body w n' s in
      default st (threadStep Keccak256Hash config body w st.2 st.1)
  end.

(** Two stores that hold the same for the sender [a] and the key [k]. *)
Definition sameFor (a k : string) (s s' : Store) : Prop :=
  requests s !! a = requests s' !! a
  /\ (is_Some (processedRequests s !! k) <-> is_Some (processedRequests s' !! k)).

(** The goroutine is serving the request [req0]. *)
Definition carries (req0 : RelayRequest) (th : Thread) : Prop :=
  match phase th with
  | Limited req | InFlight req | Confirmed req _ => req = req0
  | _ => True
  end.

(** *** Configuration *)

(** [os.Getenv] on the environment as a map: the empty string for a
    variable that is not set. *)
Definition Getenv (environ : gmap string string) (key : string) : string :=
  default EmptyString (environ !! key).

Definition getEnv (environ : gmap string string) (key defaultValue : string)
    : string :=
  let value := Getenv environ key in
  if negb (str_eqb value EmptyString) then value else defaultValue.

(** [new(big.Int).SetString(s, 10)]: an optional sign and at least one
    decimal digit, nothing else. *)
Definition digitValue (c : ascii) : option Z :=
  let n := Z.of_N (N_of_ascii c) in
  if (48 <=? n) && (n <=? 57) then Some (n - 48) else None.

Fixpoint digits (s : string) (acc : Z) : option Z :=
  match s with
  | EmptyString => Some acc
  | String c s' =>
      match digitValue c with
      | Some d => digits s' (10 * acc + d)
      | None => None
      end
  end.

Definition SetString10 (s : string) : option Z :=
  match s with
  | EmptyString => None
  | String "+" EmptyString | String "-" EmptyString => None
  | String "+" s' => digits s' 0
  | String "-" s' => z ← digits s' 0; Some (- z)
  | _ => digits s 0
  end.

(** The [Config] struct as [loadConfig] fills it. *)
Record Settings : Type := mkSettings {
  Port : string;
  RPCURL : string;
  RelayerPrivateKey : string;
  settingsHubAddress : string;
  settingsNFTContract : string;
  ChainID : Z;
  settingsMaxGasPrice : Z
}.

(** [loadConfig]; [HexToAddress] is [common.HexToAddress] followed by
    [Hex], which never fails. *)
Definition loadConfig (HexToAddress : string -> string)
    (environ : gmap string string) : Result Settings :=
  let port := getEnv environ "PORT" "3000" in
  let rpcURL := Getenv environ "RPC_URL" in
  if str_eqb rpcURL EmptyString then Err "RPC_URL is required" else
  let relayerKey := Getenv environ "RELAYER_PRIVATE_KEY" in
  if str_eqb relayerKey EmptyString then Err "RELAYER_PRIVATE_KEY is required" else
  let hubAddr := Getenv environ "HUB_ADDRESS" in
  if str_eqb hubAddr EmptyString then Err "HUB_ADDRESS is required" else
  let nftAddr := Getenv environ "NFT_CONTRACT" in
  if str_eqb nftAddr EmptyString then Err "NFT_CONTRACT is required" else
  let chainIDStr := getEnv environ "CHAIN_ID" "80002" in
  match SetString10 chainIDStr with
  | None => Err "invalid CHAIN_ID"
  | Some chainID =>
      let maxGasPrice := 100 * 1000000000 in
      Ok (mkSettings port rpcURL relayerKey (HexToAddress hubAddr)
            (HexToAddress nftAddr) chainID maxGasPrice)
  end.

(** [NewServer]: what the handlers see of the server it creates. The
    client connection and the key are the surroundings' ([dial],
    [relayerOf] for [crypto.HexToECDSA] and [crypto.PubkeyToAddress]). *)
Definition NewServer (dial : string -> Result unit)
    (relayerOf : string -> Result string) (config : Settings)
    : Result (Config * Store) :=
  match dial (RPCURL config) with
  | Err e => Err ("failed to connect to Ethereum client: " +:+ e)
  | Ok _ =>
      match relayerOf (TrimPrefix (RelayerPrivateKey config) "0x") with
      | Err e => Err ("failed to load private key: " +:+ e)
      | Ok relayerAddress =>
          Ok (mkConfig (settingsHubAddress config) (settingsNFTContract config)
                (settingsMaxGasPrice config) relayerAddress,
              emptyStore)
      end
  end.

End Go.

(** ** meta-exec-lib/src/index.js *)

Module MetaExecLib.

(** An entry of [fTuple] or a field of [message]: an address or hash (a
    string), a number or bigint, or [undefined]. *)
Inductive Value : Type :=
| VStr (s : string)
| VInt (z : Z)
| VUndefined.

(** The argument of [prepareForward]. A field that has a default or is
    tested against [undefined] is an option, [None] for a field that is left
    out; numbers are integers. *)
Record PrepareArgs : Type := mkPrepareArgs {
  metaAddress : string;
  domainName : option string;
  domainVersion : option string;
  hasCaller : option bool;
  from : string;
  to : string;
  value : option Z;
  space : option Z;
  nonce : option Z;
  deadline : option Z;
  deadlineSec : option Z;
  callData : option string;
  caller : Value
}.

(** What [prepareForward] asks of its surroundings. *)
Record Env : Type := mkEnv {
  getNetwork : Result Z;                 (* (await provider.getNetwork()).chainId *)
  getAddress : string -> Result string;  (* ethers.getAddress *)
  keccak256 : string -> Result string;   (* ethers.keccak256 *)
  now : Z                                (* Date.now() *)
}.

Record Domain : Type := mkDomain {
  name : string;
  version : string;
  domainChainId : Z;
  verifyingContract : string
}.

(** abis.js *)
Definition EXECUTE_SIG : string :=
  "execute((address,address,uint256,uint32,uint256,uint256,bytes32,address),bytes,bytes)".

Record Prepared : Type := mkPrepared {
  domain : Domain;
  types : list (string * string);
  message : list (string * Value);
  fTuple : list Value;
  preparedCallData : string;
  dataHash : string;
  chainId : Z;
  executeSig : string
}.

Definition forwardType (hasCaller : bool) : list (string * string) :=
  [("from", "address"); ("to", "address"); ("value", "uint256");
   ("space", "uint32"); ("nonce", "uint256"); ("deadline", "uint256");
   ("dataHash", "bytes32")]
  ++ (if hasCaller then [("caller", "address")] else []).

Definition prepareForward (env : Env) (a : PrepareArgs) : Result Prepared :=
  match nonce a with
  | None => Err "The parameter 'nonce' is required."
  | Some nonce =>
      match callData a with
      | None => Err "Empty callData."
      | Some callData =>
          if str_eqb callData EmptyString || str_eqb callData "0x"
          then Err "Empty callData."
          else
            match getNetwork env with
            | Err e => Err e
            | Ok chainId =>
            match getAddress env (metaAddress a) with
            | Err e => Err e
            | Ok metaAddr =>
            match keccak256 env callData with
            | Err e => Err e
            | Ok dataHash =>
                let finalDeadline :=
                  match deadline a with
                  | Some d => d
                  | None =>
                      now env / 1000
                      + match deadlineSec a with
                        | Some 0 | None => 600
                        | Some sec => sec
                        end
                  end in
                let hasCaller := default true (hasCaller a) in
                let value := default 0 (value a) in
                let space := default 0 (space a) in
                let domain :=
                  mkDomain (default "PermissionedMetaTxHub" (domainName a))
                           (default "1" (domainVersion a)) chainId metaAddr in
                let common :=
                  [("from", VStr (from a)); ("to", VStr (to a));
                   ("value", VInt value); ("space", VInt space);
                   ("nonce", VInt nonce); ("deadline", VInt finalDeadline);
                   ("dataHash", VStr dataHash)] in
                let message :=
                  if hasCaller then common ++ [("caller", caller a)] else common in
                let fTuple :=
                  if hasCaller
                  then [VStr (from a); VStr (to a); VInt value; VInt space;
                        VInt nonce; VInt finalDeadline; VStr dataHash; caller a]
                  else [VStr (from a); VStr (to a); VInt value; VInt space;
                        VInt nonce; VInt finalDeadline; VStr dataHash] in
                Ok (mkPrepared domain (forwardType hasCaller) message fTuple
                      callData dataHash chainId EXECUTE_SIG)
            end end end
      end
  end.

(** A log of a receipt as [hubInterface.parseLog] sees it: a parsed event
    with its name and its [deployed] argument, [null], or a throw. *)
Record ParsedLog : Type := mkParsedLog {
  eventName : string;
  deployed : string
}.

Definition getDeployedAddress {Log : Type}
    (parseLog : Log -> Result (option ParsedLog)) (logs : list Log)
    : option string :=
  let parsed :=
    map (fun logItem =>
           match parseLog logItem with
           | Ok e => e
           | Err _ => None
           end) logs in
  let deployEvent :=
    find (fun e : option ParsedLog =>
            match e with
            | Some p => str_eqb (eventName p) "ContractDeployed"
            | None => false
            end) parsed in
  match deployEvent with
  | Some (Some p) => Some (deployed p)
  | _ => None
  end.

End MetaExecLib.

(** ** The web app (the React component): the request it posts *)

Module Frontend.

Definition NFT_CONTRACT : string := "0x0F835E9947f15A799eB173FEFE39f572279fA7Ac".
Definition HUB_CONTRACT : string := "0xe8cB75877D6277bCD423f39177BbEB32eDbd899b".

(** [msg.caller] in [mintNFT] *)
Definition CALLER : string := "0xA7293f15A7c1cF346aafD603a8D0E1Bc681d7b45".

(** The body [mintNFT] posts, as [express.json()] hands it to the server:
    [{ forward: msg, signature, callData }]. [nonceNow] and [deadlineNow]
    are the two readings of [Date.now()]; the hash is computed by the
    client. *)
Definition mintRequest (keccak256 : string -> Result string)
    (userAddress callData signature : string) (nonceNow deadlineNow : Z)
    : Result Js.Request :=
  match keccak256 callData with
  | Err e => Err e
  | Ok dataHash =>
      let msg :=
        Js.mkForward userAddress NFT_CONTRACT "0" "111" (pretty nonceNow)
          (deadlineNow / 1000 + 86400) dataHash CALLER in
      Ok (Js.mkRequest (Some msg) signature callData)
  end.

End Frontend.

(** ** Sample requests and worlds, for the examples *)

Module Sample.

(** A stand-in digest for the examples: every hex string hashes to the same
    value, anything else throws. *)
Definition keccak256 (data : string) : Result string :=
  if String.prefix "0x" data then Ok "0xabcd" else Err "invalid BytesLike value".

Definition CONFIG : Js.Config := Js.mkConfig "0xHub" "0xNFT" "0xRelayer".

Definition fwd : Js.Forward :=
  Js.mkForward "0xUser" "0xnft" "0" "0" "7" 2000 "0xABCD" "0xrelayer".

Definition req : Js.Request := Js.mkRequest (Some fwd) "0xsig" "0x1234".

(** All goes well: not minted, 30 wei gas price, estimate 100000, receipt in
    block 5 after three seconds. *)
Definition world : Js.World :=
  Js.mkWorld 1000000 (Ok false) (Ok (Some 30)) (Ok "0xdata") (Ok true)
    (Ok 100000) (Ok "0xtx") 1000500 3000 (Ok (mkReceipt 5 21000 1)).

Definition Keccak256Hash (data : list byte) : list byte := replicate 32 x00.

Definition config : Go.Config := Go.mkConfig "0xHub" "0xNFT" (100 * 10 ^ 9) "0xRelayer".

Definition goFwd : Go.Forward :=
  Go.mkForward "0xUser" "0xnft" 0 0 7 2000 (replicate 32 x00) "0xrelayer".

Definition goReq : Go.RelayRequest := Go.mkRelayRequest goFwd "0x5e1f" "0x1234".

(** The same for main.go, at Unix time 1000: the third poll, 4.3 seconds
    after the submission, finds the receipt. *)
Definition goWorld : Go.World :=
  Go.mkWorld 1000 1000 (Ok false) (Ok 30) (Ok "0xdata") (Ok 0) (Ok 30)
    (Ok 100000) (Ok "0xtx") (Ok tt) (1000 * Go.Second)
    (fun i => Go.mkPoll (10 ^ 8) (if (i <? 2)%nat then None else Some (mkReceipt 5 21000 1)))
    (1005 * Go.Second).

End Sample.

(** * Proofs *)

(** ** Tactics *)

Ltac js_run :=
  cbv [Js.relay Js.relayBody Js.admission Js.preflight Js.executeForward
       Js.confirmation Js.markProcessed Js.isDuplicate Js.rateLimitGate
       Js.toISOString Js.reject Js.settle Js.submitAndMark
       bind ret respond throw emit await].

Ltac go_run :=
  cbv [Go.relayHandler Go.relayBody Go.arrival Go.gates Go.execution
       Go.completion Go.executeMetaTransaction Go.checkAlreadyMinted Go.try
       Go.markProcessed Go.isProcessed Go.rateLimitGate Go.sendError Go.orFail
       Go.settle bind ret respond throw emit await].

Ltac crunch := repeat (case_match; simplify_eq; simpl in *).

(** Find where a known list splits as [pre ++ x :: post]. *)
Ltac peel pre := do 10 (try (destruct pre as [|? pre]; simplify_eq/=)).

(** ** Booleans and the handler monad *)

Lemma str_eqb_eq a b : str_eqb a b = true <-> a = b.
Proof. unfold str_eqb. apply bool_decide_eq_true. Qed.

Lemma str_eqb_neq a b : str_eqb a b = false <-> a <> b.
Proof. unfold str_eqb. apply bool_decide_eq_false. Qed.

Ltac bools :=
  repeat (progress (rewrite ?negb_true_iff, ?negb_false_iff, ?orb_true_iff,
    ?orb_false_iff, ?andb_true_iff, ?andb_false_iff, ?str_eqb_eq, ?str_eqb_neq,
    ?bool_decide_eq_true, ?bool_decide_eq_false, ?Z.ltb_lt, ?Z.ltb_ge,
    ?Z.eqb_eq, ?Z.eqb_neq in * )).

Lemma bind_inv {S A B} (m : Handler S A) (k : A -> Handler S B) s s' t o :
  bind m k s = (s', t, o) ->
  (exists s1 t1 a t2, m s = (s1, t1, Next a) /\ k a s1 = (s', t2, o) /\ t = t1 ++ t2)
  \/ (exists r, m s = (s', t, Return r) /\ o = Return r)
  \/ (exists msg, m s = (s', t, Throw msg) /\ o = Throw msg).
Proof.
  unfold bind. destruct (m s) as [[s1 t1] [a|r|msg]] eqn:Hm.
  - destruct (k a s1) as [[s2 t2] o2] eqn:Hk. intros [= <- <- <-].
    left. by exists s1, t1, a, t2.
  - intros [= <- <- <-]. right; left. by exists r.
  - intros [= <- <- <-]. right; right. by exists msg.
Qed.

Lemma bind_assoc {S A B C} (m : Handler S A) (f : A -> Handler S B)
    (g : B -> Handler S C) s :
  bind (bind m f) g s = bind m (fun a => bind (f a) g) s.
Proof.
  unfold bind. destruct (m s) as [[s1 t1] [a|r|msg]]; [|done..].
  destruct (f a s1) as [[s2 t2] [b|r|msg]]; [|done..].
  destruct (g b s2) as [[s3 t3] o]. by rewrite (assoc_L (++)).
Qed.

(** ** Sliding windows *)



Section Slide.

Variable window : Z.
Variable limit : nat.
Variable check : string -> Z -> gmap string (list Z) -> bool * gmap string (list Z).

Hypothesis check_eq : forall address now limits,
  let recent := filter (fun t => now - t < window) (default [] (limits !! address)) in
  check address now limits =
    if bool_decide (limit <= length recent)%nat
    then (false, limits)
    else (true, <[address := recent ++ [now]]> limits).




End Slide.





(** ** relayer-server.js: what a run of the handler looks like *)

(** Every way the awaited part can end, with the events up to there. *)
Lemma js_submitAndMark_cases fwd w s :
  let run := Js.submitAndMark fwd w s in
  let P := EvProbe (Js.from fwd) in
  (exists m, Js.minted w = Err m /\ run = (s, [P], Throw m))
  \/ (Js.minted w = Ok true
      /\ run = (s, [P], Return (Failure 400 "    ed an NFT" EmptyString)))
  \/ (Js.minted w = Ok false /\
      ((exists m, Js.gasPrice w = Err m /\ run = (s, [P; EvFeeFetch], Throw m))
       \/ (exists p, Js.gasPrice w = Ok (Some p) /\ Js.MAX_GAS_PRICE < p
            /\ run = (s, [P; EvFeeFetch],
                      Return (Failure 503
                        "Network gas prices too high. Please try again later."
                        EmptyString)))
       \/ (Js.feeOk w /\
           ((exists m, run = (s, [P; EvFeeFetch; EvExecutor], Throw m))
            \/ (exists m, Js.estimateGas w = Err m
                 /\ run = (s, [P; EvFeeFetch; EvExecutor; EvEstimateGas], Throw m))
            \/ (exists g m, Js.estimateGas w = Ok g /\ Js.sendTransaction w = Err m
                 /\ run = (s, [P; EvFeeFetch; EvExecutor; EvEstimateGas; EvSubmit g],
                           Throw m))
            \/ (exists g tx, Js.estimateGas w = Ok g /\ Js.sendTransaction w = Ok tx
                 /\ run = (Js.marked fwd (Js.markClock w) s,
                           [P; EvFeeFetch; EvExecutor; EvEstimateGas; EvSubmit g;
                            EvMark (Js.requestId fwd)],
                           Next tx)))))).
Proof.
  unfold Js.feeOk, Js.marked. js_run. simpl.
  destruct (Js.minted w) as [[|]|]; simpl; [naive_solver| |naive_solver].
  right; right. split; [done|].
  destruct (Js.gasPrice w) as [[p|]|]; simpl; [| |naive_solver].
  - destruct (Js.MAX_GAS_PRICE <? p) eqn:Hp; bools; [naive_solver|].
    right; right. split; [naive_solver|].
    destruct (Js.execData w) as [d|]; simpl; [|naive_solver].
    destruct (str_eqb d EmptyString || str_eqb d "0x"); simpl; [naive_solver|].
    destruct (Js.callerAllowed w) as [[|]|]; simpl; [|naive_solver..].
    destruct (Js.estimateGas w) as [g|]; simpl; [|naive_solver].
    destruct (Js.sendTransaction w) as [tx|]; simpl; naive_solver.
  - right; right. split; [naive_solver|].
    destruct (Js.execData w) as [d|]; simpl; [|naive_solver].
    destruct (str_eqb d EmptyString || str_eqb d "0x"); simpl; [naive_solver|].
    destruct (Js.callerAllowed w) as [[|]|]; simpl; [|naive_solver..].
    destruct (Js.estimateGas w) as [g|]; simpl; [|naive_solver].
    destruct (Js.sendTransaction w) as [tx|]; simpl; naive_solver.
Qed.

Section JsRuns.

Variable keccak256 : string -> Result string.
Variable CONFIG : Js.Config.

Lemma js_admission_inv req now s s' t o :
  Js.admission keccak256 CONFIG req now s = (s', t, o) ->
  t = [] /\ Js.processedRequests s' = Js.processedRequests s
  /\ Js.timers s' = Js.timers s
  /\ forall fwd, o = Next fwd ->
       Js.reachesDeadlineGate keccak256 CONFIG req fwd now s
       /\ now / 1000 <= Js.deadline fwd /\ s' = Js.limited fwd now s.
Proof.
  unfold Js.reachesDeadlineGate, Js.reachesHashGate, Js.wellFormed, Js.limited.
  js_run. intros H. crunch; (split_and?; [done..|]); intros fwd' ?; simplify_eq.
  bools. match goal with H : Js.checkRateLimit _ _ _ = _ |- _ => rewrite H end.
  destruct_and?. split_and?; try done. eexists. split; [done|].
  destruct_or?; [by left|by right].
Qed.

(** The gates of [admission], one by one. *)
Lemma js_admission_limited req fwd now s :
  Js.wellFormed req fwd ->
  (Js.checkRateLimit (Js.from fwd) now (Js.rateLimits s)).1 = false ->
  Js.admission keccak256 CONFIG req now s
  = (Js.limited fwd now s, [],
     Return (Failure 429 "Too many requests. Please try again later." EmptyString)).
Proof.
  unfold Js.wellFormed, Js.limited. intros (Hf & Hs & Hc & Hd) Hrl. js_run.
  rewrite Hf. apply str_eqb_neq in Hs, Hc. rewrite Hs, Hc. simpl.
  rewrite bool_decide_true by done.
  destruct (Js.checkRateLimit _ _ _) as [ok g]. simpl in *. by subst.
Qed.

Lemma js_admission_duplicate req fwd now s :
  Js.wellFormed req fwd ->
  (Js.checkRateLimit (Js.from fwd) now (Js.rateLimits s)).1 = true ->
  Js.requestId fwd ∈ Js.processedRequests s ->
  Js.admission keccak256 CONFIG req now s
  = (Js.limited fwd now s, [],
     Return (Failure 400 "This request has already been processed" EmptyString)).
Proof.
  unfold Js.wellFormed, Js.limited. intros (Hf & Hs & Hc & Hd) Hrl Hin. js_run.
  rewrite Hf. apply str_eqb_neq in Hs, Hc. rewrite Hs, Hc. simpl.
  rewrite bool_decide_true by done.
  destruct (Js.checkRateLimit _ _ _) as [ok g]. simpl in *. subst. simpl.
  by rewrite bool_decide_true.
Qed.

Lemma js_admission_hash_mismatch req fwd now s computedHash :
  Js.reachesHashGate CONFIG req fwd now s ->
  keccak256 (Js.callData req) = Ok computedHash ->
  Js.dataHash fwd <> EmptyString ->
  toLowerCase computedHash <> toLowerCase (Js.dataHash fwd) ->
  Js.admission keccak256 CONFIG req now s
  = (Js.limited fwd now s, [],
     Return (Failure 400 "DataHash mismatch - signature invalid" EmptyString)).
Proof.
  unfold Js.reachesHashGate, Js.wellFormed, Js.limited.
  intros ((Hf & Hs & Hc & Hd) & Hrl & Hnew & Hto & Hcaller) Hk Hne Hdiff. js_run.
  rewrite Hf. apply str_eqb_neq in Hs, Hc. rewrite Hs, Hc. simpl.
  rewrite bool_decide_true by done.
  destruct (Js.checkRateLimit _ _ _) as [ok g]. simpl in *. subst. simpl.
  rewrite bool_decide_false by done. apply str_eqb_eq in Hto, Hcaller.
  rewrite Hto, Hcaller, Hk. simpl.
  apply str_eqb_neq in Hne, Hdiff. by rewrite Hne, Hdiff.
Qed.

Lemma js_admission_hash_ok req fwd now s :
  Js.reachesDeadlineGate keccak256 CONFIG req fwd now s ->
  Js.admission keccak256 CONFIG req now s
  = (Js.limited fwd now s, [],
     if Js.deadline fwd <? now / 1000
     then Return (Failure 400 "Transaction deadline expired" EmptyString)
     else Next fwd).
Proof.
  unfold Js.reachesDeadlineGate, Js.reachesHashGate, Js.wellFormed, Js.limited.
  intros (((Hf & Hs & Hc & Hd) & Hrl & Hnew & Hto & Hcaller) & h & Hk & Hh). js_run.
  rewrite Hf. apply str_eqb_neq in Hs, Hc. rewrite Hs, Hc. simpl.
  rewrite bool_decide_true by done.
  destruct (Js.checkRateLimit _ _ _) as [ok g]. simpl in *. subst. simpl.
  rewrite bool_decide_false by done. apply str_eqb_eq in Hto, Hcaller.
  rewrite Hto, Hcaller, Hk. simpl.
  assert (negb (str_eqb (Js.dataHash fwd) EmptyString) &&
          negb (str_eqb (toLowerCase h) (toLowerCase (Js.dataHash fwd))) = false) as ->.
  { bools. destruct Hh; [by left|by right]. }
  by destruct (_ <? _).
Qed.

(** The handler is the admission, then the awaited part, then the wait. *)
Lemma js_relay_unfold req w s :
  Js.relay keccak256 CONFIG req w s =
  match Js.admission keccak256 CONFIG req (Js.clock w) s with
  | (s1, _, Next fwd) =>
      match Js.submitAndMark fwd w s1 with
      | (s2, t, Next tx) =>
          (s2, t ++ [EvWait],
           match Js.wait w with
           | Ok r => Success tx (blockNumber r) (gasUsed r)
           | Err m => Failure 500 (Js.errorMessage m) EmptyString
           end)
      | (s2, t, Return r) => (s2, t, r)
      | (s2, t, Throw m) => (s2, t, Failure 500 (Js.errorMessage m) EmptyString)
      end
  | (s1, t, Return r) => (s1, t, r)
  | (s1, t, Throw m) => (s1, t, Failure 500 (Js.errorMessage m) EmptyString)
  end.
Proof.
  destruct (Js.admission keccak256 CONFIG req (Js.clock w) s) as [[s1 t1] o1] eqn:Ha.
  pose proof (js_admission_inv _ _ _ _ _ _ Ha) as (-> & _).
  unfold Js.relay, Js.relayBody. unfold bind at 1. rewrite Ha.
  destruct o1 as [fwd|r|m]; [|done..].
  js_run; simpl; crunch; done.
Qed.

End JsRuns.

(** ** main.go: what a run of the handler looks like *)

(** *** waitForReceipt *)

Lemma pollLoop_spec fuel polls i now deadline :
  (0 < fuel)%nat ->
  deadline - now <= Z.of_nat fuel * (2 * Go.Second) ->
  exists starts finish r,
    Go.pollLoop fuel polls i now deadline = Some (starts, finish, r)
    /\ head starts = Some now
    /\ (length starts <= fuel)%nat
    /\ (forall k a b, starts !! k = Some a -> starts !! S k = Some b ->
          b = a + Z.max 0 (Go.latency (polls (i + k)%nat)) + 2 * Go.Second)
    /\ now <= finish <= Z.max now deadline
    /\ (forall receipt, r = Ok receipt ->
          finish < deadline
          /\ Go.found (polls (i + length starts - 1)%nat) = Some receipt)
    /\ (forall m, r = Err m -> m = Go.timeoutMsg /\ finish = Z.max now deadline).
Proof.
  assert (Hs : 0 < Go.Second) by (unfold Go.Second; lia).
  revert i now. induction fuel as [|fuel IH]; intros i now Hpos Hle; [lia|].
  pose proof (Z.le_max_l 0 (Go.latency (polls i))) as Hlat.
  simpl. destruct (deadline <=? _) eqn:Hd.
  { apply Z.leb_le in Hd. eexists _, _, _. split; [done|]. simpl.
    split; [done|]. split; [lia|]. split.
    { intros [|k] a b; simpl; [done|]. by rewrite lookup_nil. }
    split; [lia|]. split; [done|]. by intros m [= <-]. }
  apply Z.leb_gt in Hd.
  destruct (Go.found (polls i)) as [receipt|] eqn:Hf.
  { eexists _, _, _. split; [done|]. simpl.
    split; [done|]. split; [lia|]. split.
    { intros [|k] a b; simpl; [done|]. by rewrite lookup_nil. }
    split; [lia|]. split; [|done].
    intros ? [= <-]. split; [lia|]. by replace (i + 1 - 1)%nat with i by lia. }
  destruct (_ <? deadline) eqn:Hn.
  2:{ apply Z.ltb_ge in Hn. eexists _, _, _. split; [done|]. simpl.
      split; [done|]. split; [lia|]. split.
      { intros [|k] a b; simpl; [done|]. by rewrite lookup_nil. }
      split; [lia|]. split; [done|]. intros m [= <-]. split; [done|lia]. }
  apply Z.ltb_lt in Hn.
  destruct (IH (S i) (now + Z.max 0 (Go.latency (polls i)) + 2 * Go.Second))
    as (starts & finish & r & -> & Hhd & Hlen & Hsp & Hfin & Hok & Herr); [nia|nia|].
  eexists _, _, _. split; [done|]. simpl.
  split; [done|]. split; [lia|]. split.
  { intros [|k] a b; simpl.
    - intros [= <-] Hb. rewrite <- head_lookup, Hhd in Hb. simplify_eq.
      by rewrite Nat.add_0_r.
    - intros Ha Hb. rewrite (Hsp k a b Ha Hb).
      by replace (S i + k)%nat with (i + S k)%nat by lia. }
  split; [lia|]. split.
  - intros receipt Hr. destruct (Hok receipt Hr) as [? Hfound]. split; [done|].
    destruct starts; [done|]. simpl in *.
    by replace (i + S (S (length starts)) - 1)%nat
      with (S i + S (length starts) - 1)%nat by lia.
  - intros m Hm. destruct (Herr m Hm) as [-> ->]. split; [done|lia].
Qed.

(** The wait always returns: 60 polls are enough for a 2-minute context
    with 2 seconds between polls. *)
Lemma waitForReceipt_spec polls start :
  exists starts finish r,
    Go.waitForReceipt polls start = Some (starts, finish, r)
    /\ head starts = Some start
    /\ (length starts <= 60)%nat
    /\ (forall k a b, starts !! k = Some a -> starts !! S k = Some b ->
          b = a + Z.max 0 (Go.latency (polls k)) + 2 * Go.Second)
    /\ start <= finish <= start + 2 * Go.Minute
    /\ (forall receipt, r = Ok receipt ->
          finish < start + 2 * Go.Minute
          /\ Go.found (polls (length starts - 1)%nat) = Some receipt)
    /\ (forall m, r = Err m -> m = Go.timeoutMsg /\ finish = start + 2 * Go.Minute).
Proof.
  unfold Go.waitForReceipt.
  destruct (pollLoop_spec 60 polls 0 start (start + 2 * Go.Minute))
    as (starts & finish & r & H & Hhd & Hlen & Hsp & Hfin & Hok & Herr).
  { lia. } { unfold Go.Minute, Go.Second. lia. }
  assert (Hm : 0 < Go.Minute) by (unfold Go.Minute, Go.Second; lia).
  exists starts, finish, r. split_and?; try done; try lia.
  intros m Hmsg. destruct (Herr m Hmsg) as [-> ->]. split; [done|lia].
Qed.

Lemma go_arrival_cases body w s :
  Go.arrival body w s =
  match body with
  | Err msg => (s, [], Return (Failure 400 "Invalid request body" msg))
  | Ok req =>
      if str_eqb (Go.Signature req) EmptyString || str_eqb (Go.CallData req) EmptyString
      then (s, [], Return (Failure 400
              "Missing required fields: forward, signature, callData" EmptyString))
      else
        (Go.limited (Go.From (Go.Forward_ req)) (Go.rateClock w) s, [],
         if (Go.checkRateLimit (Go.From (Go.Forward_ req)) (Go.rateClock w)
               (Go.requests s)).1
         then Next req
         else Return (Failure 429 "Too many requests. Please try again later."
                        EmptyString))
  end.
Proof.
  unfold Go.limited. go_run. destruct body as [req|m]; [|done].
  destruct (_ || _); [done|].
  by destruct (Go.checkRateLimit _ _ _) as [[|] g].
Qed.

(** Every way [executeMetaTransaction] can end, with the events up to there. *)
Lemma go_execute_cases req w s :
  let run := Go.executeMetaTransaction req w s in
  let g := Go.bufferedGas w in
  (exists m, run = (s, [EvExecutor], Throw m))
  \/ (exists m, Go.signTx w = Err m
        /\ run = (s, [EvExecutor; EvEstimateGas],
                  Throw ("failed to sign transaction: " +:+ m)))
  \/ (exists m, Go.sendTransaction w = Err m
        /\ run = (s, [EvExecutor; EvEstimateGas; EvSubmit g],
                  Throw ("failed to send transaction: " +:+ m)))
  \/ (exists tx starts finish waited,
        Go.signTx w = Ok tx /\ Go.sendTransaction w = Ok tt
        /\ Go.waitForReceipt (Go.polls w) (Go.waitClock w) = Some (starts, finish, waited)
        /\ ((waited = Err Go.timeoutMsg
             /\ run = (s, [EvExecutor; EvEstimateGas; EvSubmit g; EvWait],
                       Throw ("failed to get receipt: " +:+ Go.timeoutMsg)))
            \/ (exists receipt, waited = Ok receipt /\ status receipt = 0
                 /\ run = (s, [EvExecutor; EvEstimateGas; EvSubmit g; EvWait],
                           Throw "transaction reverted by contract"))
            \/ (exists receipt, waited = Ok receipt /\ status receipt <> 0
                 /\ run = (s, [EvExecutor; EvEstimateGas; EvSubmit g; EvWait],
                           Next (tx, blockNumber receipt, gasUsed receipt))))).
Proof.
  go_run. simpl.
  destruct (Go.DecodeString (Go.TrimPrefix (Go.Signature req) "0x")); simpl; [|naive_solver].
  destruct (Go.DecodeString (Go.TrimPrefix (Go.CallData req) "0x")); simpl; [|naive_solver].
  destruct (Go.packed w); simpl; [|naive_solver].
  destruct (Go.pendingNonce w); simpl; [|naive_solver].
  destruct (Go.suggestGasPrice w); simpl; [|naive_solver].
  destruct (Go.signTx w) as [tx|]; simpl; [|naive_solver].
  destruct (Go.sendTransaction w) as [[]|]; simpl; [|naive_solver].
  destruct (waitForReceipt_spec (Go.polls w) (Go.waitClock w))
    as (starts & finish & r & -> & _ & _ & _ & _ & _ & Herr).
  do 3 right. exists tx, starts, finish, r. split_and?; try done.
  destruct r as [receipt|m]; simpl.
  - destruct (status receipt =? 0) eqn:Hst; bools; naive_solver.
  - destruct (Herr m eq_refl) as [-> _]. by left.
Qed.

Lemma go_execute_store req w s :
  (Go.executeMetaTransaction req w s).1.1 = s.
Proof.
  destruct (go_execute_cases req w s) as [(? & ->)|[(? & ? & ->)|[(? & ? & ->)|
    (? & ? & ? & ? & ? & ? & ? & [(? & ->)|[(? & ? & ? & ->)|(? & ? & ? & ->)]])]]];
    done.
Qed.

(** From the probe to the confirmed transaction: the probe and the fee
    check, then whatever [executeMetaTransaction] does. *)
Lemma go_execution_cases config req w s :
  let run := Go.execution config req w s in
  let P := EvProbe (Go.From (Go.Forward_ req)) in
  (exists m, Go.mintedCall w = Err m
     /\ run = (s, [P], Return (Failure 500 "Failed to verify minting status" m)))
  \/ (Go.mintedCall w = Ok true
      /\ run = (s, [P], Return (Failure 400 "You already minted an NFT" EmptyString)))
  \/ (Go.mintedCall w = Ok false /\
      ((exists p, Go.feeCheck w = Ok p /\ Go.MaxGasPrice config < p
          /\ run = (s, [P; EvFeeFetch],
                    Return (Failure 503
                      "Network gas prices too high. Please try again later."
                      EmptyString)))
       \/ (Go.feeOk config w /\
           exists t o, Go.executeMetaTransaction req w s = (s, t, o)
             /\ run = (s, P :: EvFeeFetch :: t,
                       match o with
                       | Next confirmed => Next confirmed
                       | Return r => Return r
                       | Throw m => Return (Failure 500 (Go.parseError m) m)
                       end)))).
Proof.
  pose proof (go_execute_store req w s) as Hst.
  destruct (Go.executeMetaTransaction req w s) as [[s2 t] o] eqn:He.
  simpl in Hst. subst s2.
  unfold Go.feeOk, Go.execution, Go.checkAlreadyMinted, Go.try, Go.sendError.
  cbv [bind ret respond throw emit await].
  destruct (Go.mintedCall w) as [[|]|m]; simpl.
  { right; left. done. }
  2:{ left. by exists m. }
  right; right. split; [done|].
  destruct (Go.feeCheck w) as [p|m]; simpl.
  - destruct (Go.MaxGasPrice config <? p) eqn:Hp; simpl.
    + apply Z.ltb_lt in Hp. left. by exists p.
    + apply Z.ltb_ge in Hp. right. split; [right; by exists p|].
      exists t, o. rewrite He. destruct o; by rewrite ?app_nil_r.
  - right. split; [left; by exists m|]. exists t, o. rewrite He.
    destruct o; by rewrite ?app_nil_r.
Qed.

Section GoRuns.

Variable Keccak256Hash : list byte -> list byte.
Variable config : Go.Config.

Lemma go_gates_inv req w s s' t o :
  Go.gates Keccak256Hash config req w s = (s', t, o) ->
  s' = s /\ t = [] /\ (o = Next tt \/ exists r, o = Return r)
  /\ (o = Next tt ->
        Go.reachesDeadlineGate Keccak256Hash config req s
        /\ Go.deadlineClock w <= Go.Int64 (Go.Deadline (Go.Forward_ req))).
Proof.
  unfold Go.reachesDeadlineGate, Go.reachesHashGate. go_run. intros H.
  crunch; (split_and?; [done|done|eauto|]); intros ?; simplify_eq.
  bools. split; [|done]. eexists. split_and?; eauto.
  by apply eq_None_not_Some.
Qed.

Lemma go_gates_duplicate req w s :
  is_Some (Go.processedRequests s !! Go.requestID (Go.Forward_ req)) ->
  Go.gates Keccak256Hash config req w s
  = (s, [], Return (Failure 400 "This request has already been processed" EmptyString)).
Proof. intros H. go_run. by rewrite bool_decide_true. Qed.

Lemma go_gates_hash_mismatch req w s callDataBytes :
  Go.reachesHashGate config req callDataBytes s ->
  Keccak256Hash callDataBytes <> Go.DataHash (Go.Forward_ req) ->
  Go.gates Keccak256Hash config req w s
  = (s, [], Return (Failure 400 "DataHash mismatch - signature invalid" EmptyString)).
Proof.
  intros (Hnew & Hto & Hcaller & Hdec) Hne. go_run.
  rewrite bool_decide_false by (rewrite Hnew; by intros [? ?]).
  rewrite Hto, Hcaller, Hdec. simpl. by rewrite bool_decide_false.
Qed.

Lemma go_gates_hash_ok req w s :
  Go.reachesDeadlineGate Keccak256Hash config req s ->
  Go.gates Keccak256Hash config req w s
  = (s, [],
     if Go.Int64 (Go.Deadline (Go.Forward_ req)) <? Go.deadlineClock w
     then Return (Failure 400 "Transaction deadline expired" EmptyString)
     else Next tt).
Proof.
  intros (bytes & (Hnew & Hto & Hcaller & Hdec) & Hh). go_run.
  rewrite bool_decide_false by (rewrite Hnew; by intros [? ?]).
  rewrite Hto, Hcaller, Hdec. simpl. rewrite bool_decide_true by done. simpl.
  by destruct (_ <? _).
Qed.

(** The handler is the arrival, the gates, the execution, then the mark. *)
Lemma go_relay_unfold body w s :
  Go.relayHandler Keccak256Hash config body w s =
  match Go.arrival body w s with
  | (s1, _, Next req) =>
      match Go.gates Keccak256Hash config req w s1 with
      | (_, _, Next _) =>
          match Go.execution config req w s1 with
          | (_, t, Next confirmed) =>
              (Go.marked (Go.requestID (Go.Forward_ req)) (Go.markClock w) s1,
               t ++ [EvMark (Go.requestID (Go.Forward_ req))],
               Success confirmed.1.1 confirmed.1.2 confirmed.2)
          | (_, t, Return r) => (s1, t, r)
          | (_, t, Throw m) => (s1, t, Failure 500 "Internal Server Error" m)
          end
      | (_, _, Return r) => (s1, [], r)
      | (_, _, Throw m) => (s1, [], Failure 500 "Internal Server Error" m)
      end
  | (s1, _, Return r) => (s1, [], r)
  | (s1, _, Throw m) => (s1, [], Failure 500 "Internal Server Error" m)
  end.
Proof.
  unfold Go.relayHandler, Go.relayBody. unfold bind at 1.
  rewrite go_arrival_cases. destruct body as [req|m]; [|done].
  destruct (_ || _); [done|]. destruct (Go.checkRateLimit _ _ _).1; [|done].
  unfold bind at 1.
  destruct (Go.gates Keccak256Hash config req w _) as [[s2 t2] o2] eqn:Hg.
  apply go_gates_inv in Hg as (-> & -> & Ho & _).
  destruct Ho as [->|[r ->]]; [|done].
  unfold bind at 1.
  set (s1 := Go.limited _ _ s).
  destruct (go_execution_cases config req w s1)
    as [(? & ? & ->)|[(? & ->)|(? & [(? & ? & ? & ->)|(? & t & o & ? & ->)])]];
    try done.
  destruct o; try done.
Qed.

End GoRuns.

(** ** Whole runs of the two handlers *)

Lemma js_admission_return keccak256 CONFIG req now s s' t r :
  Js.admission keccak256 CONFIG req now s = (s', t, Return r) ->
  isFailure r
  /\ (forall d, r = Failure 400 "This request has already been processed" d ->
        exists fwd, Js.forward req = Some fwd
                    /\ Js.requestId fwd ∈ Js.processedRequests s).
Proof.
  js_run. intros H. crunch; (split; [done|]); intros d ?; simplify_eq.
  bools. eauto.
Qed.

(** A run of [relay]: stopped in the admission, or admitted and then
    whatever the awaited part does. *)
Lemma js_relay_cases keccak256 CONFIG req w s :
  let out := Js.relay keccak256 CONFIG req w s in
  (exists s1 r, out = (s1, [], r) /\ isFailure r
     /\ Js.processedRequests s1 = Js.processedRequests s
     /\ Js.timers s1 = Js.timers s
     /\ forall fwd, ~ (Js.reachesDeadlineGate keccak256 CONFIG req fwd (Js.clock w) s
                       /\ Js.clock w / 1000 <= Js.deadline fwd))
  \/ (exists fwd,
       let s1 := Js.limited fwd (Js.clock w) s in
       Js.reachesDeadlineGate keccak256 CONFIG req fwd (Js.clock w) s
       /\ Js.clock w / 1000 <= Js.deadline fwd
       /\ match Js.submitAndMark fwd w s1 with
          | (s2, t, Next tx) =>
              out = (s2, t ++ [EvWait],
                     match Js.wait w with
                     | Ok r => Success tx (blockNumber r) (gasUsed r)
                     | Err m => Failure 500 (Js.errorMessage m) EmptyString
                     end)
          | (s2, t, Return r) => out = (s2, t, r)
          | (s2, t, Throw m) => out = (s2, t, Failure 500 (Js.errorMessage m) EmptyString)
          end).
Proof.
  simpl. rewrite js_relay_unfold.
  destruct (Js.admission keccak256 CONFIG req (Js.clock w) s) as [[s1 t1] o1] eqn:Ha.
  pose proof (js_admission_inv _ _ _ _ _ _ _ _ Ha) as (-> & Hp & Ht & Hn).
  assert (Hstop : forall fwd,
    Js.reachesDeadlineGate keccak256 CONFIG req fwd (Js.clock w) s ->
    Js.clock w / 1000 <= Js.deadline fwd -> o1 = Next fwd).
  { intros fwd Hg Hd. rewrite (js_admission_hash_ok _ _ _ _ _ _ Hg) in Ha.
    apply Z.ltb_ge in Hd. rewrite Hd in Ha. by simplify_eq. }
  destruct o1 as [fwd|r|m].
  - right. exists fwd. destruct (Hn fwd eq_refl) as (? & ? & ->).
    split_and?; try done. by destruct (Js.submitAndMark _ _ _) as [[? ?] [?|?|?]].
  - left. exists s1, r. split_and?; try done.
    + by apply (js_admission_return _ _ _ _ _ _ _ _ Ha).
    + intros fwd [Hg Hd]. by specialize (Hstop fwd Hg Hd).
  - left. eexists s1, _. split_and?; try done.
    intros fwd [Hg Hd]. by specialize (Hstop fwd Hg Hd).
Qed.

(** The events of a run of [relay], spelled out. *)
Lemma js_relay_trace keccak256 CONFIG req w s :
  let out := Js.relay keccak256 CONFIG req w s in
  (out.1.2 = [] /\ isFailure out.2
   /\ Js.processedRequests out.1.1 = Js.processedRequests s
   /\ Js.timers out.1.1 = Js.timers s)
  \/ exists fwd,
       let P := EvProbe (Js.from fwd) in
       let s1 := Js.limited fwd (Js.clock w) s in
       Js.reachesDeadlineGate keccak256 CONFIG req fwd (Js.clock w) s
       /\ Js.clock w / 1000 <= Js.deadline fwd
       /\ ((out.1.1 = s1 /\ isFailure out.2
            /\ (out.1.2 = [P] \/ out.1.2 = [P; EvFeeFetch]
                \/ out.1.2 = [P; EvFeeFetch; EvExecutor]
                \/ (out.1.2 = [P; EvFeeFetch; EvExecutor; EvEstimateGas]
                    /\ exists m, Js.estimateGas w = Err m)
                \/ exists g, Js.estimateGas w = Ok g
                     /\ out.1.2 = [P; EvFeeFetch; EvExecutor; EvEstimateGas; EvSubmit g]))
           \/ exists g tx,
                Js.estimateGas w = Ok g /\ Js.sendTransaction w = Ok tx
                /\ out.1.1 = Js.marked fwd (Js.markClock w) s1
                /\ out.1.2 = [P; EvFeeFetch; EvExecutor; EvEstimateGas; EvSubmit g;
                              EvMark (Js.requestId fwd); EvWait]
                /\ out.2 = match Js.wait w with
                           | Ok r => Success tx (blockNumber r) (gasUsed r)
                           | Err m => Failure 500 (Js.errorMessage m) EmptyString
                           end).
Proof.
  simpl.
  destruct (js_relay_cases keccak256 CONFIG req w s)
    as [(s1 & r & -> & Hr & Hp & Ht & _)|(fwd & Hg & Hd & Hrun)]; [by left|].
  right. exists fwd. split; [done|]. split; [done|]. simpl in Hrun.
  destruct (js_submitAndMark_cases fwd w (Js.limited fwd (Js.clock w) s))
    as [(m & _ & Hs)|[(_ & Hs)|(_ & [(m & _ & Hs)|[(p & _ & _ & Hs)|(_ &
         [(m & Hs)|[(m & He & Hs)|[(g & m & He & _ & Hs)|(g & tx & He & Hsend & Hs)]]])]])]];
    simpl in Hs; rewrite Hs in Hrun; rewrite Hrun; simpl.
  1-7: left; split_and?; try done.
  - by left.
  - by left.
  - right; by left.
  - right; by left.
  - do 2 right; by left.
  - do 3 right; left. split; [done|]. by exists m.
  - do 4 right. by exists g.
  - right. by exists g, tx.
Qed.

(** A request is answered "already processed" only when its key is in the
    store as the handler looks it up. *)
Lemma js_duplicate_only_if_marked keccak256 CONFIG req w s :
  (Js.relay keccak256 CONFIG req w s).2 = duplicateResponse ->
  exists fwd, Js.forward req = Some fwd
              /\ Js.requestId fwd ∈ Js.processedRequests s.
Proof.
  rewrite js_relay_unfold.
  destruct (Js.admission keccak256 CONFIG req (Js.clock w) s) as [[s1 t1] o1] eqn:Ha.
  destruct o1 as [fwd|r|m]; simpl.
  - destruct (js_submitAndMark_cases fwd w s1)
      as [(m & _ & Hs)|[(_ & Hs)|(_ & [(m & _ & Hs)|[(p & _ & _ & Hs)|(_ &
           [(m & Hs)|[(m & He & Hs)|[(g & m & He & _ & Hs)|(g & tx & He & Hsend & Hs)]]])]])]];
      simpl in Hs; rewrite Hs; simpl; try done.
    by destruct (Js.wait w).
  - intros ->. by apply (js_admission_return _ _ _ _ _ _ _ _ Ha) with EmptyString.
  - done.
Qed.

(** A request is answered "DataHash mismatch" only when it carries a
    [dataHash] that is not empty. *)
Lemma js_mismatch_only_if_dataHash keccak256 CONFIG req w s :
  (Js.relay keccak256 CONFIG req w s).2
  = Failure 400 "DataHash mismatch - signature invalid" EmptyString ->
  exists fwd, Js.forward req = Some fwd /\ Js.dataHash fwd <> EmptyString.
Proof.
  rewrite js_relay_unfold.
  destruct (Js.admission keccak256 CONFIG req (Js.clock w) s) as [[s1 t1] o1] eqn:Ha.
  destruct o1 as [fwd|r|m]; simpl.
  - destruct (js_submitAndMark_cases fwd w s1)
      as [(m & _ & Hs)|[(_ & Hs)|(_ & [(m & _ & Hs)|[(p & _ & _ & Hs)|(_ &
           [(m & Hs)|[(m & He & Hs)|[(g & m & He & _ & Hs)|(g & tx & He & Hsend & Hs)]]])]])]];
      simpl in Hs; rewrite Hs; simpl; try done.
    by destruct (Js.wait w).
  - intros ->. revert Ha. js_run. intros Ha. crunch. bools. destruct_and?. eauto.
  - done.
Qed.

(** The awaited part when the encoding of the call throws. *)
Lemma js_submitAndMark_encoding_throws fwd w s m :
  Js.minted w = Ok false -> Js.feeOk w -> Js.execData w = Err m ->
  Js.submitAndMark fwd w s
  = (s, [EvProbe (Js.from fwd); EvFeeFetch; EvExecutor], Throw m).
Proof.
  intros Hm Hfee He. js_run. rewrite Hm. simpl.
  destruct Hfee as [Hfee|(p & Hfee & Hp)]; rewrite Hfee; simpl.
  - by rewrite He.
  - apply Z.ltb_ge in Hp. rewrite Hp. simpl. by rewrite He.
Qed.

(** Where the deadline gates do what the spec says: a deadline that prints
    as a date (JS), a deadline that fits an int64 (Go). *)
Lemma js_deadline_gate keccak256 CONFIG req fwd w s :
  Js.reachesDeadlineGate keccak256 CONFIG req fwd (Js.clock w) s ->
  (Js.deadline fwd < Js.clock w / 1000 ->
   Js.relay keccak256 CONFIG req w s
   = (Js.limited fwd (Js.clock w) s, [],
      Failure 400 "Transaction deadline expired" EmptyString))
  /\ (Js.clock w / 1000 <= Js.deadline fwd ->
      Js.admission keccak256 CONFIG req (Js.clock w) s
      = (Js.limited fwd (Js.clock w) s, [], Next fwd)).
Proof.
  intros Hg. split; intros Hd.
  - rewrite js_relay_unfold, (js_admission_hash_ok _ _ _ _ _ _ Hg).
    apply Z.ltb_lt in Hd. by rewrite Hd.
  - rewrite (js_admission_hash_ok _ _ _ _ _ _ Hg).
    apply Z.ltb_ge in Hd. by rewrite Hd.
Qed.

Lemma go_gates_return K config req w s s' t r :
  Go.gates K config req w s = (s', t, Return r) ->
  isFailure r
  /\ (forall d, r = Failure 400 "This request has already been processed" d ->
        is_Some (Go.processedRequests s !! Go.requestID (Go.Forward_ req))).
Proof.
  go_run. intros H. crunch; (split; [done|]); intros d ?; simplify_eq.
  by bools.
Qed.

Lemma go_arrival_next req w s :
  Go.arrives req w s ->
  Go.arrival (Ok req) w s
  = (Go.limited (Go.From (Go.Forward_ req)) (Go.rateClock w) s, [], Next req).
Proof.
  intros (Hs & Hc & Hrl). rewrite go_arrival_cases.
  apply str_eqb_neq in Hs, Hc. by rewrite Hs, Hc, Hrl.
Qed.

(** A run of [relayHandler]: stopped before the probe, or whatever
    [execution] does, with the mark after a confirmed transaction. *)
Lemma go_relay_cases K config body w s :
  let out := Go.relayHandler K config body w s in
  (exists s1 r, out = (s1, [], r) /\ isFailure r
     /\ Go.processedRequests s1 = Go.processedRequests s)
  \/ (exists req,
       let s1 := Go.limited (Go.From (Go.Forward_ req)) (Go.rateClock w) s in
       body = Ok req /\ Go.arrives req w s
       /\ Go.reachesDeadlineGate K config req s1
       /\ Go.deadlineClock w <= Go.Int64 (Go.Deadline (Go.Forward_ req))
       /\ match Go.execution config req w s1 with
          | (_, t, Next confirmed) =>
              out = (Go.marked (Go.requestID (Go.Forward_ req)) (Go.markClock w) s1,
                     t ++ [EvMark (Go.requestID (Go.Forward_ req))],
                     Success confirmed.1.1 confirmed.1.2 confirmed.2)
          | (_, t, Return r) => out = (s1, t, r) /\ isFailure r
          | (_, t, Throw m) => False
          end).
Proof.
  simpl. rewrite go_relay_unfold, go_arrival_cases.
  destruct body as [req|m]; [|left; by eexists _, _].
  destruct (_ || _) eqn:Hf; [left; by eexists _, _|].
  destruct (Go.checkRateLimit _ _ _).1 eqn:Hrl; [|left; by eexists _, _].
  destruct (Go.gates K config req w _) as [[s2 t2] o2] eqn:Hg.
  pose proof (go_gates_inv _ _ _ _ _ _ _ _ Hg) as (-> & -> & Ho & Hn).
  destruct Ho as [->|[r ->]].
  2:{ left. eexists _, r. split_and?; try done.
      by apply (go_gates_return _ _ _ _ _ _ _ _ Hg). }
  right. exists req. destruct (Hn eq_refl) as [Hd Hdl]. bools.
  split_and?; try done. { unfold Go.arrives. destruct Hf. by split_and?. }
  set (s1 := Go.limited _ _ s).
  destruct (go_execution_cases config req w s1)
    as [(? & ? & ->)|[(? & ->)|(? & [(? & ? & ? & ->)|(? & t & o & ? & ->)])]];
    try done.
  destruct o as [c|r|m]; try done. split; [done|].
  destruct (go_execute_cases req w s1) as [(? & He)|[(? & ? & He)|[(? & ? & He)|
    (? & ? & ? & ? & ? & ? & ? & [(? & He)|[(? & ? & ? & He)|(? & ? & ? & He)]])]]];
    congruence.
Qed.

(** The events of a run of [relayHandler], spelled out. *)
Lemma go_relay_trace K config body w s :
  let out := Go.relayHandler K config body w s in
  (out.1.2 = [] /\ isFailure out.2
   /\ Go.processedRequests out.1.1 = Go.processedRequests s)
  \/ exists req,
       let P := EvProbe (Go.From (Go.Forward_ req)) in
       let s1 := Go.limited (Go.From (Go.Forward_ req)) (Go.rateClock w) s in
       body = Ok req /\ Go.arrives req w s
       /\ Go.reachesDeadlineGate K config req s1
       /\ Go.deadlineClock w <= Go.Int64 (Go.Deadline (Go.Forward_ req))
       /\ ((out.1.1 = s1 /\ isFailure out.2
            /\ exists t, out.1.2 = P :: t
                 /\ (t = [] \/ t = [EvFeeFetch]
                     \/ exists k, (k <= 4)%nat
                          /\ t = EvFeeFetch :: take k (Go.executorEvents w)))
           \/ exists tx receipt,
                out.1.1 = Go.marked (Go.requestID (Go.Forward_ req)) (Go.markClock w) s1
                /\ out.1.2 = P :: EvFeeFetch :: Go.executorEvents w
                               ++ [EvMark (Go.requestID (Go.Forward_ req))]
                /\ out.2 = Success tx (blockNumber receipt) (gasUsed receipt)
                /\ status receipt <> 0
                /\ exists starts finish,
                     Go.waitForReceipt (Go.polls w) (Go.waitClock w)
                     = Some (starts, finish, Ok receipt)).
Proof.
  simpl.
  destruct (go_relay_cases K config body w s)
    as [(s1 & r & -> & Hr & Hp)|(req & Hb & Harr & Hg & Hd & Hrun)]; [by left|].
  right. exists req. split_and?; try done. simpl in Hrun.
  set (s1 := Go.limited _ _ s) in *.
  destruct (go_execution_cases config req w s1)
    as [(m & _ & Hs)|[(_ & Hs)|(_ & [(p & _ & _ & Hs)|(_ & t & o & He & Hs)])]];
    simpl in Hs; rewrite Hs in Hrun.
  1-3: destruct Hrun as [-> Hf]; left; split_and?; try done; eexists; split; [done|].
  - by left.
  - by left.
  - right; by left.
  - destruct (go_execute_cases req w s1) as [(m & He')|[(m & _ & He')|[(m & _ & He')|
      (tx & starts & finish & waited & _ & _ & Hw & [(_ & He')|[(rc & _ & _ & He')|
                                                               (rc & -> & Hst & He')]])]]];
      simpl in He'; rewrite He' in He; simplify_eq.
    1-5: destruct Hrun as [-> Hf]; left; split_and?; try done; eexists; split; [done|];
         do 2 right.
    + exists 1%nat. split; [lia|done].
    + exists 2%nat. split; [lia|done].
    + exists 3%nat. split; [lia|done].
    + exists 4%nat. split; [lia|done].
    + exists 4%nat. split; [lia|done].
    + right. exists tx, rc. rewrite Hrun. simpl. split_and?; try done. by exists starts, finish.
Qed.

Lemma go_duplicate_only_if_marked K config body w s :
  (Go.relayHandler K config body w s).2 = duplicateResponse ->
  exists req, body = Ok req
              /\ is_Some (Go.processedRequests s !! Go.requestID (Go.Forward_ req)).
Proof.
  rewrite go_relay_unfold, go_arrival_cases.
  destruct body as [req|m]; [|done].
  destruct (_ || _); [done|].
  destruct (Go.checkRateLimit _ _ _).1; [|done].
  destruct (Go.gates K config req w _) as [[s3 t3] o3] eqn:Hgates.
  destruct o3 as [[]|r|m]; simpl.
  - set (s1 := Go.limited _ _ s).
    destruct (go_execution_cases config req w s1)
      as [(? & ? & Hs)|[(? & Hs)|(? & [(? & ? & ? & Hs)|(? & t & o & Ho & Hs)])]];
      simpl in Hs; rewrite Hs; simpl; try done.
    destruct (go_execute_cases req w s1) as [(? & He)|[(? & ? & He)|[(? & ? & He)|
      (? & ? & ? & ? & ? & ? & ? & [(? & He)|[(? & ? & ? & He)|(? & ? & ? & He)]])]]];
      simpl in He; rewrite He in *; by simplify_eq.
  - intros ->. exists req. split; [done|].
    by apply (go_gates_return _ _ _ _ _ _ _ _ Hgates) with EmptyString.
  - done.
Qed.

Lemma Int64_in_range x : - 2 ^ 63 <= x < 2 ^ 63 -> Go.Int64 x = x.
Proof.
  intros H. unfold Go.Int64, wrap_i64.
  destruct (x <? 0) eqn:Hx; [apply Z.ltb_lt in Hx|apply Z.ltb_ge in Hx].
  - rewrite Z.abs_neq by lia.
    destruct (Z.eq_dec x (- 2 ^ 63)) as [->|Hne]; [done|].
    rewrite (Z.mod_small (- x)) by lia.
    rewrite (Z.mod_small (- x + 2 ^ 63)) by lia.
    replace (- (- x + 2 ^ 63 - 2 ^ 63) + 2 ^ 63) with (x + 2 ^ 63) by lia.
    rewrite Z.mod_small by lia. lia.
  - rewrite Z.abs_eq by lia. rewrite (Z.mod_small x) by lia.
    rewrite Z.mod_small by lia. lia.
Qed.

Lemma go_deadline_gate K config req w s :
  Go.arrives req w s ->
  let s1 := Go.limited (Go.From (Go.Forward_ req)) (Go.rateClock w) s in
  let deadline := Go.Deadline (Go.Forward_ req) in
  Go.reachesDeadlineGate K config req s1 ->
  - 2 ^ 63 <= deadline < 2 ^ 63 ->
  (deadline < Go.deadlineClock w ->
   Go.relayHandler K config (Ok req) w s
   = (s1, [], Failure 400 "Transaction deadline expired" EmptyString))
  /\ (Go.deadlineClock w <= deadline ->
      Go.gates K config req w s1 = (s1, [], Next tt)).
Proof.
  intros Harr s1 deadline Hg Hrange. split; intros Hd.
  - rewrite go_relay_unfold, go_arrival_next by done.
    rewrite (go_gates_hash_ok _ _ _ _ _ Hg), Int64_in_range by done.
    fold deadline. apply Z.ltb_lt in Hd. by rewrite Hd.
  - rewrite (go_gates_hash_ok _ _ _ _ _ Hg), Int64_in_range by done.
    fold deadline. apply Z.ltb_ge in Hd. by rewrite Hd.
Qed.

(** ** Two requests with one key, interleaved *)

Section JsThreads.
Variable keccak256 : string -> Result string.
Variable CONFIG : Js.Config.

End JsThreads.

Section JsRace.
Variable keccak256 : string -> Result string.
Variable CONFIG : Js.Config.
Variables (req1 req2 : Js.Request) (w1 w2 : Js.World) (f1 f2 : Js.Forward).
Variable s0 : Js.Store.
Hypothesis Hf1 : Js.forward req1 = Some f1.
Hypothesis Hf2 : Js.forward req2 = Some f2.
Hypothesis Hsame : Js.requestId f1 = Js.requestId f2.
Hypothesis Hnew : Js.requestId f1 ∉ Js.processedRequests s0.



End JsRace.

(** ** The same for the goroutines of main.go *)


Section GoThreads.
Variable Keccak256Hash : list byte -> list byte.
Variable config : Go.Config.

End GoThreads.

Section GoRace.
Variable Keccak256Hash : list byte -> list byte.
Variable config : Go.Config.
Variables (req1 req2 : Go.RelayRequest) (w1 w2 : Go.World).
Variable s0 : Go.Store.
Hypothesis Hsame :
  Go.requestID (Go.Forward_ req1) = Go.requestID (Go.Forward_ req2).
Hypothesis Hnew : Go.processedRequests s0 !! Go.requestID (Go.Forward_ req1) = None.



End GoRace.


(** ** Retention of a mark *)

Lemma timersSound_empty : Js.timersSound Js.emptyStore.
Proof.
  split; simpl; [constructor|]. intros t Ht. by apply elem_of_nil in Ht.
Qed.

Lemma NoDup_snd_eq (l : list (Z * string)) t1 t2 k :
  NoDup l.*2 -> (t1, k) ∈ l -> (t2, k) ∈ l -> t1 = t2.
Proof.
  induction l as [|[t k'] l IH]; simpl; intros Hnd H1 H2.
  - by apply elem_of_nil in H1.
  - apply NoDup_cons in Hnd as [Hnotin Hnd].
    apply elem_of_cons in H1 as [H1|H1]; apply elem_of_cons in H2 as [H2|H2];
      simplify_eq.
    + done.
    + exfalso. apply Hnotin. apply list_elem_of_fmap. by exists (t2, k').
    + exfalso. apply Hnotin. apply list_elem_of_fmap. by exists (t1, k').
    + by apply IH.
Qed.

Lemma timersSound_fire now s : Js.timersSound s -> Js.timersSound (Js.fireTimers now s).
Proof.
  intros [Hnd Hin]. unfold Js.fireTimers. split; simpl.
  - eapply sublist_NoDup; [exact Hnd|]. apply fmap_sublist, sublist_filter.
  - intros [t k] Ht. apply list_elem_of_filter in Ht as [Hlate Ht]. simpl in *.
    apply elem_of_difference. split; [by apply (Hin (t, k))|].
    rewrite elem_of_list_to_set. intros Hdue.
    apply list_elem_of_fmap in Hdue as ([t' k'] & Heq & Hdue). simpl in Heq. subst k'.
    apply list_elem_of_filter in Hdue as [Hearly Hdue]. simpl in *.
    assert (t = t') by (by eapply NoDup_snd_eq). subst. done.
Qed.

Lemma held_fire k due now s :
  Js.held k due s -> now < due -> Js.held k due (Js.fireTimers now s).
Proof.
  intros (Hs & Hk & Ht) Hlt. unfold Js.held. split_and?.
  - by apply timersSound_fire.
  - unfold Js.fireTimers. simpl. apply elem_of_difference. split; [done|].
    rewrite elem_of_list_to_set. intros Hdue.
    apply list_elem_of_fmap in Hdue as ([t' k'] & Heq & Hdue). simpl in Heq. subst k'.
    apply list_elem_of_filter in Hdue as [Hearly Hdue]. simpl in *.
    destruct Hs as [Hnd _].
    assert (due = t') by (by eapply NoDup_snd_eq). subst. lia.
  - unfold Js.fireTimers. simpl. apply list_elem_of_filter. split; [simpl; lia|done].
Qed.

Section JsRetention.
Variable keccak256 : string -> Result string.
Variable CONFIG : Js.Config.

(** What a request does to the set and the timers: nothing, or one mark of
    a key that was not in the set. *)
Lemma js_relay_store req w s :
  let out := Js.relay keccak256 CONFIG req w s in
  (Js.processedRequests out.1.1 = Js.processedRequests s
   /\ Js.timers out.1.1 = Js.timers s /\ ~ In EvWait out.1.2)
  \/ exists fwd,
       Js.wellFormed req fwd
       /\ Js.requestId fwd ∉ Js.processedRequests s
       /\ In EvWait out.1.2
       /\ Js.processedRequests out.1.1 = {[Js.requestId fwd]} ∪ Js.processedRequests s
       /\ Js.timers out.1.1
          = Js.timers s ++ [(Js.markClock w + Js.CACHE_DURATION, Js.requestId fwd)].
Proof.
  simpl.
  destruct (js_relay_trace keccak256 CONFIG req w s)
    as [(Ht & _ & Hp & Htm)|(fwd & Hg & _ &
         [(Hs & _ & Hcase)|(g & tx & _ & _ & Hs & Ht & Hr)])]; simpl in *.
  - left. rewrite Ht. split_and?; try done. by intros [].
  - left. rewrite Hs. split_and?; try done.
    destruct Hcase as [Ht|[Ht|[Ht|[[Ht _]|(g' & He & Ht)]]]];
      rewrite Ht; simpl; naive_solver.
  - right. exists fwd. destruct Hg as [(Hwf & _ & Hnew & _) _].
    rewrite Hs, Ht. split_and?; try done. simpl. tauto.
Qed.

Lemma timersSound_relay req w s :
  Js.timersSound s -> Js.timersSound (Js.relay keccak256 CONFIG req w s).1.1.
Proof.
  intros [Hnd Hin].
  destruct (js_relay_store req w s)
    as [(Hp & Ht & _)|(fwd & _ & Hnew & _ & Hp & Ht)]; simpl in *;
    split; rewrite ?Hp, ?Ht; try done.
  - rewrite fmap_app. simpl. apply NoDup_app. split_and?; [done| |apply NoDup_singleton].
    intros k Hk Hk'. apply list_elem_of_singleton in Hk'. subst k.
    apply list_elem_of_fmap in Hk as ([t k] & Heq & Hk). simpl in Heq. subst k.
    apply Hnew. by apply (Hin (t, _)).
  - intros t Hin'. apply elem_of_app in Hin' as [Hin'|Hin'].
    + apply elem_of_union_r. by apply Hin.
    + apply list_elem_of_singleton in Hin'. subst t. simpl. set_solver.
Qed.

Lemma timersSound_serve s i :
  Js.timersSound s -> Js.timersSound (Js.serve keccak256 CONFIG s i).
Proof.
  destruct i as [req w|now|now]; simpl.
  - apply timersSound_relay.
  - apply timersSound_fire.
  - done.
Qed.

Lemma timersSound_serveAll s inputs :
  Js.timersSound s -> Js.timersSound (Js.serveAll keccak256 CONFIG s inputs).
Proof.
  revert s. induction inputs as [|i inputs IH]; intros s Hs; [done|].
  simpl. apply IH. by apply timersSound_serve.
Qed.

Lemma held_serve k due s i :
  Js.held k due s -> Js.firesBefore due i -> Js.held k due (Js.serve keccak256 CONFIG s i).
Proof.
  intros Hheld Hbefore. destruct i as [req w|now|now]; simpl in *.
  - destruct Hheld as (Hs & Hk & Ht). unfold Js.held. split_and?.
    + by apply timersSound_relay.
    + destruct (js_relay_store req w s)
        as [(Hp & _)|(fwd & _ & _ & _ & Hp & _)]; simpl in *; rewrite Hp; set_solver.
    + destruct (js_relay_store req w s)
        as [(_ & Htm & _)|(fwd & _ & _ & _ & _ & Htm)]; simpl in *; rewrite Htm;
        [done|]. apply elem_of_app. by left.
  - by apply held_fire.
  - done.
Qed.

Lemma held_serveAll k due s inputs :
  Js.held k due s -> Forall (Js.firesBefore due) inputs ->
  Js.held k due (Js.serveAll keccak256 CONFIG s inputs).
Proof.
  revert s. induction inputs as [|i inputs IH]; intros s Hs Hall; [done|].
  apply Forall_cons in Hall as [Hi Hall].
  simpl. apply IH; [|done]. by apply held_serve.
Qed.

(** The key [k] stays in the set for as long as no timer that is pending
    for it fires: [P] holds of the due times of those timers. *)
Lemma js_kept_serve k (P : Z -> Prop) s i :
  k ∈ Js.processedRequests s ->
  (forall due, (due, k) ∈ Js.timers s -> P due) ->
  (forall due, P due -> Js.firesBefore due i) ->
  k ∈ Js.processedRequests (Js.serve keccak256 CONFIG s i)
  /\ forall due, (due, k) ∈ Js.timers (Js.serve keccak256 CONFIG s i) -> P due.
Proof.
  intros Hk Hdue Hbefore. destruct i as [req w|now|now]; simpl in *.
  - destruct (js_relay_store req w s)
      as [(Hp & Ht & _)|(fwd & _ & Hnew & _ & Hp & Ht)]; simpl in *;
      rewrite Hp, Ht; [done|].
    split; [set_solver|]. intros due Hin.
    apply elem_of_app in Hin as [Hin|Hin]; [by apply Hdue|].
    apply list_elem_of_singleton in Hin. injection Hin as _ Heq. by subst k.
  - unfold Js.fireTimers. simpl. split.
    + apply elem_of_difference. split; [done|].
      rewrite elem_of_list_to_set. intros Hfired.
      apply list_elem_of_fmap in Hfired as ([t k'] & Heq & Hfired).
      simpl in Heq. subst k'.
      apply list_elem_of_filter in Hfired as [Hearly Hfired]. simpl in *.
      specialize (Hbefore t (Hdue t Hfired)). lia.
    + intros due Hin. apply list_elem_of_filter in Hin as [_ Hin]. by apply Hdue.
  - done.
Qed.

Lemma js_kept_serveAll k (P : Z -> Prop) s inputs :
  k ∈ Js.processedRequests s ->
  (forall due, (due, k) ∈ Js.timers s -> P due) ->
  (forall due, P due -> Forall (Js.firesBefore due) inputs) ->
  k ∈ Js.processedRequests (Js.serveAll keccak256 CONFIG s inputs).
Proof.
  revert s. induction inputs as [|i inputs IH]; intros s Hk Hdue Hbefore; [done|].
  simpl.
  destruct (js_kept_serve k P s i) as [Hk' Hdue']; [done|done| |].
  { intros due HP. specialize (Hbefore due HP). by apply Forall_cons in Hbefore as [? _]. }
  apply IH; [done|done|].
  intros due HP. specialize (Hbefore due HP). by apply Forall_cons in Hbefore as [_ ?].
Qed.

(** A timer that fires deletes its key, whenever the key was marked. *)
Lemma js_fired_gone k due now s :
  (due, k) ∈ Js.timers s -> due <= now ->
  k ∉ Js.processedRequests (Js.fireTimers now s).
Proof.
  intros Hin Hdue. unfold Js.fireTimers. simpl.
  intros [_ Hnot]%elem_of_difference. apply Hnot.
  rewrite elem_of_list_to_set. apply list_elem_of_fmap. exists (due, k).
  split; [done|]. by apply list_elem_of_filter.
Qed.

(** A replay of a request whose key is in the set. *)
Lemma js_replay req fwd w s :
  Js.wellFormed req fwd ->
  Js.requestId fwd ∈ Js.processedRequests s ->
  Js.relay keccak256 CONFIG req w s
  = (Js.limited fwd (Js.clock w) s, [],
     if (Js.checkRateLimit (Js.from fwd) (Js.clock w) (Js.rateLimits s)).1
     then duplicateResponse
     else Failure 429 "Too many requests. Please try again later." EmptyString).
Proof.
  intros Hwf Hin. rewrite js_relay_unfold.
  destruct (Js.checkRateLimit _ _ _).1 eqn:Hrl.
  - by rewrite (js_admission_duplicate _ _ req fwd).
  - by rewrite (js_admission_limited _ _ req fwd).
Qed.
End JsRetention.

Section GoRetention.
Variable Keccak256Hash : list byte -> list byte.
Variable config : Go.Config.

Lemma go_relay_store body w s :
  let out := Go.relayHandler Keccak256Hash config body w s in
  Go.processedRequests out.1.1 = Go.processedRequests s
  \/ exists req,
       body = Ok req
       /\ Go.processedRequests s !! Go.requestID (Go.Forward_ req) = None
       /\ Go.processedRequests out.1.1
          = <[Go.requestID (Go.Forward_ req) := Go.markClock w]> (Go.processedRequests s).
Proof.
  simpl.
  destruct (go_relay_trace Keccak256Hash config body w s)
    as [(_ & _ & Hp)|(req & Hb & _ & Hg & _ &
         [(Hs & _)|(tx & rc & Hs & _)])]; simpl in *.
  - by left.
  - left. by rewrite Hs.
  - right. exists req. destruct Hg as (bs & (Hnew & _) & _).
    rewrite Hs. by split_and?.
Qed.

Lemma go_kept_serve k tm s i :
  Go.processedRequests s !! k = Some tm ->
  Go.cleansBefore tm i ->
  Go.processedRequests (Go.serve Keccak256Hash config s i) !! k = Some tm.
Proof.
  intros Hk Hbefore. destruct i as [body w|now]; simpl in *.
  - destruct (go_relay_store body w s) as [Hp|(req & _ & Hnew & Hp)];
      simpl in *; rewrite Hp; [done|].
    rewrite lookup_insert_ne; [done|]. intros Heq. congruence.
  - unfold Go.cleanupRoutine. simpl.
    apply map_lookup_filter_Some. split; [done|]. simpl. lia.
Qed.

Lemma go_kept_serveAll k tm s inputs :
  Go.processedRequests s !! k = Some tm ->
  Forall (Go.cleansBefore tm) inputs ->
  Go.processedRequests (Go.serveAll Keccak256Hash config s inputs) !! k = Some tm.
Proof.
  revert s. induction inputs as [|i inputs IH]; intros s Hs Hall; [done|].
  apply Forall_cons in Hall as [Hi Hall].
  simpl. apply IH; [|done]. by apply go_kept_serve.
Qed.

Lemma go_replay req w s :
  Go.Signature req <> EmptyString -> Go.CallData req <> EmptyString ->
  is_Some (Go.processedRequests s !! Go.requestID (Go.Forward_ req)) ->
  Go.relayHandler Keccak256Hash config (Ok req) w s
  = (Go.limited (Go.From (Go.Forward_ req)) (Go.rateClock w) s, [],
     if (Go.checkRateLimit (Go.From (Go.Forward_ req)) (Go.rateClock w)
           (Go.requests s)).1
     then duplicateResponse
     else Failure 429 "Too many requests. Please try again later." EmptyString).
Proof.
  intros Hs Hc Hin. rewrite go_relay_unfold, go_arrival_cases.
  apply str_eqb_neq in Hs, Hc. rewrite Hs, Hc. simpl.
  destruct (Go.checkRateLimit _ _ _).1 eqn:Hrl; [|done].
  by rewrite go_gates_duplicate.
Qed.
End GoRetention.

(** ** Schedules are runs *)

Lemma js_runSchedule_reachable keccak256 CONFIG j1 j2 sched sys :
  rtc (Js.sys_step keccak256 CONFIG j1 j2) sys
      (Js.runSchedule keccak256 CONFIG j1 j2 sched sys).
Proof.
  revert sys. induction sched as [|who sched IH]; intros sys; [constructor|].
  simpl. destruct (Js.sysStep keccak256 CONFIG j1 j2 who sys) as [sys'|] eqn:Hs; simpl.
  - eapply rtc_l; [by exists who|]. apply IH.
  - apply IH.
Qed.

Lemma go_runSchedule_reachable K config j1 j2 sched sys :
  rtc (Go.sys_step K config j1 j2) sys (Go.runSchedule K config j1 j2 sched sys).
Proof.
  revert sys. induction sched as [|who sched IH]; intros sys; [constructor|].
  simpl. destruct (Go.sysStep K config j1 j2 who sys) as [sys'|] eqn:Hs; simpl.
  - eapply rtc_l; [by exists who|]. apply IH.
  - apply IH.
Qed.

(** * The claims *)

(** ** C1: concurrent duplicates *)




(** ** C2: when the key is marked *)

(** The events of a successful run: the key is marked after the transaction
    is sent (relayer-server.js) or after its receipt has come (main.go). A
    run whose submission fails marks nothing. *)
Lemma js_mark_follows_submission :
  let out := Js.relay Sample.keccak256 Sample.CONFIG Sample.req Sample.world
               Js.emptyStore in
  let failing :=
    Js.mkWorld 1000000 (Ok false) (Ok (Some 30)) (Ok "0xdata") (Ok true)
      (Ok 100000) (Err "insufficient funds for gas") 1000500 3000
      (Ok (mkReceipt 5 21000 1)) in
  let out' := Js.relay Sample.keccak256 Sample.CONFIG Sample.req failing Js.emptyStore in
  let goOut := Go.relayHandler Sample.Keccak256Hash Sample.config (Ok Sample.goReq)
                 Sample.goWorld Go.emptyStore in
  out.1.2 = [EvProbe "0xUser"; EvFeeFetch; EvExecutor; EvEstimateGas;
             EvSubmit 100000; EvMark "0xUser-7"; EvWait]
  /\ out'.1.2 = [EvProbe "0xUser"; EvFeeFetch; EvExecutor; EvEstimateGas;
                 EvSubmit 100000]
  /\ Js.processedRequests out'.1.1 = ∅
  /\ goOut.1.2 = [EvProbe "0xUser"; EvFeeFetch; EvExecutor; EvEstimateGas;
                  EvSubmit 120000; EvWait; EvMark "0xUser-7"].
Proof. by vm_compute. Qed.

(** C2, as the code has it: in every run, the mark of a key comes after the
    executor has sent the transaction. In relayer-server.js it is the event
    right after a successful [sendTransaction] and right before the wait
    for the receipt; in main.go it is the last event, after the wait, of a
    run that answers with success on a receipt that was found. *)
Theorem mark_after_submission :
  (forall keccak256 CONFIG req w s pre key post,
     (Js.relay keccak256 CONFIG req w s).1.2 = pre ++ EvMark key :: post ->
     post = [EvWait]
     /\ exists pre' g tx, pre = pre' ++ [EvSubmit g]
                          /\ Js.sendTransaction w = Ok tx)
  /\ (forall Keccak256Hash config body w s pre key post,
        (Go.relayHandler Keccak256Hash config body w s).1.2 = pre ++ EvMark key :: post ->
        post = []
        /\ (exists pre' g, pre = pre' ++ [EvSubmit g; EvWait])
        /\ exists tx receipt starts finish,
             (Go.relayHandler Keccak256Hash config body w s).2
             = Success tx (blockNumber receipt) (gasUsed receipt)
             /\ Go.waitForReceipt (Go.polls w) (Go.waitClock w)
                = Some (starts, finish, Ok receipt)).
Proof.
  split.
  - intros keccak256 CONFIG req w s pre key post Heq.
    destruct (js_relay_trace keccak256 CONFIG req w s)
      as [(Ht & _)|(fwd & _ & _ &
           [(_ & _ & Hcase)|(g & tx & _ & Hsend & _ & Ht & _)])]; simpl in *.
    + rewrite Ht in Heq. by destruct pre.
    + exfalso.
      destruct Hcase as [Ht|[Ht|[Ht|[[Ht _]|(g' & He & Ht)]]]];
        rewrite Ht in Heq; peel pre.
    + rewrite Ht in Heq. peel pre.
      split; [done|]. by eexists [_; _; _; _], g, tx.
  - intros K config body w s pre key post Heq.
    destruct (go_relay_trace K config body w s)
      as [(Ht & _)|(req & _ & _ & _ & _ &
           [(_ & _ & t & Ht & Hcase)|(tx & rc & _ & Ht & Hr & _ & starts & finish & Hw)])];
      simpl in *.
    + rewrite Ht in Heq. by destruct pre.
    + exfalso. rewrite Ht in Heq.
      destruct Hcase as [->|[->|(k & Hk & ->)]]; [peel pre..|].
      unfold Go.executorEvents in Heq.
      do 5 (destruct k as [|k]; simpl in Heq; [peel pre|]). lia.
    + rewrite Ht in Heq. unfold Go.executorEvents in Heq. simpl in Heq. peel pre.
      split; [done|]. split; [by eexists [_; _; _; _], _|].
      by exists tx, rc, starts, finish.
Qed.

(** The successful run of the sample request. *)
Lemma mark_after_submission_witness :
  [EvWait] = [EvWait]
  /\ exists pre' g tx,
       [EvProbe "0xUser"; EvFeeFetch; EvExecutor; EvEstimateGas; EvSubmit 100000]
       = pre' ++ [EvSubmit g]
       /\ Js.sendTransaction Sample.world = Ok tx.
Proof.
  apply (proj1 mark_after_submission Sample.keccak256 Sample.CONFIG Sample.req
           Sample.world Js.emptyStore
           [EvProbe "0xUser"; EvFeeFetch; EvExecutor; EvEstimateGas; EvSubmit 100000]
           "0xUser-7" [EvWait]).
  by vm_compute.
Defined.

(** ** C3: the hash gate *)

(** relayer-server.js with an empty [forward.dataHash]: the hash of the
    call data differs from it, and the request is not stopped at the hash
    gate. It goes on to the probe, the fee fetch and [executeForward],
    where [encodeFunctionData] throws on a [dataHash] that is not 32 bytes:
    the answer is 500, whatever the text of the error, and nothing is
    sent. *)
Lemma hash_gate_skipped_without_dataHash :
  let fwd := Js.mkForward "0xUser" "0xnft" "0" "0" "7" 2000 EmptyString "0xrelayer" in
  let req := Js.mkRequest (Some fwd) "0xsig" "0x1234" in
  Sample.keccak256 (Js.callData req) = Ok "0xabcd"
  /\ Js.dataHash fwd <> "0xabcd"
  /\ forall m,
       let throwing :=
         Js.mkWorld 1000000 (Ok false) (Ok (Some 30)) (Err m) (Ok true)
           (Ok 100000) (Ok "0xtx") 1000500 3000 (Ok (mkReceipt 5 21000 1)) in
       let out := Js.relay Sample.keccak256 Sample.CONFIG req throwing Js.emptyStore in
       out.1.2 = [EvProbe "0xUser"; EvFeeFetch; EvExecutor]
       /\ submitted out.1.2 = false
       /\ out.2 = Failure 500 (Js.errorMessage m) EmptyString
       /\ out.2 <> Failure 400 "DataHash mismatch - signature invalid" EmptyString.
Proof.
  intros fwd req. split_and?; [reflexivity|discriminate|].
  intros m throwing out. by split_and?.
Qed.

(** C3, as the code has it: when the keccak256 hash of the call data
    differs from [forward.dataHash], a request that reaches the hash gate is
    answered 400 "DataHash mismatch - signature invalid", and whatever gate
    answers it, the run has no event (no probe, no executor, no
    transaction) and ends in a failure. In relayer-server.js this needs a
    [dataHash] that is not the empty string, and the comparison ignores the
    case of the hex digits; in main.go the comparison is of the 32 bytes.
    A request of relayer-server.js with an empty [dataHash] gets past the
    hash gate whatever the hash of its call data and is never answered
    "DataHash mismatch"; when it also passes the deadline, the probe and
    the fee check, it reaches [executeForward], and when the encoding of
    the call throws there the answer is 500 and the trace ends at the
    executor, with no transaction. *)
Theorem hash_mismatch_rejected :
  (forall keccak256 CONFIG req fwd w s computedHash,
     keccak256 (Js.callData req) = Ok computedHash ->
     Js.dataHash fwd <> EmptyString ->
     toLowerCase computedHash <> toLowerCase (Js.dataHash fwd) ->
     (Js.reachesHashGate CONFIG req fwd (Js.clock w) s ->
      Js.relay keccak256 CONFIG req w s
      = (Js.limited fwd (Js.clock w) s, [],
         Failure 400 "DataHash mismatch - signature invalid" EmptyString))
     /\ (Js.forward req = Some fwd ->
         (Js.relay keccak256 CONFIG req w s).1.2 = []
         /\ isFailure (Js.relay keccak256 CONFIG req w s).2))
  /\ (forall Keccak256Hash config req w s callDataBytes,
        Go.DecodeString (Go.TrimPrefix (Go.CallData req) "0x") = Ok callDataBytes ->
        Keccak256Hash callDataBytes <> Go.DataHash (Go.Forward_ req) ->
        let s1 := Go.limited (Go.From (Go.Forward_ req)) (Go.rateClock w) s in
        (Go.arrives req w s ->
         Go.reachesHashGate config req callDataBytes s1 ->
         Go.relayHandler Keccak256Hash config (Ok req) w s
         = (s1, [], Failure 400 "DataHash mismatch - signature invalid" EmptyString))
        /\ (Go.relayHandler Keccak256Hash config (Ok req) w s).1.2 = []
        /\ isFailure (Go.relayHandler Keccak256Hash config (Ok req) w s).2)
  /\ (forall keccak256 CONFIG req fwd w s computedHash,
        Js.dataHash fwd = EmptyString ->
        keccak256 (Js.callData req) = Ok computedHash ->
        Js.reachesHashGate CONFIG req fwd (Js.clock w) s ->
        Js.clock w / 1000 <= Js.deadline fwd ->
        Js.admission keccak256 CONFIG req (Js.clock w) s
        = (Js.limited fwd (Js.clock w) s, [], Next fwd)
        /\ (Js.relay keccak256 CONFIG req w s).2
           <> Failure 400 "DataHash mismatch - signature invalid" EmptyString
        /\ (Js.minted w = Ok false -> Js.feeOk w ->
            forall m, Js.execData w = Err m ->
            Js.relay keccak256 CONFIG req w s
            = (Js.limited fwd (Js.clock w) s,
               [EvProbe (Js.from fwd); EvFeeFetch; EvExecutor],
               Failure 500 (Js.errorMessage m) EmptyString))).
Proof.
  split_and?.
  - intros keccak256 CONFIG req fwd w s h Hk Hne Hdiff. split.
    + intros Hg. rewrite js_relay_unfold.
      by rewrite (js_admission_hash_mismatch keccak256 CONFIG req fwd _ s h).
    + intros Hf.
      destruct (js_relay_cases keccak256 CONFIG req w s)
        as [(s1 & r & -> & Hr & _)|(fwd' & Hg & _ & _)]; [done|].
      destruct Hg as [[(Hf' & _) _] (h' & Hk' & Hh)].
      rewrite Hf in Hf'. injection Hf' as <-.
      rewrite Hk in Hk'. injection Hk' as <-.
      by destruct Hh.
  - intros K config req w s bytes Hdec Hne s1. split; [|].
    + intros Harr Hg. rewrite go_relay_unfold, go_arrival_next by done.
      by rewrite (go_gates_hash_mismatch K config req w _ bytes).
    + destruct (go_relay_cases K config (Ok req) w s)
        as [(s2 & r & -> & Hr & _)|(req' & Heq & _ & Hg & _)]; [done|].
      injection Heq as <-. destruct Hg as (bytes' & (_ & _ & _ & Hdec') & Hh).
      rewrite Hdec in Hdec'. by injection Hdec' as <-.
  - intros keccak256 CONFIG req fwd w s h Hempty Hk Hg Hd.
    assert (Ha : Js.admission keccak256 CONFIG req (Js.clock w) s
                 = (Js.limited fwd (Js.clock w) s, [], Next fwd)).
    { rewrite (js_admission_hash_ok keccak256 CONFIG req fwd).
      - apply Z.ltb_ge in Hd. by rewrite Hd.
      - split; [done|]. exists h. split; [done|]. by left. }
    split_and?; [done| |].
    + intros Hmis.
      apply js_mismatch_only_if_dataHash in Hmis as (fwd' & Hf' & Hne).
      destruct Hg as ((Hf & _) & _). rewrite Hf in Hf'. by injection Hf' as <-.
    + intros Hm Hfee m He. rewrite js_relay_unfold, Ha.
      by rewrite (js_submitAndMark_encoding_throws fwd w _ m).
Qed.

(** A request with a wrong, non-empty [dataHash] on the empty store, and
    one with an empty [dataHash] when the encoding of the call throws. *)
Lemma hash_mismatch_rejected_witness :
  let fwd := Js.mkForward "0xUser" "0xnft" "0" "0" "7" 2000 "0x1111" "0xrelayer" in
  let req := Js.mkRequest (Some fwd) "0xsig" "0x1234" in
  let bare := Js.mkForward "0xUser" "0xnft" "0" "0" "7" 2000 EmptyString "0xrelayer" in
  let bareReq := Js.mkRequest (Some bare) "0xsig" "0x1234" in
  Js.relay Sample.keccak256 Sample.CONFIG req Sample.world Js.emptyStore
  = (Js.limited fwd (Js.clock Sample.world) Js.emptyStore, [],
     Failure 400 "DataHash mismatch - signature invalid" EmptyString)
  /\ forall m,
       let throwing :=
         Js.mkWorld 1000000 (Ok false) (Ok (Some 30)) (Err m) (Ok true)
           (Ok 100000) (Ok "0xtx") 1000500 3000 (Ok (mkReceipt 5 21000 1)) in
       Js.relay Sample.keccak256 Sample.CONFIG bareReq throwing Js.emptyStore
       = (Js.limited bare 1000000 Js.emptyStore,
          [EvProbe "0xUser"; EvFeeFetch; EvExecutor],
          Failure 500 (Js.errorMessage m) EmptyString).
Proof.
  intros fwd req bare bareReq. split.
  - apply (proj1 (proj1 hash_mismatch_rejected Sample.keccak256 Sample.CONFIG req fwd
                    Sample.world Js.emptyStore "0xabcd" eq_refl
                    ltac:(done) ltac:(vm_compute; done))).
    unfold Js.reachesHashGate, Js.wellFormed. split_and?; try done; simpl; lia.
  - intros m throwing.
    refine (proj2 (proj2 (proj2 (proj2 hash_mismatch_rejected) Sample.keccak256
                            Sample.CONFIG bareReq bare throwing Js.emptyStore "0xabcd"
                            eq_refl eq_refl _ _)) eq_refl _ m eq_refl).
    + unfold Js.reachesHashGate, Js.wellFormed. split_and?; try done; simpl; lia.
    + by vm_compute.
    + right. exists 30. split; [done|]. by vm_compute.
Defined.

(** ** C4: replays *)

(** A request succeeds and is replayed five times at once: the first four
    replays use up the sender's rate limit, and the fifth is answered 429,
    not 400, although its key is in the store. *)
Lemma replay_hits_rate_limit_first :
  let first := Js.relay Sample.keccak256 Sample.CONFIG Sample.req Sample.world
                 Js.emptyStore in
  let s := Js.serveAll Sample.keccak256 Sample.CONFIG first.1.1
             (replicate 4 (Js.Post Sample.req Sample.world)) in
  let goFirst := Go.relayHandler Sample.Keccak256Hash Sample.config
                   (Ok Sample.goReq) Sample.goWorld Go.emptyStore in
  let goS := Go.serveAll Sample.Keccak256Hash Sample.config goFirst.1.1
               (replicate 4 (Go.Post (Ok Sample.goReq) Sample.goWorld)) in
  first.2 = Success "0xtx" 5 21000
  /\ Js.requestId Sample.fwd ∈ Js.processedRequests s
  /\ (Js.relay Sample.keccak256 Sample.CONFIG Sample.req Sample.world s).2
     = Failure 429 "Too many requests. Please try again later." EmptyString
  /\ goFirst.2 = Success "0xtx" 5 21000
  /\ is_Some (Go.processedRequests goS !! Go.requestID Sample.goFwd)
  /\ (Go.relayHandler Sample.Keccak256Hash Sample.config (Ok Sample.goReq)
        Sample.goWorld goS).2
     = Failure 429 "Too many requests. Please try again later." EmptyString.
Proof. vm_compute. split_and?; try done. by eexists. Qed.

(** Two requests with one key in flight together both succeed and leave
    two deletion timers for the key, due five minutes after the one mark
    and after the other. The earlier timer deletes the key, and the same
    request sent again 299.6 seconds after the later success is executed a
    third time. *)
Lemma js_earlier_timer_ends_retention :
  let slow := Js.mkWorld 1000100 (Ok false) (Ok (Some 30)) (Ok "0xdata") (Ok true)
                (Ok 100000) (Ok "0xtx2") 1001000 3000 (Ok (mkReceipt 6 21000 1)) in
  let sys := Js.runSchedule Sample.keccak256 Sample.CONFIG
               (Sample.req, Sample.world) (Sample.req, slow)
               [Js.Fst; Js.Snd; Js.Fst; Js.Snd; Js.Fst; Js.Snd]
               (Js.mkSystem Js.emptyStore Js.newThread Js.newThread) in
  let s := Js.fireTimers 1300500 (Js.store sys) in
  let later := Js.mkWorld 1300600 (Ok false) (Ok (Some 30)) (Ok "0xdata") (Ok true)
                 (Ok 100000) (Ok "0xtx3") 1300900 3000 (Ok (mkReceipt 9 21000 1)) in
  let out := Js.relay Sample.keccak256 Sample.CONFIG Sample.req later s in
  Js.phase (Js.first sys) = Js.Finished (Success "0xtx" 5 21000)
  /\ Js.phase (Js.second sys) = Js.Finished (Success "0xtx2" 6 21000)
  /\ Js.timers (Js.store sys) = [(1300500, "0xUser-7"); (1301000, "0xUser-7")]
  /\ Js.clock later - Js.markClock slow < Js.CACHE_DURATION
  /\ Js.requestId Sample.fwd ∉ Js.processedRequests s
  /\ out.2 = Success "0xtx3" 9 21000
  /\ submitted out.1.2 = true.
Proof. vm_compute. by split_and?. Qed.

(** C4, as the code has it: after a request has been answered with
    success, any request with the same key [from + "-" + nonce] is rejected
    without any event for as long as the key is retained: with 400 "This
    request has already been processed" when the rate limiter lets the
    sender through, and with 429 otherwise, since the limiter is asked
    first. In relayer-server.js the key is retained until the first of the
    timers pending for it fires: the one set at the mark, due
    [CACHE_DURATION] after it, and those that earlier marks of the same key
    have left in the store, which are due before it; a timer that fires
    deletes the key whenever it was last marked, and a request with that
    key is then not answered as a duplicate. In main.go the key is
    retained as long as no tick of [cleanupRoutine] comes more than
    [cacheDuration] after the mark. In relayer-server.js the replay is a
    request with its fields present and a deadline that [Date] can print. *)
Theorem replay_rejected_within_retention :
  (forall keccak256 CONFIG req fwd w s0 tx block gas inputs req' fwd' w',
     Js.forward req = Some fwd ->
     (Js.relay keccak256 CONFIG req w s0).2 = Success tx block gas ->
     (forall due,
        (due, Js.requestId fwd)
          ∈ Js.timers s0 ++ [(Js.markClock w + Js.CACHE_DURATION, Js.requestId fwd)] ->
        Forall (Js.firesBefore due) inputs) ->
     Js.wellFormed req' fwd' ->
     Js.requestId fwd' = Js.from fwd +:+ "-" +:+ Js.nonce fwd ->
     let s := Js.serveAll keccak256 CONFIG
                (Js.relay keccak256 CONFIG req w s0).1.1 inputs in
     Js.relay keccak256 CONFIG req' w' s
     = (Js.limited fwd' (Js.clock w') s, [],
        if (Js.checkRateLimit (Js.from fwd') (Js.clock w') (Js.rateLimits s)).1
        then Failure 400 "This request has already been processed" EmptyString
        else Failure 429 "Too many requests. Please try again later." EmptyString))
  /\ (forall keccak256 CONFIG s due now req' fwd' w',
        (due, Js.requestId fwd') ∈ Js.timers s -> due <= now ->
        Js.forward req' = Some fwd' ->
        Js.requestId fwd' ∉ Js.processedRequests (Js.fireTimers now s)
        /\ (Js.relay keccak256 CONFIG req' w' (Js.fireTimers now s)).2
           <> Failure 400 "This request has already been processed" EmptyString)
  /\ (forall Keccak256Hash config req w s0 tx block gas inputs req' w',
        (Go.relayHandler Keccak256Hash config (Ok req) w s0).2 = Success tx block gas ->
        Forall (Go.cleansBefore (Go.markClock w)) inputs ->
        Go.Signature req' <> EmptyString -> Go.CallData req' <> EmptyString ->
        Go.requestID (Go.Forward_ req')
        = Go.From (Go.Forward_ req) +:+ "-" +:+ pretty (Go.Nonce (Go.Forward_ req)) ->
        let s := Go.serveAll Keccak256Hash config
                   (Go.relayHandler Keccak256Hash config (Ok req) w s0).1.1 inputs in
        Go.relayHandler Keccak256Hash config (Ok req') w' s
        = (Go.limited (Go.From (Go.Forward_ req')) (Go.rateClock w') s, [],
           if (Go.checkRateLimit (Go.From (Go.Forward_ req')) (Go.rateClock w')
                 (Go.requests s)).1
           then Failure 400 "This request has already been processed" EmptyString
           else Failure 429 "Too many requests. Please try again later." EmptyString)).
Proof.
  split_and?.
  - intros keccak256 CONFIG req fwd w s0 tx block gas inputs req' fwd' w'
      Hfwd Hok Hbefore Hwf Hkey s.
    apply js_replay; [done|]. rewrite Hkey. fold (Js.requestId fwd).
    destruct (js_relay_trace keccak256 CONFIG req w s0)
      as [(_ & Hf & _)|(fwd0 & Hg & _ &
           [(_ & Hf & _)|(g & tx0 & _ & _ & Hs & _)])]; simpl in *.
    1-2: by rewrite Hok in Hf.
    destruct Hg as [((Hfwd0 & _) & _) _]. rewrite Hfwd in Hfwd0.
    injection Hfwd0 as <-.
    apply (js_kept_serveAll keccak256 CONFIG _
             (fun due => (due, Js.requestId fwd)
                           ∈ Js.timers s0
                             ++ [(Js.markClock w + Js.CACHE_DURATION, Js.requestId fwd)]));
      [rewrite Hs; simpl; set_solver|by rewrite Hs|done].
  - intros keccak256 CONFIG s due now req' fwd' w' Hin Hdue Hfwd.
    pose proof (js_fired_gone _ _ _ _ Hin Hdue) as Hgone. split; [done|].
    intros Hdup. apply js_duplicate_only_if_marked in Hdup as (fwd'' & Hfwd' & Hk).
    rewrite Hfwd in Hfwd'. by injection Hfwd' as <-.
  - intros K config req w s0 tx block gas inputs req' w' Hok Hbefore Hsig Hcd Hkey s.
    apply go_replay; [done|done|]. rewrite Hkey. fold (Go.requestID (Go.Forward_ req)).
    exists (Go.markClock w). apply go_kept_serveAll; [|done].
    destruct (go_relay_trace K config (Ok req) w s0)
      as [(_ & Hf & _)|(req0 & Hb & _ & _ & _ &
           [(_ & Hf & _)|(tx0 & rc & Hs & _)])]; simpl in *.
    1-2: by rewrite Hok in Hf.
    injection Hb as <-. rewrite Hs. simpl. by rewrite lookup_insert_eq.
Qed.

(** The sample request replayed 299 seconds after its success, a timer
    callback and a sweep having run in between; and replayed once its
    timer has fired. *)
Lemma replay_rejected_within_retention_witness :
  let first := Js.relay Sample.keccak256 Sample.CONFIG Sample.req Sample.world
                 Js.emptyStore in
  let inputs := [Js.Timers 1200000; Js.Sweep 1260000] in
  let s := Js.serveAll Sample.keccak256 Sample.CONFIG first.1.1 inputs in
  let later := Js.mkWorld 1299000 (Ok false) (Ok (Some 30)) (Ok "0xdata") (Ok true)
                 (Ok 100000) (Ok "0xtx2") 1299500 3000 (Ok (mkReceipt 9 21000 1)) in
  let afterwards :=
    Js.mkWorld 1300600 (Ok false) (Ok (Some 30)) (Ok "0xdata") (Ok true)
      (Ok 100000) (Ok "0xtx3") 1300900 3000 (Ok (mkReceipt 12 21000 1)) in
  Js.relay Sample.keccak256 Sample.CONFIG Sample.req later s
  = (Js.limited Sample.fwd 1299000 s, [],
     Failure 400 "This request has already been processed" EmptyString)
  /\ (Js.relay Sample.keccak256 Sample.CONFIG Sample.req afterwards
        (Js.fireTimers 1300500 first.1.1)).2
     <> Failure 400 "This request has already been processed" EmptyString.
Proof.
  intros first inputs s later afterwards. split.
  - etrans;
      [apply (proj1 replay_rejected_within_retention Sample.keccak256 Sample.CONFIG
                Sample.req Sample.fwd Sample.world Js.emptyStore "0xtx" 5 21000 inputs
                Sample.req Sample.fwd later)|by vm_compute].
    + reflexivity.
    + reflexivity.
    + intros due Hin. apply list_elem_of_singleton in Hin. injection Hin as ->.
      repeat constructor.
    + unfold Js.wellFormed. split_and?; try done; simpl; lia.
    + reflexivity.
  - apply (proj1 (proj2 replay_rejected_within_retention) Sample.keccak256
             Sample.CONFIG first.1.1 1300500 1300500 Sample.req Sample.fwd afterwards).
    + by apply list_elem_of_singleton.
    + lia.
    + reflexivity.
Defined.

(** ** C5: the rate limiter *)



(** ** C6: the deadline gate *)

(** C6 at two deadlines far in the future. main.go compares with
    [forward.Deadline.Int64()], which for 2^63 is negative: the request is
    answered "Transaction deadline expired" although the deadline has not
    passed. relayer-server.js prints the deadline as a [Date] before any
    gate, which throws for a deadline of more than 8640000000000 seconds:
    the request is answered 500 "Transaction failed". *)
Theorem deadline_gate_far_future :
  (let fwd := Go.mkForward "0xUser" "0xnft" 0 0 7 (2 ^ 63) (replicate 32 x00)
                "0xrelayer" in
   let req := Go.mkRelayRequest fwd "0x5e1f" "0x1234" in
   let w := Sample.goWorld in
   Go.deadlineClock w <= Go.Deadline fwd
   /\ Go.relayHandler Sample.Keccak256Hash Sample.config (Ok req) w Go.emptyStore
      = (Go.limited "0xUser" (Go.rateClock w) Go.emptyStore, [],
         Failure 400 "Transaction deadline expired" EmptyString))
  /\ (let fwd := Js.mkForward "0xUser" "0xnft" "0" "0" "7" 8640000000001 "0xABCD"
                   "0xrelayer" in
      let req := Js.mkRequest (Some fwd) "0xsig" "0x1234" in
      let w := Sample.world in
      Js.clock w / 1000 <= Js.deadline fwd
      /\ Js.relay Sample.keccak256 Sample.CONFIG req w Js.emptyStore
         = (Js.emptyStore, [], Failure 500 "Transaction failed" EmptyString)).
Proof. split; (split; [by vm_compute|]); by vm_compute. Qed.

(** ** C7: the fee ceiling *)

(** C7: in a run that fetches the network fee and gets a price above the
    ceiling ([MAX_GAS_PRICE] of 100 gwei in relayer-server.js,
    [config.MaxGasPrice] in main.go), the answer is 503 "Network gas prices
    too high. Please try again later.", the executor is not called, no
    transaction is submitted and the processed-requests store is as
    before. *)
Theorem fee_ceiling_rejects :
  (forall keccak256 CONFIG req w s price,
     In EvFeeFetch (Js.relay keccak256 CONFIG req w s).1.2 ->
     Js.gasPrice w = Ok (Some price) ->
     Js.MAX_GAS_PRICE < price ->
     (Js.relay keccak256 CONFIG req w s).2
       = Failure 503 "Network gas prices too high. Please try again later." EmptyString
     /\ ~ In EvExecutor (Js.relay keccak256 CONFIG req w s).1.2
     /\ submitted (Js.relay keccak256 CONFIG req w s).1.2 = false
     /\ Js.processedRequests (Js.relay keccak256 CONFIG req w s).1.1
        = Js.processedRequests s)
  /\ (forall Keccak256Hash config body w s price,
        In EvFeeFetch (Go.relayHandler Keccak256Hash config body w s).1.2 ->
        Go.feeCheck w = Ok price ->
        Go.MaxGasPrice config < price ->
        (Go.relayHandler Keccak256Hash config body w s).2
          = Failure 503 "Network gas prices too high. Please try again later." EmptyString
        /\ ~ In EvExecutor (Go.relayHandler Keccak256Hash config body w s).1.2
        /\ submitted (Go.relayHandler Keccak256Hash config body w s).1.2 = false
        /\ Go.processedRequests (Go.relayHandler Keccak256Hash config body w s).1.1
           = Go.processedRequests s).
Proof.
  split.
  - intros keccak256 CONFIG req w s price Hin Hp Hmax.
    destruct (js_relay_cases keccak256 CONFIG req w s)
      as [(s1 & r & Heq & _)|(fwd & _ & _ & Hrun)].
    { rewrite Heq in Hin; by destruct Hin. }
    destruct (js_submitAndMark_cases fwd w (Js.limited fwd (Js.clock w) s))
      as [(m & Hm & Hs)|[(Hm & Hs)|(Hm & [(m & Hg & Hs)|[(p & Hg & Hlt & Hs)|(Hok & _)]])]];
      simpl in *.
    + rewrite Hs in Hrun. rewrite Hrun in Hin. simpl in Hin. naive_solver.
    + rewrite Hs in Hrun. rewrite Hrun in Hin. simpl in Hin. naive_solver.
    + congruence.
    + rewrite Hs in Hrun. rewrite Hrun. simpl. split_and?; try done.
      intros [?|[?|[]]]; done.
    + destruct Hok as [Hn|(p & Hq & Hle)]; [congruence|].
      rewrite Hp in Hq. injection Hq as <-. lia.
  - intros K config body w s price Hin Hp Hmax.
    destruct (go_relay_cases K config body w s)
      as [(s1 & r & Heq & _)|(req & _ & _ & _ & _ & Hrun)].
    { rewrite Heq in Hin; by destruct Hin. }
    set (s1 := Go.limited _ _ s) in *.
    destruct (go_execution_cases config req w s1)
      as [(m & Hm & Hs)|[(Hm & Hs)|(Hm & [(p & Hf & Hlt & Hs)|(Hok & _)])]];
      simpl in *.
    + rewrite Hs in Hrun. destruct Hrun as [Hrun _]. rewrite Hrun in Hin.
      simpl in Hin. naive_solver.
    + rewrite Hs in Hrun. destruct Hrun as [Hrun _]. rewrite Hrun in Hin.
      simpl in Hin. naive_solver.
    + rewrite Hs in Hrun. destruct Hrun as [Hrun _]. rewrite Hrun. simpl.
      split_and?; try done. intros [?|[?|[]]]; done.
    + destruct Hok as [(m & Hn)|(p & Hq & Hle)]; [congruence|].
      rewrite Hp in Hq. injection Hq as <-. lia.
Qed.

(** The sample request when the network asks 200 gwei. *)
Lemma fee_ceiling_rejects_witness :
  let w := Js.mkWorld 1000000 (Ok false) (Ok (Some (200 * 10 ^ 9))) (Ok "0xdata")
             (Ok true) (Ok 100000) (Ok "0xtx") 1000500 3000
             (Ok (mkReceipt 5 21000 1)) in
  let out := Js.relay Sample.keccak256 Sample.CONFIG Sample.req w Js.emptyStore in
  out.2 = Failure 503 "Network gas prices too high. Please try again later."
            EmptyString
  /\ ~ In EvExecutor out.1.2
  /\ submitted out.1.2 = false
  /\ Js.processedRequests out.1.1 = Js.processedRequests Js.emptyStore.
Proof.
  intros w out.
  apply (proj1 fee_ceiling_rejects Sample.keccak256 Sample.CONFIG Sample.req w
           Js.emptyStore (200 * 10 ^ 9)).
  - vm_compute. tauto.
  - reflexivity.
  - by vm_compute.
Defined.

(** ** C8: the gas limit *)

(** relayer-server.js submits with the estimate itself as gas limit, and
    when the estimation fails it submits nothing and answers 500. *)
Lemma js_gas_limit_is_raw_estimate :
  let out := Js.relay Sample.keccak256 Sample.CONFIG Sample.req Sample.world
               Js.emptyStore in
  let failing :=
    Js.mkWorld 1000000 (Ok false) (Ok (Some 30)) (Ok "0xdata") (Ok true)
      (Err "execution reverted") (Ok "0xtx") 1000500 3000 (Ok (mkReceipt 5 21000 1)) in
  let out' := Js.relay Sample.keccak256 Sample.CONFIG Sample.req failing Js.emptyStore in
  Js.estimateGas Sample.world = Ok 100000
  /\ In (EvSubmit 100000) out.1.2
  /\ 100000 <> 100000 * 120 / 100
  /\ out'.2 = Failure 500 "Transaction failed" EmptyString
  /\ submitted out'.1.2 = false.
Proof. vm_compute. split_and?; try done. tauto. Qed.

(** C8, as the code has it: main.go submits with a gas limit of the
    estimate times 120 divided by 100 in uint64 arithmetic (which is the
    exact quotient as long as the product is below 2^64), and of 500000
    when the estimation fails. relayer-server.js, through [executeForward]
    of meta-exec-lib, submits with the raw estimate, and submits nothing
    when the estimation fails. *)
Theorem gas_limit_margin :
  (forall Keccak256Hash config body w s g,
     In (EvSubmit g) (Go.relayHandler Keccak256Hash config body w s).1.2 ->
     g = match Go.estimateGas w with
         | Ok estimate => wrap_u64 (estimate * 120) / 100
         | Err _ => 500000
         end)
  /\ (forall estimate,
        0 <= estimate -> estimate * 120 < 2 ^ 64 ->
        wrap_u64 (estimate * 120) / 100 = estimate * 120 / 100)
  /\ (forall keccak256 CONFIG req w s g,
        In (EvSubmit g) (Js.relay keccak256 CONFIG req w s).1.2 ->
        Js.estimateGas w = Ok g)
  /\ (forall keccak256 CONFIG req w s m,
        Js.estimateGas w = Err m ->
        submitted (Js.relay keccak256 CONFIG req w s).1.2 = false).
Proof.
  split_and!.
  - intros K config body w s g Hin.
    destruct (go_relay_trace K config body w s)
      as [(Ht & _)|(req & _ & _ & _ & _ &
           [(_ & _ & t & Ht & Hcase)|(tx & rc & _ & Ht & _)])]; simpl in *;
      rewrite Ht in Hin.
    + done.
    + destruct Hcase as [->|[->|(k & _ & ->)]]; simpl in Hin.
      * naive_solver.
      * naive_solver.
      * destruct Hin as [?|[?|Hin]]; [done..|]. apply list_elem_of_In in Hin.
        apply elem_of_take in Hin as (i & Hi & _). unfold Go.executorEvents in Hi.
        do 4 (destruct i as [|i]; simplify_eq/=; try done).
    + unfold Go.executorEvents in Hin. simpl in Hin. naive_solver.
  - intros estimate H0 Hlt. unfold wrap_u64. by rewrite Z.mod_small by lia.
  - intros keccak256 CONFIG req w s g Hin.
    destruct (js_relay_trace keccak256 CONFIG req w s)
      as [(Ht & _)|(fwd & _ & _ & [(_ & _ & Hcase)|(g' & tx & He & _ & _ & Ht & _)])];
      simpl in *.
    + by rewrite Ht in Hin.
    + destruct Hcase as [Ht|[Ht|[Ht|[[Ht _]|(g' & He & Ht)]]]];
        rewrite Ht in Hin; simpl in Hin; naive_solver.
    + rewrite Ht in Hin. simpl in Hin. naive_solver.
  - intros keccak256 CONFIG req w s m Herr.
    destruct (js_relay_trace keccak256 CONFIG req w s)
      as [(Ht & _)|(fwd & _ & _ & [(_ & _ & Hcase)|(g' & tx & He & _)])];
      simpl in *.
    + by rewrite Ht.
    + destruct Hcase as [Ht|[Ht|[Ht|[[Ht _]|(g' & He & Ht)]]]];
        try (by rewrite Ht). congruence.
    + congruence.
Qed.

(** An estimate of 100000 gives a limit of 120000. *)
Lemma gas_limit_margin_witness :
  wrap_u64 (100000 * 120) / 100 = 100000 * 120 / 100.
Proof.
  apply (proj1 (proj2 gas_limit_margin) 100000); lia.
Defined.

(** ** C9: the wait for the receipt *)




(** ** C10: failures and the store *)

(** relayer-server.js when the transaction is sent and then reverts: the
    answer is 500, the key stays in the store, and the same request sent
    again is answered as a duplicate. *)
Lemma js_mark_survives_revert :
  let reverting :=
    Js.mkWorld 1000000 (Ok false) (Ok (Some 30)) (Ok "0xdata") (Ok true)
      (Ok 100000) (Ok "0xtx") 1000500 3000 (Err "transaction execution reverted") in
  let out := Js.relay Sample.keccak256 Sample.CONFIG Sample.req reverting Js.emptyStore in
  let again := Js.relay Sample.keccak256 Sample.CONFIG Sample.req Sample.world out.1.1 in
  out.2 = Failure 500 "Transaction failed" EmptyString
  /\ submitted out.1.2 = true
  /\ Js.requestId Sample.fwd ∈ Js.processedRequests out.1.1
  /\ again.2 = duplicateResponse.
Proof.
  vm_compute. by split_and?.
Qed.

(** C10, as the code has it: in main.go a request that is answered with a
    failure leaves the processed-requests store as it was, and if it got
    past the gates the same request sent again is not answered as a
    duplicate. In relayer-server.js the same holds of a failure that comes
    before the wait for the receipt; a failure of that wait (a revert)
    comes after the mark, and leaves the key in the store with its timer:
    for as long as no timer pending for the key has fired, the same request
    sent again is rejected without any event, with 400 "This request has
    already been processed" when the rate limiter lets the sender through
    and with 429 otherwise. *)
Theorem failed_execution_store :
  (forall Keccak256Hash config body w s,
     let out := Go.relayHandler Keccak256Hash config body w s in
     isFailure out.2 ->
     Go.processedRequests out.1.1 = Go.processedRequests s
     /\ (out.1.2 <> [] ->
         forall w', (Go.relayHandler Keccak256Hash config body w' out.1.1).2
                    <> duplicateResponse))
  /\ (forall keccak256 CONFIG req w s,
        let out := Js.relay keccak256 CONFIG req w s in
        isFailure out.2 ->
        (~ In EvWait out.1.2 ->
         Js.processedRequests out.1.1 = Js.processedRequests s
         /\ Js.timers out.1.1 = Js.timers s
         /\ (out.1.2 <> [] ->
             forall w', (Js.relay keccak256 CONFIG req w' out.1.1).2 <> duplicateResponse))
        /\ (In EvWait out.1.2 ->
            exists fwd m,
              Js.forward req = Some fwd /\ Js.wait w = Err m
              /\ out.1.1 = Js.marked fwd (Js.markClock w) (Js.limited fwd (Js.clock w) s)
              /\ forall inputs w',
                   (forall due,
                      (due, Js.requestId fwd)
                        ∈ Js.timers s
                          ++ [(Js.markClock w + Js.CACHE_DURATION, Js.requestId fwd)] ->
                      Forall (Js.firesBefore due) inputs) ->
                   let s' := Js.serveAll keccak256 CONFIG out.1.1 inputs in
                   Js.relay keccak256 CONFIG req w' s'
                   = (Js.limited fwd (Js.clock w') s', [],
                      if (Js.checkRateLimit (Js.from fwd) (Js.clock w')
                            (Js.rateLimits s')).1
                      then Failure 400 "This request has already been processed"
                             EmptyString
                      else Failure 429 "Too many requests. Please try again later."
                             EmptyString))).
Proof.
  split.
  - intros K config body w s out Hfail. subst out.
    destruct (go_relay_trace K config body w s)
      as [(Ht & _ & Hp)|(req & -> & _ & Hg & _ &
           [(Hs & _ & t & Ht & _)|(tx & rc & _ & _ & Hr & _)])]; simpl in *.
    + by rewrite Ht.
    + rewrite Hs. split; [done|]. intros _ w' Hdup.
      destruct Hg as (bytes & (Hnone & _) & _).
      apply go_duplicate_only_if_marked in Hdup as (req' & [= <-] & [x Hx]).
      simpl in *. congruence.
    + by rewrite Hr in Hfail.
  - intros keccak256 CONFIG req w s out Hfail. subst out.
    destruct (js_relay_trace keccak256 CONFIG req w s)
      as [(Ht & _ & Hp & Htm)|(fwd & Hg & _ &
           [(Hs & _ & Hcase)|(g & tx & _ & _ & Hs & Ht & Hr)])]; simpl in *.
    + rewrite Ht. split; [done|]. by intros [].
    + destruct Hg as [[(Hf & _) (_ & Hnew & _)] _].
      assert (Hnowait : ~ In EvWait (Js.relay keccak256 CONFIG req w s).1.2).
      { destruct Hcase as [Ht|[Ht|[Ht|[[Ht _]|(g' & He & Ht)]]]];
          rewrite Ht; simpl; naive_solver. }
      split; [|done]. intros _. rewrite Hs. split_and?; try done.
      intros _ w' Hdup.
      apply js_duplicate_only_if_marked in Hdup as (fwd' & Hf' & Hin).
      rewrite Hf in Hf'. injection Hf' as <-. done.
    + destruct Hg as [[Hwf _] _]. split.
      * intros Hnw. exfalso. apply Hnw. rewrite Ht. simpl. tauto.
      * intros _. rewrite Hr in Hfail. destruct (Js.wait w) as [r|m]; [done|].
        exists fwd, m. split_and?; [by destruct Hwf|done|done|].
        intros inputs w' Hbefore. apply js_replay; [done|].
        apply (js_kept_serveAll keccak256 CONFIG _
                 (fun due => (due, Js.requestId fwd)
                               ∈ Js.timers s
                                 ++ [(Js.markClock w + Js.CACHE_DURATION,
                                      Js.requestId fwd)]));
          [rewrite Hs; simpl; set_solver|by rewrite Hs|done].
Qed.

(** The sample request when the relayer cannot pay for the gas, and when
    the transaction is sent and reverts: sent again 200 seconds later, a
    timer callback having run in between, it is answered as a duplicate. *)
Lemma failed_execution_store_witness :
  let failing :=
    Js.mkWorld 1000000 (Ok false) (Ok (Some 30)) (Ok "0xdata") (Ok true)
      (Ok 100000) (Err "insufficient funds for gas") 1000500 3000
      (Ok (mkReceipt 5 21000 1)) in
  let out := Js.relay Sample.keccak256 Sample.CONFIG Sample.req failing Js.emptyStore in
  let reverting :=
    Js.mkWorld 1000000 (Ok false) (Ok (Some 30)) (Ok "0xdata") (Ok true)
      (Ok 100000) (Ok "0xtx") 1000500 3000 (Err "transaction execution reverted") in
  let marked := (Js.relay Sample.keccak256 Sample.CONFIG Sample.req reverting
                   Js.emptyStore).1.1 in
  let later := Js.mkWorld 1200500 (Ok false) (Ok (Some 30)) (Ok "0xdata") (Ok true)
                 (Ok 100000) (Ok "0xtx2") 1201000 3000 (Ok (mkReceipt 9 21000 1)) in
  (Js.processedRequests out.1.1 = Js.processedRequests Js.emptyStore
   /\ Js.timers out.1.1 = Js.timers Js.emptyStore
   /\ (out.1.2 <> [] ->
       forall w', (Js.relay Sample.keccak256 Sample.CONFIG Sample.req w' out.1.1).2
                  <> duplicateResponse))
  /\ (Js.relay Sample.keccak256 Sample.CONFIG Sample.req later
        (Js.serveAll Sample.keccak256 Sample.CONFIG marked [Js.Timers 1200000])).2
     = Failure 400 "This request has already been processed" EmptyString.
Proof.
  intros failing out reverting marked later. split.
  - apply (proj1 (proj2 failed_execution_store Sample.keccak256 Sample.CONFIG Sample.req
                    failing Js.emptyStore ltac:(by vm_compute))).
    vm_compute. intros H. repeat (destruct H as [H|H]; [done|]). done.
  - destruct (proj2 (proj2 failed_execution_store Sample.keccak256 Sample.CONFIG
                       Sample.req reverting Js.emptyStore ltac:(by vm_compute))
                ltac:(vm_compute; tauto))
      as (fwd & m & Hfwd & _ & _ & Hagain).
    injection Hfwd as <-. unfold marked.
    rewrite (Hagain [Js.Timers 1200000] later).
    + by vm_compute.
    + intros due Hin. apply list_elem_of_singleton in Hin. injection Hin as ->.
      repeat constructor.
Defined.

(** * Further properties *)

(** ** The rate limiter over many calls *)

Lemma filter_filter_le (window t now : Z) (l : list Z) :
  t <= now ->
  filter (fun x => now - x < window) (filter (fun x => t - x < window) l)
  = filter (fun x => now - x < window) l.
Proof.
  intros Hle. induction l as [|x l IH]; [done|].
  rewrite !filter_cons. destruct (decide (now - x < window)) as [Hn|Hn].
  - rewrite decide_True by lia. rewrite filter_cons, decide_True by done. by rewrite IH.
  - destruct (decide (t - x < window)); [rewrite filter_cons, decide_False by done|];
      by rewrite IH.
Qed.

Section Window.

Variable window : Z.
Variable limit : nat.
Variable check : string -> Z -> gmap string (list Z) -> bool * gmap string (list Z).

Hypothesis check_eq : forall address now limits,
  let recent := filter (fun t => now - t < window) (default [] (limits !! address)) in
  check address now limits =
    if bool_decide (limit <= length recent)%nat
    then (false, limits)
    else (true, <[address := recent ++ [now]]> limits).

Hypothesis window_pos : 0 < window.

Lemma check_withinLimit address now limits :
  withinLimit limit limits -> withinLimit limit (check address now limits).2.
Proof.
  intros Hb. rewrite check_eq. simpl. case_bool_decide as Hlen; [done|].
  intros a l. simpl. destruct (decide (a = address)) as [->|Hne].
  - rewrite lookup_insert_eq. intros [= <-]. rewrite length_app. simpl. lia.
  - rewrite lookup_insert_ne by done. apply Hb.
Qed.

Lemma checkEach_withinLimit address times limits :
  withinLimit limit limits ->
  withinLimit limit (checkEach check address times limits).2.
Proof.
  revert limits. induction times as [|t times IH]; intros limits Hb; [done|].
  simpl. destruct (check address t limits) as [ok l1] eqn:Hc.
  specialize (IH l1). destruct (checkEach check address times l1) as [oks l2].
  simpl in *. apply IH. pose proof (check_withinLimit address t limits Hb) as H.
  by rewrite Hc in H.
Qed.

(** What is on record within a window of [now] after the calls: what was
    there before, and the accepted calls. *)
Lemma checkEach_recent address times limits now :
  Forall (fun t => t <= now) times ->
  let out := checkEach check address times limits in
  filter (fun x => now - x < window) (default [] (out.2 !! address))
  = filter (fun x => now - x < window) (default [] (limits !! address))
    ++ filter (fun x => now - x < window) (acceptedTimes times out.1).
Proof.
  revert limits. induction times as [|t times IH]; intros limits Hall.
  { simpl. by rewrite app_nil_r. }
  apply Forall_cons in Hall as [Ht Hall]. simpl.
  rewrite check_eq. simpl. case_bool_decide as Hlen.
  - specialize (IH limits Hall). destruct (checkEach check address times limits).
    simpl in *. done.
  - set (l1 := <[address := _]> limits).
    specialize (IH l1 Hall). destruct (checkEach check address times l1) as [oks l2].
    simpl in *. rewrite IH. unfold l1. rewrite lookup_insert_eq. simpl.
    rewrite filter_app, filter_filter_le by done.
    rewrite <- (assoc_L (++)). f_equal.
    change (t :: acceptedTimes times oks) with ([t] ++ acceptedTimes times oks).
    by rewrite filter_app.
Qed.

Lemma window_bound address times limits now :
  withinLimit limit limits ->
  Forall (fun t => t <= now) times ->
  let out := checkEach check address times limits in
  let recent := filter (fun x => now - x < window) (acceptedTimes times out.1) in
  (length recent <= limit)%nat.
Proof.
  intros Hb Hall out recent. unfold recent.
  pose proof (checkEach_recent address times limits now Hall) as Hrec.
  pose proof (checkEach_withinLimit address times limits Hb) as Hb'.
  fold out in Hrec, Hb'. simpl in Hrec.
  apply (f_equal length) in Hrec. rewrite length_app in Hrec.
  pose proof (length_filter (fun x => now - x < window)
                (default [] (out.2 !! address))) as Hf.
  assert (length (default [] (out.2 !! address)) <= limit)%nat; [|lia].
  destruct (out.2 !! address) as [l|] eqn:Hl; simpl; [by eapply Hb'|lia].
Qed.

(** Two records that agree on what is recent at [T] give the same answers
    to all calls from [T] on. *)
Lemma checkEach_same_view address times l1 l2 T :
  filter (fun x => T - x < window) (default [] (l1 !! address))
  = filter (fun x => T - x < window) (default [] (l2 !! address)) ->
  Forall (fun t => T <= t) times ->
  (checkEach check address times l1).1 = (checkEach check address times l2).1.
Proof.
  revert l1 l2. induction times as [|t times IH]; intros l1 l2 Hview Hall; [done|].
  apply Forall_cons in Hall as [Ht Hall]. simpl. rewrite !check_eq. simpl.
  assert (Hrecent : filter (fun x => t - x < window) (default [] (l1 !! address))
                    = filter (fun x => t - x < window) (default [] (l2 !! address))).
  { rewrite <- (filter_filter_le window T t (default [] (l1 !! address))) by done.
    rewrite <- (filter_filter_le window T t (default [] (l2 !! address))) by done.
    by rewrite Hview. }
  rewrite Hrecent. case_bool_decide as Hlen.
  - specialize (IH l1 l2 Hview Hall).
    destruct (checkEach check address times l1), (checkEach check address times l2).
    simpl in *. by rewrite IH.
  - set (r := filter _ (default [] (l2 !! address)) ++ [t]).
    specialize (IH (<[address := r]> l1) (<[address := r]> l2)).
    rewrite !lookup_insert_eq in IH. specialize (IH eq_refl Hall).
    destruct (checkEach check address times _), (checkEach check address times _).
    simpl in *. by rewrite IH.
Qed.

End Window.

Lemma js_check_eq address now limits :
  let recent := filter (fun t => now - t < 60000) (default [] (limits !! address)) in
  Js.checkRateLimit address now limits =
    if bool_decide (5 <= length recent)%nat
    then (false, limits)
    else (true, <[address := recent ++ [now]]> limits).
Proof. done. Qed.

Lemma go_check_eq address now limits :
  let recent := filter (fun t => now - t < 60) (default [] (limits !! address)) in
  Go.checkRateLimit address now limits =
    if bool_decide (5 <= length recent)%nat
    then (false, limits)
    else (true, <[address := recent ++ [now]]> limits).
Proof. done. Qed.

(** The sweeps keep of each record what is less than a window old. *)
Lemma js_sweep_lookup now limits address :
  default [] (Js.sweepRateLimits now limits !! address)
  = filter (fun t => now - t < 60000) (default [] (limits !! address)).
Proof.
  unfold Js.sweepRateLimits. rewrite lookup_omap.
  destruct (limits !! address) as [l|]; simpl; [|done].
  change Js.RATE_LIMIT_WINDOW with 60000. by destruct (filter _ l).
Qed.

Lemma go_cutoff now t :
  Go.Unix (now - Go.rateLimitWindow) < t <-> Go.Unix now - t < 60.
Proof.
  unfold Go.Unix, Go.rateLimitWindow, Go.Minute, Go.Second.
  replace (now - 1 * (60 * 10 ^ 9)) with (now + (-60) * 10 ^ 9) by lia.
  rewrite Z.div_add by lia. lia.
Qed.

Lemma go_cleanup_lookup now s address :
  default [] (Go.requests (Go.cleanupRoutine now s) !! address)
  = filter (fun t => Go.Unix now - t < 60) (default [] (Go.requests s !! address)).
Proof.
  unfold Go.cleanupRoutine. simpl. rewrite lookup_omap.
  destruct (Go.requests s !! address) as [l|]; simpl; [|done].
  assert (Heq : filter (fun t => Go.Unix (now - Go.rateLimitWindow) < t) l
                = filter (fun t => Go.Unix now - t < 60) l).
  { apply list_filter_iff. intros t. apply go_cutoff. }
  rewrite Heq. clear Heq. by destruct (filter _ l).
Qed.

(** ** What a request leaves in the limiter's record *)

Lemma js_wellFormed_dec req :
  (exists fwd, Js.wellFormed req fwd) \/ (forall fwd, ~ Js.wellFormed req fwd).
Proof.
  unfold Js.wellFormed. destruct (Js.forward req) as [fwd|]; [|right; naive_solver].
  destruct (decide (Js.signature req = EmptyString)); [right; naive_solver|].
  destruct (decide (Js.callData req = EmptyString)); [right; naive_solver|].
  destruct (decide (-8640000000000000 <= Js.deadline fwd * 1000 <= 8640000000000000));
    [left; by exists fwd|right]. intros fwd' (? & _ & _ & ?). by simplify_eq.
Qed.

Section JsRecord.
Variable keccak256 : string -> Result string.
Variable CONFIG : Js.Config.

Lemma js_admission_store req now s :
  (forall fwd, Js.wellFormed req fwd ->
     (Js.admission keccak256 CONFIG req now s).1.1 = Js.limited fwd now s)
  /\ ((forall fwd, ~ Js.wellFormed req fwd) ->
      (Js.admission keccak256 CONFIG req now s).1.1 = s).
Proof.
  unfold Js.wellFormed, Js.limited. split.
  - intros fwd (Hf & Hs & Hc & Hd). js_run. rewrite Hf.
    apply str_eqb_neq in Hs, Hc. rewrite Hs, Hc. simpl.
    rewrite bool_decide_true by done.
    destruct (Js.checkRateLimit _ _ _) as [ok g]. simpl. crunch; done.
  - intros Hnot. js_run. destruct (Js.forward req) as [fwd|] eqn:Hf; [|done].
    destruct (str_eqb (Js.signature req) EmptyString) eqn:Hs; [done|].
    destruct (str_eqb (Js.callData req) EmptyString) eqn:Hc; [done|]. simpl.
    case_bool_decide as Hd; [|done]. exfalso. apply (Hnot fwd).
    apply str_eqb_neq in Hs, Hc. done.
Qed.

Lemma js_relay_rateLimits req w s :
  Js.rateLimits (Js.relay keccak256 CONFIG req w s).1.1
  = Js.rateLimits (Js.admission keccak256 CONFIG req (Js.clock w) s).1.1.
Proof.
  rewrite js_relay_unfold.
  destruct (Js.admission keccak256 CONFIG req (Js.clock w) s) as [[s1 t1] [fwd|r|m]];
    simpl; [|done..].
  destruct (js_submitAndMark_cases fwd w s1)
    as [H|[H|[_ [H|[H|[_ [H|[H|[H|H]]]]]]]]];
    repeat match type of H with
           | ex _ => destruct H as [? H]
           | _ /\ _ => destruct H as [_ H]
           end; cbv zeta in H; by rewrite H.
Qed.

Lemma js_relay_record req w s :
  (forall fwd, Js.wellFormed req fwd ->
     Js.rateLimits (Js.relay keccak256 CONFIG req w s).1.1
     = (Js.checkRateLimit (Js.from fwd) (Js.clock w) (Js.rateLimits s)).2)
  /\ ((forall fwd, ~ Js.wellFormed req fwd) ->
      Js.rateLimits (Js.relay keccak256 CONFIG req w s).1.1 = Js.rateLimits s).
Proof.
  destruct (js_admission_store req (Js.clock w) s) as [Hwf Hnot].
  split.
  - intros fwd H. by rewrite js_relay_rateLimits, (Hwf fwd H).
  - intros H. by rewrite js_relay_rateLimits, (Hnot H).
Qed.

Lemma js_serve_withinLimit s i :
  withinLimit 5 (Js.rateLimits s) ->
  withinLimit 5 (Js.rateLimits (Js.serve keccak256 CONFIG s i)).
Proof.
  intros Hb. destruct i as [req w|now|now]; simpl.
  - destruct (js_relay_record req w s) as [Hwf Hnot].
    destruct (js_wellFormed_dec req) as [[fwd H]|H].
    + rewrite (Hwf fwd H). by apply (check_withinLimit 60000 5 _ js_check_eq).
    + by rewrite (Hnot H).
  - done.
  - intros a l. unfold Js.sweepRateLimits. rewrite lookup_omap.
    destruct (Js.rateLimits s !! a) as [l0|] eqn:Hl; simpl; [|done].
    destruct (filter _ l0) as [|x l1] eqn:Hf; [done|]. intros [= <-].
    rewrite <- Hf. etrans; [apply length_filter|]. by eapply Hb.
Qed.

Lemma js_serveAll_withinLimit s inputs :
  withinLimit 5 (Js.rateLimits s) ->
  withinLimit 5 (Js.rateLimits (Js.serveAll keccak256 CONFIG s inputs)).
Proof.
  revert s. induction inputs as [|i inputs IH]; intros s Hb; [done|].
  simpl. apply IH. by apply js_serve_withinLimit.
Qed.
End JsRecord.

Section GoRecord.
Variable Keccak256Hash : list byte -> list byte.
Variable config : Go.Config.

Lemma go_relay_requests body w s :
  Go.requests (Go.relayHandler Keccak256Hash config body w s).1.1
  = Go.requests (Go.arrival body w s).1.1.
Proof.
  rewrite go_relay_unfold.
  destruct (Go.arrival body w s) as [[s1 t1] [req|r|m]]; simpl; [|done..].
  destruct (Go.gates Keccak256Hash config req w s1) as [[s2 t2] [[]|r|m]]; [|done..].
  destruct (Go.execution config req w s1) as [[s3 t3] [c|r|m]]; done.
Qed.

Lemma go_relay_record body w s :
  (forall req, body = Ok req ->
     Go.Signature req <> EmptyString -> Go.CallData req <> EmptyString ->
     Go.requests (Go.relayHandler Keccak256Hash config body w s).1.1
     = (Go.checkRateLimit (Go.From (Go.Forward_ req)) (Go.rateClock w)
          (Go.requests s)).2)
  /\ ((forall req, body = Ok req ->
         Go.Signature req = EmptyString \/ Go.CallData req = EmptyString) ->
      Go.requests (Go.relayHandler Keccak256Hash config body w s).1.1 = Go.requests s).
Proof.
  rewrite go_relay_requests, go_arrival_cases. split.
  - intros req -> Hs Hc. apply str_eqb_neq in Hs, Hc. by rewrite Hs, Hc.
  - intros H. destruct body as [req|m]; [|done].
    destruct (H req eq_refl) as [He|He]; rewrite He; simpl; [done|].
    by rewrite orb_true_r.
Qed.

Lemma go_serve_withinLimit s i :
  withinLimit 5 (Go.requests s) ->
  withinLimit 5 (Go.requests (Go.serve Keccak256Hash config s i)).
Proof.
  intros Hb. destruct i as [body w|now]; simpl.
  - rewrite go_relay_requests, go_arrival_cases.
    destruct body as [req|m]; [|done]. destruct (_ || _); [done|]. simpl.
    by apply (check_withinLimit 60 5 _ go_check_eq).
  - intros a l. unfold Go.cleanupRoutine. simpl. rewrite lookup_omap.
    destruct (Go.requests s !! a) as [l0|] eqn:Hl; simpl; [|done].
    destruct (filter _ l0) as [|x l1] eqn:Hf; [done|]. intros [= <-].
    rewrite <- Hf. etrans; [apply length_filter|]. by eapply Hb.
Qed.

Lemma go_serveAll_withinLimit s inputs :
  withinLimit 5 (Go.requests s) ->
  withinLimit 5 (Go.requests (Go.serveAll Keccak256Hash config s inputs)).
Proof.
  revert s. induction inputs as [|i inputs IH]; intros s Hb; [done|].
  simpl. apply IH. by apply go_serve_withinLimit.
Qed.
End GoRecord.

Section Senders.

Variable window : Z.
Variable limit : nat.
Variable check : string -> Z -> gmap string (list Z) -> bool * gmap string (list Z).

Hypothesis check_eq : forall address now limits,
  let recent := filter (fun t => now - t < window) (default [] (limits !! address)) in
  check address now limits =
    if bool_decide (limit <= length recent)%nat
    then (false, limits)
    else (true, <[address := recent ++ [now]]> limits).

(** The answers to a sender's calls depend on that sender's record only. *)
Lemma checkEach_same_record address times l1 l2 :
  l1 !! address = l2 !! address ->
  (checkEach check address times l1).1 = (checkEach check address times l2).1.
Proof.
  revert l1 l2. induction times as [|t times IH]; intros l1 l2 Heq; [done|].
  simpl. rewrite !check_eq. simpl. rewrite Heq. case_bool_decide as Hlen.
  - specialize (IH l1 l2 Heq).
    destruct (checkEach check address times l1), (checkEach check address times l2).
    simpl in *. by rewrite IH.
  - set (r := filter _ (default [] (l2 !! address)) ++ [t]).
    specialize (IH (<[address := r]> l1) (<[address := r]> l2)).
    rewrite !lookup_insert_eq in IH. specialize (IH eq_refl).
    destruct (checkEach check address times _), (checkEach check address times _).
    simpl in *. by rewrite IH.
Qed.

Lemma check_other address other now limits :
  address <> other -> (check other now limits).2 !! address = limits !! address.
Proof.
  intros Hne. rewrite check_eq. simpl. case_bool_decide; simpl; [done|].
  by rewrite lookup_insert_ne.
Qed.

End Senders.

(** ** The rate limiter beyond one call *)

(** X1: Of the calls a sender has made up to [now], in any order of their
    clock readings, at most five accepted ones lie within the window that
    ends at [now]: 60 seconds, counted in milliseconds by relayer-server.js
    and in seconds by main.go. The record the calls start from is any one
    with at most five times per sender, as every record the servers build
    is. *)
Theorem rate_limit_window_bound :
  (forall address times limits now,
     withinLimit 5 limits ->
     Forall (fun t => t <= now) times ->
     let oks := (checkEach Js.checkRateLimit address times limits).1 in
     let recent := filter (fun t => now - t < 60000) (acceptedTimes times oks) in
     (length recent <= 5)%nat)
  /\ (forall address times limits now,
        withinLimit 5 limits ->
        Forall (fun t => t <= now) times ->
        let oks := (checkEach Go.checkRateLimit address times limits).1 in
        let recent := filter (fun t => now - t < 60) (acceptedTimes times oks) in
        (length recent <= 5)%nat).
Proof.
  split; intros address times limits now Hb Hall.
  - by apply (window_bound 60000 5 _ js_check_eq).
  - by apply (window_bound 60 5 _ go_check_eq).
Qed.

(** Seven calls in seven seconds. *)
Lemma rate_limit_window_bound_witness :
  let times := [0; 1000; 2000; 3000; 4000; 5000; 6000] in
  let oks := (checkEach Js.checkRateLimit "0xUser" times ∅).1 in
  let recent := filter (fun t => 6000 - t < 60000) (acceptedTimes times oks) in
  (length recent <= 5)%nat.
Proof.
  intros times.
  apply (proj1 rate_limit_window_bound "0xUser" times ∅ 6000).
  - intros a l. by rewrite lookup_empty.
  - repeat (constructor; [lia|]). constructor.
Defined.

(** X2: However many requests, timer callbacks, sweeps and cleanup ticks a
    server has served since it started, it has at most five times on record
    for any sender. *)
Theorem rate_limit_record_bounded :
  (forall keccak256 CONFIG inputs,
     withinLimit 5 (Js.rateLimits (Js.serveAll keccak256 CONFIG Js.emptyStore inputs)))
  /\ (forall Keccak256Hash config inputs,
        withinLimit 5
          (Go.requests (Go.serveAll Keccak256Hash config Go.emptyStore inputs))).
Proof.
  split; intros.
  - apply js_serveAll_withinLimit. intros a l. simpl. by rewrite lookup_empty.
  - apply go_serveAll_withinLimit. intros a l. simpl. by rewrite lookup_empty.
Qed.

(** X3: The periodic sweep of relayer-server.js and the rate-limit part of
    [cleanupRoutine] in main.go do not change what the limiter answers
    afterwards: a sender's later calls get the same answers as if the sweep
    had not run. *)
Theorem sweep_keeps_answers :
  (forall address now limits times,
     Forall (fun t => now <= t) times ->
     (checkEach Js.checkRateLimit address times (Js.sweepRateLimits now limits)).1
     = (checkEach Js.checkRateLimit address times limits).1)
  /\ (forall address now s times,
        Forall (fun t => Go.Unix now <= t) times ->
        (checkEach Go.checkRateLimit address times
           (Go.requests (Go.cleanupRoutine now s))).1
        = (checkEach Go.checkRateLimit address times (Go.requests s)).1).
Proof.
  split.
  - intros address now limits times Hall.
    apply (checkEach_same_view 60000 5 _ js_check_eq) with now; [|done].
    rewrite js_sweep_lookup. by apply filter_filter_le.
  - intros address now s times Hall.
    apply (checkEach_same_view 60 5 _ go_check_eq) with (Go.Unix now); [|done].
    rewrite go_cleanup_lookup. by apply filter_filter_le.
Qed.

(** Five calls, a sweep 30 seconds later, and two more calls. *)
Lemma sweep_keeps_answers_witness :
  let limits := (checkEach Js.checkRateLimit "0xUser" [0; 1; 2; 3; 4] ∅).2 in
  (checkEach Js.checkRateLimit "0xUser" [40000; 61000]
     (Js.sweepRateLimits 30000 limits)).1
  = (checkEach Js.checkRateLimit "0xUser" [40000; 61000] limits).1.
Proof.
  intros limits.
  apply (proj1 sweep_keeps_answers "0xUser" 30000 limits [40000; 61000]).
  repeat (constructor; [lia|]). constructor.
Defined.

(** X4: A request that has its fields is put on the sender's record by the
    limiter whatever becomes of it afterwards: rejected as a duplicate, for
    its target, caller, hash or deadline, or failed in the execution, it
    has used one of the sender's five places. A request without its fields
    (and for main.go a body that does not decode, for relayer-server.js a
    deadline that [Date] cannot print) leaves the record as it is. So does,
    in main.go, a body that has its signature and call data but no
    [forward.deadline]: the handler panics on the nil deadline before it
    asks the limiter, changes nothing and sends no response. *)
Theorem every_request_counts :
  (forall keccak256 CONFIG req w s,
     (forall fwd, Js.wellFormed req fwd ->
        Js.rateLimits (Js.relay keccak256 CONFIG req w s).1.1
        = (Js.checkRateLimit (Js.from fwd) (Js.clock w) (Js.rateLimits s)).2)
     /\ ((forall fwd, ~ Js.wellFormed req fwd) ->
         Js.rateLimits (Js.relay keccak256 CONFIG req w s).1.1 = Js.rateLimits s))
  /\ (forall Keccak256Hash config body w s,
        let out := Go.serveBody Keccak256Hash config body w s in
        (forall req, body = Go.Decoded req ->
           Go.Signature req <> EmptyString -> Go.CallData req <> EmptyString ->
           Go.requests out.1.1
           = (Go.checkRateLimit (Go.From (Go.Forward_ req)) (Go.rateClock w)
                (Go.requests s)).2)
        /\ (forall req, body = Go.Decoded req ->
              Go.Signature req = EmptyString \/ Go.CallData req = EmptyString ->
              Go.requests out.1.1 = Go.requests s)
        /\ (forall msg, body = Go.Undecodable msg ->
              Go.requests out.1.1 = Go.requests s)
        /\ (forall signature callData, body = Go.WithoutDeadline signature callData ->
              out.1.1 = s /\ out.1.2 = []
              /\ (signature <> EmptyString -> callData <> EmptyString ->
                  out.2 = None))).
Proof.
  split.
  - intros. apply js_relay_record.
  - intros K config body w s out. subst out. split_and?.
    + intros req -> Hs Hc. simpl.
      by apply (proj1 (go_relay_record K config (Ok req) w s) req).
    + intros req -> He. simpl.
      apply (proj2 (go_relay_record K config (Ok req) w s)).
      by intros req' [= <-].
    + intros msg ->. simpl.
      by apply (proj2 (go_relay_record K config (Err msg) w s)).
    + intros sg cd ->. simpl.
      destruct (str_eqb sg EmptyString || str_eqb cd EmptyString) eqn:He;
        split_and?; try done.
      * intros Hs Hc. apply str_eqb_neq in Hs, Hc. by rewrite Hs, Hc in He.
Qed.

(** The request of the repository's rate-limit test: empty call data and
    the zero address as caller. It is answered 400 and is on the record.
    And a body for main.go that has no deadline: no reply, no record. *)
Lemma every_request_counts_witness :
  let fwd := Js.mkForward "0xUser" "0xNFT" "0" "1500" "42" 4600 EmptyString
               "0x0000000000000000000000000000000000000000" in
  let req := Js.mkRequest (Some fwd) "0x" "0x" in
  let out := Js.relay Sample.keccak256 Sample.CONFIG req Sample.world Js.emptyStore in
  let goOut := Go.serveBody Sample.Keccak256Hash Sample.config
                 (Go.WithoutDeadline "0x5e1f" "0x1234") Sample.goWorld Go.emptyStore in
  (out.2 = Failure 400 "Invalid caller address" EmptyString
   /\ Js.rateLimits out.1.1 = {["0xUser" := [1000000]]})
  /\ goOut.1.1 = Go.emptyStore /\ goOut.1.2 = [] /\ goOut.2 = None.
Proof.
  intros fwd req out goOut. split.
  - split; [by vm_compute|].
    unfold out.
    rewrite (proj1 (proj1 every_request_counts Sample.keccak256 Sample.CONFIG req
                      Sample.world Js.emptyStore) fwd).
    + by vm_compute.
    + unfold Js.wellFormed. split_and?; try done; simpl; lia.
  - destruct (proj2 (proj2 (proj2 (proj2 every_request_counts Sample.Keccak256Hash
                                     Sample.config (Go.WithoutDeadline "0x5e1f" "0x1234")
                                     Sample.goWorld Go.emptyStore)))
                "0x5e1f" "0x1234" eq_refl) as (Hs & Ht & Hr).
    split_and?; [done|done|]. by apply Hr.
Defined.

(** X5: The limiter keeps its record by the sender string as it stands in the
    request: a call for one string leaves the answers to every other string
    as they were, also to one that differs from it by letter case only. *)
Theorem limiter_is_per_sender_string :
  (forall address other now times limits,
     address <> other ->
     (checkEach Js.checkRateLimit address times
        (Js.checkRateLimit other now limits).2).1
     = (checkEach Js.checkRateLimit address times limits).1)
  /\ (forall address other now times limits,
        address <> other ->
        (checkEach Go.checkRateLimit address times
           (Go.checkRateLimit other now limits).2).1
        = (checkEach Go.checkRateLimit address times limits).1).
Proof.
  split; intros address other now times limits Hne.
  - apply (checkEach_same_record 60000 5 _ js_check_eq).
    by apply (check_other 60000 5 _ js_check_eq).
  - apply (checkEach_same_record 60 5 _ go_check_eq).
    by apply (check_other 60 5 _ go_check_eq).
Qed.

(** The same address in capitals and in small letters. *)
Lemma limiter_is_per_sender_string_witness :
  let full := (checkEach Js.checkRateLimit "0xABCD" [0; 1; 2; 3; 4] ∅).2 in
  (checkEach Js.checkRateLimit "0xabcd" [6] (Js.checkRateLimit "0xABCD" 5 full).2).1
  = (checkEach Js.checkRateLimit "0xabcd" [6] full).1.
Proof.
  intros full.
  by apply (proj1 limiter_is_per_sender_string "0xabcd" "0xABCD" 5 [6] full).
Defined.

(** X6: After the sweep of relayer-server.js, and after the rate-limit part of
    a tick of [cleanupRoutine] in main.go, the record holds only senders
    with a request in the last 60 seconds, and of each only those requests:
    what the limiter remembers does not grow with the senders it has ever
    seen. *)
Theorem sweep_leaves_recent_only :
  (forall now limits address l,
     Js.sweepRateLimits now limits !! address = Some l ->
     l <> [] /\ Forall (fun t => now - t < 60000) l)
  /\ (forall now s address l,
        Go.requests (Go.cleanupRoutine now s) !! address = Some l ->
        l <> [] /\ Forall (fun t => Go.Unix now - t < 60) l).
Proof.
  split.
  - intros now limits address l. unfold Js.sweepRateLimits. rewrite lookup_omap.
    destruct (limits !! address) as [l0|]; simpl; [|done].
    destruct (filter _ l0) as [|x l1] eqn:Hf; [done|]. intros [= <-].
    split; [done|]. rewrite <- Hf. apply Forall_forall. intros t Ht.
    by apply list_elem_of_filter in Ht as [Ht _].
  - intros now s address l. unfold Go.cleanupRoutine. simpl. rewrite lookup_omap.
    destruct (Go.requests s !! address) as [l0|]; simpl; [|done].
    destruct (filter _ l0) as [|x l1] eqn:Hf; [done|]. intros [= <-].
    split; [done|]. rewrite <- Hf. apply Forall_forall. intros t Ht.
    apply list_elem_of_filter in Ht as [Ht _]. by apply go_cutoff.
Qed.

Lemma sweep_leaves_recent_only_witness :
  let limits : gmap string (list Z) := {[ "0xUser" := [0; 50000] ]} in
  [50000] <> [] /\ Forall (fun t => 100000 - t < 60000) [50000].
Proof.
  intros limits.
  apply (proj1 sweep_leaves_recent_only 100000 limits "0xUser" [50000]).
  by vm_compute.
Defined.

(** ** The set of processed requests and its timers *)

Lemma timersCover_fire now s :
  Js.timersCover s -> Js.timersCover (Js.fireTimers now s).
Proof.
  intros Hc k Hk. unfold Js.fireTimers in *. simpl in *.
  apply elem_of_difference in Hk as [Hin Hnot].
  destruct (Hc k Hin) as [due Hdue]. exists due.
  apply list_elem_of_filter. split; [|done]. simpl. intros Hle. apply Hnot.
  rewrite elem_of_list_to_set. apply list_elem_of_fmap. exists (due, k).
  split; [done|]. by apply list_elem_of_filter.
Qed.

Lemma fire_expires k due now s :
  Js.held k due s -> due <= now -> k ∉ Js.processedRequests (Js.fireTimers now s).
Proof.
  intros (_ & _ & Ht) Hle. unfold Js.fireTimers. simpl.
  intros Hin. apply elem_of_difference in Hin as [_ Hnot]. apply Hnot.
  rewrite elem_of_list_to_set. apply list_elem_of_fmap. exists (due, k).
  split; [done|]. by apply list_elem_of_filter.
Qed.

Section JsTimers.
Variable keccak256 : string -> Result string.
Variable CONFIG : Js.Config.

Lemma timersCover_serve s i :
  Js.timersCover s -> Js.timersCover (Js.serve keccak256 CONFIG s i).
Proof.
  intros Hc. destruct i as [req w|now|now]; simpl.
  - destruct (js_relay_store keccak256 CONFIG req w s)
      as [(Hp & Ht & _)|(fwd & _ & _ & _ & Hp & Ht)]; simpl in *;
      intros k Hk; rewrite Hp in Hk; rewrite Ht.
    + by apply Hc.
    + apply elem_of_union in Hk as [Hk|Hk].
      * apply elem_of_singleton in Hk as ->. eexists. apply elem_of_app. right.
        by apply list_elem_of_singleton.
      * destruct (Hc k Hk) as [due Hdue]. exists due. apply elem_of_app. by left.
  - by apply timersCover_fire.
  - done.
Qed.

Lemma timersCover_serveAll s inputs :
  Js.timersCover s -> Js.timersCover (Js.serveAll keccak256 CONFIG s inputs).
Proof.
  revert s. induction inputs as [|i inputs IH]; intros s Hs; [done|].
  simpl. apply IH. by apply timersCover_serve.
Qed.
End JsTimers.

(** ** Marks and their expiry *)

(** X7: In relayer-server.js serving its requests, timer callbacks and sweeps
    one after the other from the start, the processed-requests set is
    exactly the set of keys with a pending deletion timer, and no key has
    two timers: no key stays for ever, and no timer deletes a key that was
    marked after the timer was set. *)
Theorem marks_match_timers :
  forall keccak256 CONFIG inputs,
    let s := Js.serveAll keccak256 CONFIG Js.emptyStore inputs in
    NoDup (Js.timers s).*2
    /\ forall k, k ∈ Js.processedRequests s <-> exists due, (due, k) ∈ Js.timers s.
Proof.
  intros keccak256 CONFIG inputs s.
  destruct (timersSound_serveAll keccak256 CONFIG Js.emptyStore inputs
              timersSound_empty) as [Hnd Hin].
  split; [done|]. intros k. split.
  - apply (timersCover_serveAll keccak256 CONFIG Js.emptyStore inputs).
    intros k' Hk'. by apply elem_of_empty in Hk'.
  - intros [due Hdue]. by apply (Hin (due, k)).
Qed.

(** X8: Once the retention is over the key is gone, and a request with that key
    is no longer answered as a duplicate: in relayer-server.js after the
    first timer callback that runs at or after the time the key's timer is
    due, in main.go after the first tick of [cleanupRoutine] that comes more
    than [cacheDuration] after the mark. *)
Theorem mark_expires :
  (forall keccak256 CONFIG k due now s req fwd w,
     Js.held k due s -> due <= now ->
     Js.forward req = Some fwd -> Js.requestId fwd = k ->
     k ∉ Js.processedRequests (Js.fireTimers now s)
     /\ (Js.relay keccak256 CONFIG req w (Js.fireTimers now s)).2
        <> Failure 400 "This request has already been processed" EmptyString)
  /\ (forall Keccak256Hash config k tm now s req w,
        Go.processedRequests s !! k = Some tm ->
        Go.cacheDuration < now - tm ->
        Go.requestID (Go.Forward_ req) = k ->
        Go.processedRequests (Go.cleanupRoutine now s) !! k = None
        /\ (Go.relayHandler Keccak256Hash config (Ok req) w
              (Go.cleanupRoutine now s)).2
           <> Failure 400 "This request has already been processed" EmptyString).
Proof.
  split.
  - intros keccak256 CONFIG k due now s req fwd w Hheld Hle Hfwd Hk.
    pose proof (fire_expires k due now s Hheld Hle) as Hgone.
    split; [done|]. intros Hdup.
    apply js_duplicate_only_if_marked in Hdup as (fwd' & Hf' & Hin).
    rewrite Hfwd in Hf'. injection Hf' as <-. by rewrite Hk in Hin.
  - intros K config k tm now s req w Hk Hold Hid.
    assert (Hgone : Go.processedRequests (Go.cleanupRoutine now s) !! k = None).
    { unfold Go.cleanupRoutine. simpl. apply map_lookup_filter_None. right.
      intros tm' Hk'. rewrite Hk in Hk'. injection Hk' as <-. simpl. lia. }
    split; [done|]. intros Hdup.
    apply go_duplicate_only_if_marked in Hdup as (req' & [= <-] & [x Hx]).
    rewrite Hid in Hx. by rewrite Hgone in Hx.
Qed.

(** The sample request, marked at 1000500 ms, after the timers have run at
    1300500 ms. *)
Lemma mark_expires_witness :
  let s := (Js.relay Sample.keccak256 Sample.CONFIG Sample.req Sample.world
              Js.emptyStore).1.1 in
  Js.requestId Sample.fwd ∉ Js.processedRequests (Js.fireTimers 1300500 s)
  /\ (Js.relay Sample.keccak256 Sample.CONFIG Sample.req Sample.world
        (Js.fireTimers 1300500 s)).2
     <> Failure 400 "This request has already been processed" EmptyString.
Proof.
  intros s.
  apply (proj1 mark_expires Sample.keccak256 Sample.CONFIG (Js.requestId Sample.fwd)
           1300500 1300500 s Sample.req Sample.fwd Sample.world); try done.
  unfold Js.held. split_and?.
  - apply timersSound_relay, timersSound_empty.
  - by vm_compute.
  - vm_compute. apply list_elem_of_here.
Defined.

(** ** Keys of the processed-requests store *)

Lemma includes_dash_cons c s :
  includes (String c s) "-" = false -> c <> "-"%char /\ includes s "-" = false.
Proof.
  simpl. intros [Hp Hi]%orb_false_iff. split; [|done].
  intros ->. simpl in Hp. by destruct s.
Qed.

Lemma split_at_dash a1 b1 a2 b2 :
  includes a1 "-" = false -> includes a2 "-" = false ->
  a1 +:+ "-" +:+ b1 = a2 +:+ "-" +:+ b2 ->
  a1 = a2 /\ b1 = b2.
Proof.
  revert a2. induction a1 as [|c a1 IH]; intros a2 H1 H2 Heq.
  - destruct a2 as [|d a2]; [by simplify_eq/=|].
    apply includes_dash_cons in H2 as [Hd _]. by simplify_eq/=.
  - apply includes_dash_cons in H1 as [Hc H1].
    destruct a2 as [|d a2]; [by simplify_eq/=|].
    apply includes_dash_cons in H2 as [Hd H2].
    injection Heq as -> Heq. destruct (IH a2 H1 H2 Heq) as [-> ->]. done.
Qed.

(** ** Keys do not collide *)

(** X9: Two requests whose senders contain no "-" (as no address does) have
    the same duplicate-detection key only if they have the same sender and
    the same nonce: no request is taken for the duplicate of another
    sender's, or of the same sender's with another nonce. *)
Theorem request_key_injective :
  (forall f1 f2,
     includes (Js.from f1) "-" = false -> includes (Js.from f2) "-" = false ->
     Js.requestId f1 = Js.requestId f2 ->
     Js.from f1 = Js.from f2 /\ Js.nonce f1 = Js.nonce f2)
  /\ (forall f1 f2,
        includes (Go.From f1) "-" = false -> includes (Go.From f2) "-" = false ->
        Go.requestID f1 = Go.requestID f2 ->
        Go.From f1 = Go.From f2 /\ Go.Nonce f1 = Go.Nonce f2).
Proof.
  split; intros f1 f2 H1 H2 Heq.
  - by apply split_at_dash.
  - destruct (split_at_dash _ _ _ _ H1 H2 Heq) as [Hf Hn]. split; [done|].
    by apply (inj pretty).
Qed.

(** Two requests of one sender with one nonce, for different targets. *)
Lemma request_key_injective_witness :
  let other := Js.mkForward "0xUser" "0xOther" "1" "5" "7" 9999 EmptyString "0xrelayer" in
  Js.from Sample.fwd = Js.from other /\ Js.nonce Sample.fwd = Js.nonce other.
Proof.
  intros other.
  apply (proj1 request_key_injective Sample.fwd other); reflexivity.
Defined.

(** ** What has happened when a transaction is submitted *)

Lemma js_submitAndMark_submitted fwd w s :
  submitted (Js.submitAndMark fwd w s).1.2 = true ->
  Js.minted w = Ok false /\ Js.feeOk w
  /\ (exists d, Js.execData w = Ok d /\ d <> EmptyString /\ d <> "0x")
  /\ Js.callerAllowed w = Ok true
  /\ exists g, Js.estimateGas w = Ok g
       /\ submissions (Js.submitAndMark fwd w s).1.2 = [g].
Proof.
  unfold Js.feeOk. js_run. simpl.
  destruct (Js.minted w) as [[|]|]; simpl; [done| |done].
  destruct (Js.gasPrice w) as [[p|]|]; simpl; [| |done].
  - destruct (Js.MAX_GAS_PRICE <? p) eqn:Hp; simpl; [done|]. bools.
    destruct (Js.execData w) as [d|]; simpl; [|done].
    destruct (str_eqb d EmptyString || str_eqb d "0x") eqn:Hd; simpl; [done|].
    destruct (Js.callerAllowed w) as [[|]|]; simpl; [|done..].
    destruct (Js.estimateGas w) as [g|]; simpl; [|done].
    intros _. bools. split_and?; try done; [right; by exists p|by exists d|].
    exists g. split; [done|]. by destruct (Js.sendTransaction w).
  - destruct (Js.execData w) as [d|]; simpl; [|done].
    destruct (str_eqb d EmptyString || str_eqb d "0x") eqn:Hd; simpl; [done|].
    destruct (Js.callerAllowed w) as [[|]|]; simpl; [|done..].
    destruct (Js.estimateGas w) as [g|]; simpl; [|done].
    intros _. bools. split_and?; try done; [by left|by exists d|].
    exists g. split; [done|]. by destruct (Js.sendTransaction w).
Qed.

Lemma includes_app_l (a b k : string) :
  includes a k = true -> includes (a +:+ b) k = true.
Proof.
  assert (Hp : forall k a, String.prefix k a = true -> String.prefix k (a +:+ b) = true).
  { clear. induction k as [|c k IH]; intros a; [intros _; by destruct (a +:+ b)|].
    destruct a as [|d a]; simpl; [done|].
    destruct (ascii_dec c d); [apply IH|done]. }
  induction a as [|c a IH]; simpl.
  - rewrite orb_false_r. intros H. destruct k; [by destruct b|done].
  - intros [H|H]%orb_true_iff; apply orb_true_iff.
    + left. by apply (Hp k (String c a)).
    + right. by apply IH.
Qed.

Lemma go_execute_stages req w s :
  let run := Go.executeMetaTransaction req w s in
  match Go.DecodeString (Go.TrimPrefix (Go.Signature req) "0x") with
  | Err e => run = (s, [EvExecutor], Throw ("invalid signature format: " +:+ e))
  | Ok _ =>
  match Go.DecodeString (Go.TrimPrefix (Go.CallData req) "0x") with
  | Err e => run = (s, [EvExecutor], Throw ("invalid callData format: " +:+ e))
  | Ok _ =>
  match Go.packed w with
  | Err e => run = (s, [EvExecutor], Throw ("failed to pack execute: " +:+ e))
  | Ok _ =>
  match Go.pendingNonce w with
  | Err e => run = (s, [EvExecutor], Throw ("failed to get nonce: " +:+ e))
  | Ok _ =>
  match Go.suggestGasPrice w with
  | Err e => run = (s, [EvExecutor], Throw ("failed to get gas price: " +:+ e))
  | Ok _ =>
  match Go.signTx w with
  | Err e => run = (s, [EvExecutor; EvEstimateGas],
                    Throw ("failed to sign transaction: " +:+ e))
  | Ok tx =>
      submissions run.1.2 = [Go.bufferedGas w]
  end end end end end end.
Proof.
  go_run. simpl.
  destruct (Go.DecodeString (Go.TrimPrefix (Go.Signature req) "0x")); simpl; [|done].
  destruct (Go.DecodeString (Go.TrimPrefix (Go.CallData req) "0x")); simpl; [|done].
  destruct (Go.packed w); simpl; [|done].
  destruct (Go.pendingNonce w); simpl; [|done].
  destruct (Go.suggestGasPrice w); simpl; [|done].
  destruct (Go.signTx w) as [tx|]; simpl; [|done].
  destruct (Go.sendTransaction w) as [[]|]; simpl; [|done].
  destruct (Go.waitForReceipt _ _) as [[[? ?] [r|m]]|]; simpl; try done.
  by destruct (status r =? 0).
Qed.

Lemma DecodeString_errors src e :
  Go.DecodeString src = Err e ->
  e = Go.ErrLength
  \/ exists c, In c (list_ascii_of_string src) /\ Go.fromHexChar c = None
       /\ e = Go.InvalidByteError c.
Proof.
  revert e.
  assert (H : forall n src, (String.length src <= n)%nat -> forall e,
    Go.DecodeString src = Err e ->
    e = Go.ErrLength
    \/ exists c, In c (list_ascii_of_string src) /\ Go.fromHexChar c = None
         /\ e = Go.InvalidByteError c).
  { clear. induction n as [|n IH]; intros src Hn e.
    - destruct src; [done|simpl in Hn; lia].
    - destruct src as [|a [|b rest]]; simpl; [done| |].
      + destruct (Go.fromHexChar a) eqn:Ha; intros [= <-]; [by left|].
        right. exists a. split_and?; [by left|done..].
      + destruct (Go.fromHexChar a) eqn:Ha.
        2:{ intros [= <-]. right. exists a. split_and?; [by left|done..]. }
        destruct (Go.fromHexChar b) eqn:Hb.
        2:{ intros [= <-]. right. exists b. split_and?; [right; by left|done..]. }
        destruct (Go.DecodeString rest) eqn:Hr; [done|]. intros [= <-].
        destruct (IH rest ltac:(simpl in Hn; lia) _ Hr) as [->|(c & Hin & Hc & ->)];
          [by left|].
        right. exists c. split_and?; [by do 2 right|done..]. }
  intros e. by apply (H (String.length src)).
Qed.

(** Whatever byte the decoder reports, the wrapped error speaks of the
    signature and of nothing that [parseError] looks for before it. *)
Lemma parseError_signature_format e :
  e = Go.ErrLength \/ (exists c, e = Go.InvalidByteError c) ->
  Go.parseError ("invalid signature format: " +:+ e) = "Invalid signature".
Proof.
  intros [->|[c ->]]; [reflexivity|].
  destruct c as [[] [] [] [] [] [] [] []]; vm_compute; reflexivity.
Qed.

Lemma submitted_app t1 t2 : submitted (t1 ++ t2) = submitted t1 || submitted t2.
Proof. unfold submitted. apply existsb_app. Qed.

Lemma submissions_app t1 t2 : submissions (t1 ++ t2) = submissions t1 ++ submissions t2.
Proof. unfold submissions. apply omap_app. Qed.

Lemma js_relay_submitted keccak256 CONFIG req w s :
  submitted (Js.relay keccak256 CONFIG req w s).1.2 = true ->
  exists fwd g,
    Js.reachesDeadlineGate keccak256 CONFIG req fwd (Js.clock w) s
    /\ Js.clock w / 1000 <= Js.deadline fwd
    /\ Js.minted w = Ok false /\ Js.feeOk w
    /\ Js.callerAllowed w = Ok true
    /\ Js.estimateGas w = Ok g
    /\ submissions (Js.relay keccak256 CONFIG req w s).1.2 = [g].
Proof.
  destruct (js_relay_cases keccak256 CONFIG req w s)
    as [(s1 & r & -> & _)|(fwd & Hg & Hd & Hrun)]; [done|].
  simpl in Hrun. intros Hsub. exists fwd.
  pose proof (js_submitAndMark_submitted fwd w (Js.limited fwd (Js.clock w) s)) as Hs.
  destruct (Js.submitAndMark fwd w _) as [[s2 t] [tx|r|m]];
    rewrite Hrun in Hsub |- *; simpl in *.
  - rewrite submitted_app in Hsub. simpl in Hsub. rewrite orb_false_r in Hsub.
    destruct (Hs Hsub) as (? & ? & _ & ? & g & ? & Ht). exists g.
    rewrite submissions_app, Ht. by split_and?.
  - destruct (Hs Hsub) as (? & ? & _ & ? & g & ? & Ht). exists g. by split_and?.
  - destruct (Hs Hsub) as (? & ? & _ & ? & g & ? & Ht). exists g. by split_and?.
Qed.

Lemma go_relay_submitted K config body w s :
  submitted (Go.relayHandler K config body w s).1.2 = true ->
  exists req,
    let s1 := Go.limited (Go.From (Go.Forward_ req)) (Go.rateClock w) s in
    body = Ok req /\ Go.arrives req w s
    /\ Go.reachesDeadlineGate K config req s1
    /\ Go.deadlineClock w <= Go.Int64 (Go.Deadline (Go.Forward_ req))
    /\ Go.mintedCall w = Ok false /\ Go.feeOk config w
    /\ (exists sigBytes,
          Go.DecodeString (Go.TrimPrefix (Go.Signature req) "0x") = Ok sigBytes)
    /\ (exists tx, Go.signTx w = Ok tx)
    /\ submissions (Go.relayHandler K config body w s).1.2 = [Go.bufferedGas w].
Proof.
  destruct (go_relay_cases K config body w s)
    as [(s1 & r & -> & _)|(req & Hb & Harr & Hg & Hd & Hrun)]; [done|].
  simpl in Hrun. intros Hsub. exists req. simpl.
  set (s1 := Go.limited _ _ s) in *.
  destruct (go_execution_cases config req w s1)
    as [(m & _ & Hs)|[(_ & Hs)|(Hm & [(p & _ & _ & Hs)|(Hfee & t & o & He & Hs)])]];
    simpl in Hs; rewrite Hs in Hrun.
  1-3: destruct Hrun as [Hrun _]; rewrite Hrun in Hsub; done.
  assert (Hsub' : submitted t = true).
  { destruct o as [c|r|m]; [|destruct Hrun as [Hrun _]..]; rewrite Hrun in Hsub;
      simpl in Hsub; [|done..]. rewrite submitted_app in Hsub. simpl in Hsub.
    by rewrite orb_false_r in Hsub. }
  assert (Htr : submissions (Go.relayHandler K config body w s).1.2 = submissions t).
  { destruct o as [c|r|m]; [|destruct Hrun as [Hrun _]..]; rewrite Hrun; simpl;
      [|done..]. rewrite submissions_app. simpl. by rewrite app_nil_r. }
  pose proof (go_execute_stages req w s1) as Hst. simpl in Hst. rewrite He in Hst.
  destruct (Go.DecodeString (Go.TrimPrefix (Go.Signature req) "0x")) as [sg|];
    [|by simplify_eq].
  destruct (Go.DecodeString (Go.TrimPrefix (Go.CallData req) "0x")); [|by simplify_eq].
  destruct (Go.packed w); [|by simplify_eq].
  destruct (Go.pendingNonce w); [|by simplify_eq].
  destruct (Go.suggestGasPrice w); [|by simplify_eq].
  destruct (Go.signTx w) as [tx|]; [|by simplify_eq].
  simpl in Hst. rewrite Htr, Hst. split_and?; try done; by eexists.
Qed.

(** ** Runs of requests that pass the gates *)

Lemma js_relay_admitted keccak256 CONFIG req fwd w s :
  Js.passesGates keccak256 CONFIG req fwd w s ->
  Js.relay keccak256 CONFIG req w s
  = match Js.submitAndMark fwd w (Js.limited fwd (Js.clock w) s) with
    | (s2, t, Next tx) =>
        (s2, t ++ [EvWait],
         match Js.wait w with
         | Ok r => Success tx (blockNumber r) (gasUsed r)
         | Err m => Failure 500 (Js.errorMessage m) EmptyString
         end)
    | (s2, t, Return r) => (s2, t, r)
    | (s2, t, Throw m) => (s2, t, Failure 500 (Js.errorMessage m) EmptyString)
    end.
Proof.
  intros [Hg Hd]. rewrite js_relay_unfold, (js_admission_hash_ok _ _ _ _ _ _ Hg).
  apply Z.ltb_ge in Hd. by rewrite Hd.
Qed.

Lemma go_relay_admitted K config req w s :
  Go.passesGates K config req w s ->
  let s1 := Go.limited (Go.From (Go.Forward_ req)) (Go.rateClock w) s in
  Go.relayHandler K config (Ok req) w s
  = match Go.execution config req w s1 with
    | (_, t, Next confirmed) =>
        (Go.marked (Go.requestID (Go.Forward_ req)) (Go.markClock w) s1,
         t ++ [EvMark (Go.requestID (Go.Forward_ req))],
         Success confirmed.1.1 confirmed.1.2 confirmed.2)
    | (_, t, Return r) => (s1, t, r)
    | (_, t, Throw m) => (s1, t, Failure 500 "Internal Server Error" m)
    end.
Proof.
  intros (Harr & Hg & Hd) s1. rewrite go_relay_unfold, go_arrival_next by done.
  fold s1. rewrite (go_gates_hash_ok _ _ _ _ _ Hg).
  apply Z.ltb_ge in Hd. by rewrite Hd.
Qed.

Lemma go_execution_run config req w s :
  Go.mintedCall w = Ok false -> Go.feeOk config w ->
  Go.execution config req w s
  = match Go.executeMetaTransaction req w s with
    | (_, t, o) =>
        (s, EvProbe (Go.From (Go.Forward_ req)) :: EvFeeFetch :: t,
         match o with
         | Next confirmed => Next confirmed
         | Return r => Return r
         | Throw m => Return (Failure 500 (Go.parseError m) m)
         end)
    end.
Proof.
  intros Hm Hfee.
  destruct (go_execution_cases config req w s)
    as [(m & Hm' & _)|[(Hm' & _)|(_ & [(p & Hp & Hlt & _)|(_ & t & o & He & Hs)])]];
    try congruence.
  - exfalso. destruct Hfee as [[m Hf]|(p' & Hf & Hle)]; rewrite Hp in Hf;
      simplify_eq. lia.
  - simpl in Hs. by rewrite Hs, He.
Qed.

(** ** The sample requests pass the gates *)

Lemma sample_passesGates w :
  Js.clock w = 1000000 ->
  Js.passesGates Sample.keccak256 Sample.CONFIG Sample.req Sample.fwd w Js.emptyStore.
Proof.
  intros Hc. unfold Js.passesGates, Js.reachesDeadlineGate, Js.reachesHashGate,
    Js.wellFormed. rewrite Hc. split_and?; try done.
  exists "0xabcd". split; [done|]. by right.
Qed.

Lemma sample_go_passesGates w :
  Go.rateClock w = 1000 -> Go.deadlineClock w = 1000 ->
  Go.passesGates Sample.Keccak256Hash Sample.config Sample.goReq w Go.emptyStore.
Proof.
  intros Hr Hd. unfold Go.passesGates, Go.arrives, Go.reachesDeadlineGate,
    Go.reachesHashGate. rewrite Hr, Hd. split_and?; try done.
  by eexists.
Qed.

(** ** The path to a submission *)

(** X10: A server that submits a transaction for a request has passed every
    gate on it: the request had its fields, was within the rate limit, was
    no duplicate, named the NFT contract as target and the relayer as
    caller, carried the hash of its call data (in relayer-server.js: or no
    hash), and had not expired; the sender had not minted; the fee was
    within the ceiling (or, in main.go, could not be fetched, and in
    relayer-server.js was null). And a run submits one transaction only. *)
Theorem submission_passed_every_gate :
  (forall keccak256 CONFIG req w s,
     submitted (Js.relay keccak256 CONFIG req w s).1.2 = true ->
     exists fwd g,
       Js.reachesDeadlineGate keccak256 CONFIG req fwd (Js.clock w) s
       /\ Js.clock w / 1000 <= Js.deadline fwd
       /\ Js.minted w = Ok false /\ Js.feeOk w
       /\ Js.callerAllowed w = Ok true
       /\ Js.estimateGas w = Ok g
       /\ submissions (Js.relay keccak256 CONFIG req w s).1.2 = [g])
  /\ (forall Keccak256Hash config body w s,
        submitted (Go.relayHandler Keccak256Hash config body w s).1.2 = true ->
        exists req,
          let s1 := Go.limited (Go.From (Go.Forward_ req)) (Go.rateClock w) s in
          body = Ok req /\ Go.arrives req w s
          /\ Go.reachesDeadlineGate Keccak256Hash config req s1
          /\ Go.deadlineClock w <= Go.Int64 (Go.Deadline (Go.Forward_ req))
          /\ Go.mintedCall w = Ok false /\ Go.feeOk config w
          /\ (exists sigBytes,
                Go.DecodeString (Go.TrimPrefix (Go.Signature req) "0x") = Ok sigBytes)
          /\ (exists tx, Go.signTx w = Ok tx)
          /\ submissions (Go.relayHandler Keccak256Hash config body w s).1.2
             = [Go.bufferedGas w]).
Proof.
  split.
  - apply js_relay_submitted.
  - apply go_relay_submitted.
Qed.

(** The sample requests, which are submitted. *)
Lemma submission_passed_every_gate_witness :
  (exists fwd g,
     Js.reachesDeadlineGate Sample.keccak256 Sample.CONFIG Sample.req fwd
       (Js.clock Sample.world) Js.emptyStore
     /\ Js.clock Sample.world / 1000 <= Js.deadline fwd
     /\ Js.minted Sample.world = Ok false /\ Js.feeOk Sample.world
     /\ Js.callerAllowed Sample.world = Ok true
     /\ Js.estimateGas Sample.world = Ok g
     /\ submissions (Js.relay Sample.keccak256 Sample.CONFIG Sample.req Sample.world
                       Js.emptyStore).1.2 = [g])
  /\ submissions (Go.relayHandler Sample.Keccak256Hash Sample.config
                    (Ok Sample.goReq) Sample.goWorld Go.emptyStore).1.2 = [120000].
Proof.
  split.
  - apply (proj1 submission_passed_every_gate). by vm_compute.
  - destruct (proj2 submission_passed_every_gate Sample.Keccak256Hash Sample.config
                (Ok Sample.goReq) Sample.goWorld Go.emptyStore)
      as (req & _ & _ & _ & _ & _ & _ & _ & _ & Hs); [by vm_compute|].
    rewrite Hs. by vm_compute.
Defined.

(** X11: The already-minted probe decides before anything is spent: for a
    request that passes the gates, a sender who has minted is answered 400
    and a probe that fails is answered 500, in both cases with the probe as
    the only call made, so without fee fetch, executor or mark. The two
    servers word the answers differently. *)
Theorem minted_probe_stops :
  (forall keccak256 CONFIG req fwd w s,
     Js.passesGates keccak256 CONFIG req fwd w s ->
     let s1 := Js.limited fwd (Js.clock w) s in
     (Js.minted w = Ok true ->
      Js.relay keccak256 CONFIG req w s
      = (s1, [EvProbe (Js.from fwd)], Failure 400 "    ed an NFT" EmptyString))
     /\ (forall m, Js.minted w = Err m ->
           Js.relay keccak256 CONFIG req w s
           = (s1, [EvProbe (Js.from fwd)],
              Failure 500 (Js.errorMessage m) EmptyString)))
  /\ (forall Keccak256Hash config req w s,
        Go.passesGates Keccak256Hash config req w s ->
        let s1 := Go.limited (Go.From (Go.Forward_ req)) (Go.rateClock w) s in
        (Go.mintedCall w = Ok true ->
         Go.relayHandler Keccak256Hash config (Ok req) w s
         = (s1, [EvProbe (Go.From (Go.Forward_ req))],
            Failure 400 "You already minted an NFT" EmptyString))
        /\ (forall m, Go.mintedCall w = Err m ->
              Go.relayHandler Keccak256Hash config (Ok req) w s
              = (s1, [EvProbe (Go.From (Go.Forward_ req))],
                 Failure 500 "Failed to verify minting status" m))).
Proof.
  split.
  - intros keccak256 CONFIG req fwd w s Hp s1.
    rewrite (js_relay_admitted _ _ _ _ _ _ Hp). fold s1.
    split; [intros Hm|intros m Hm]; js_run; simpl; by rewrite Hm.
  - intros K config req w s Hp s1.
    rewrite (go_relay_admitted _ _ _ _ _ Hp). fold s1.
    split; [intros Hm|intros m Hm];
      unfold Go.execution, Go.checkAlreadyMinted, Go.try, Go.sendError;
      cbv [bind ret respond throw emit await]; simpl; by rewrite Hm.
Qed.

(** One who has minted, asking relayer-server.js again. *)
Lemma minted_probe_stops_witness :
  let w := Js.mkWorld 1000000 (Ok true) (Ok (Some 30)) (Ok "0xdata") (Ok true)
             (Ok 100000) (Ok "0xtx") 1000500 3000 (Ok (mkReceipt 5 21000 1)) in
  Js.relay Sample.keccak256 Sample.CONFIG Sample.req w Js.emptyStore
  = (Js.limited Sample.fwd 1000000 Js.emptyStore, [EvProbe "0xUser"],
     Failure 400 "    ed an NFT" EmptyString).
Proof.
  intros w.
  apply (proj1 (proj1 minted_probe_stops Sample.keccak256 Sample.CONFIG Sample.req
                  Sample.fwd w Js.emptyStore (sample_passesGates w eq_refl))).
  reflexivity.
Defined.

(** X12: A fee that cannot be fetched: main.go logs the error and goes on to the
    executor, so the request is executed without a fee check;
    relayer-server.js answers 500 without calling the executor when
    [getFeeData] fails, and goes on to the executor when the fee data have
    no gas price. *)
Theorem fee_fetch_failure :
  (forall Keccak256Hash config req w s m,
     Go.passesGates Keccak256Hash config req w s ->
     Go.mintedCall w = Ok false ->
     Go.feeCheck w = Err m ->
     In EvExecutor (Go.relayHandler Keccak256Hash config (Ok req) w s).1.2)
  /\ (forall keccak256 CONFIG req fwd w s,
        Js.passesGates keccak256 CONFIG req fwd w s ->
        Js.minted w = Ok false ->
        (forall m, Js.gasPrice w = Err m ->
           Js.relay keccak256 CONFIG req w s
           = (Js.limited fwd (Js.clock w) s, [EvProbe (Js.from fwd); EvFeeFetch],
              Failure 500 (Js.errorMessage m) EmptyString))
        /\ (Js.gasPrice w = Ok None ->
            In EvExecutor (Js.relay keccak256 CONFIG req w s).1.2)).
Proof.
  split.
  - intros K config req w s m Hp Hm Hf.
    rewrite (go_relay_admitted _ _ _ _ _ Hp).
    rewrite go_execution_run by (done || (left; by exists m)).
    destruct (Go.executeMetaTransaction req w _) as [[s2 t] o] eqn:He.
    assert (Ht : In EvExecutor t).
    { revert He. go_run. simpl. intros He. crunch; simpl; tauto. }
    destruct o; simpl; rewrite ?in_app_iff; tauto.
  - intros keccak256 CONFIG req fwd w s Hp Hm.
    rewrite (js_relay_admitted _ _ _ _ _ _ Hp). split.
    + intros m Hg. js_run. simpl. by rewrite Hm, Hg.
    + intros Hg. js_run. simpl. rewrite Hm, Hg. simpl.
      crunch; simpl; rewrite ?in_app_iff; simpl; tauto.
Qed.

(** The sample request of main.go when the node does not answer the fee
    request. *)
Lemma fee_fetch_failure_witness :
  let w := Go.mkWorld 1000 1000 (Ok false) (Err "connection refused") (Ok "0xdata")
             (Ok 0) (Ok 30) (Ok 100000) (Ok "0xtx") (Ok tt) (1000 * Go.Second)
             (fun i => Go.mkPoll (10 ^ 8) (Some (mkReceipt 5 21000 1)))
             (1005 * Go.Second) in
  In EvExecutor (Go.relayHandler Sample.Keccak256Hash Sample.config (Ok Sample.goReq)
                   w Go.emptyStore).1.2.
Proof.
  intros w.
  apply (proj1 fee_fetch_failure Sample.Keccak256Hash Sample.config Sample.goReq w
           Go.emptyStore "connection refused"
           (sample_go_passesGates w eq_refl eq_refl) eq_refl eq_refl).
Defined.

(** ** What the client is told when the executor of main.go fails *)

(** X13: main.go does not look at the signature in its gates. A request whose
    signature is not a hex string passes them, costs a probe and a fee
    fetch, and fails in the executor before anything is sent: the answer is
    500 "Invalid signature", with the decoding error as details. That
    error is the one of [hex.DecodeString]: the odd length, or the first
    byte that is no hex digit, printed as [U+00XX] and, if printable, in
    quotes. *)
Theorem malformed_signature_reaches_executor :
  forall Keccak256Hash config req w s e,
    Go.passesGates Keccak256Hash config req w s ->
    Go.mintedCall w = Ok false -> Go.feeOk config w ->
    Go.DecodeString (Go.TrimPrefix (Go.Signature req) "0x") = Err e ->
    Go.relayHandler Keccak256Hash config (Ok req) w s
    = (Go.limited (Go.From (Go.Forward_ req)) (Go.rateClock w) s,
       [EvProbe (Go.From (Go.Forward_ req)); EvFeeFetch; EvExecutor],
       Failure 500 "Invalid signature" ("invalid signature format: " +:+ e))
    /\ (e = "encoding/hex: odd length hex string"
        \/ exists c,
             In c (list_ascii_of_string (Go.TrimPrefix (Go.Signature req) "0x"))
             /\ Go.fromHexChar c = None
             /\ e = Go.InvalidByteError c).
Proof.
  intros K config req w s e Hp Hm Hfee He.
  pose proof (DecodeString_errors _ _ He) as Herr. split; [|done].
  rewrite (go_relay_admitted _ _ _ _ _ Hp), go_execution_run by done.
  pose proof (go_execute_stages req w
                (Go.limited (Go.From (Go.Forward_ req)) (Go.rateClock w) s)) as Hst.
  simpl in Hst. rewrite He in Hst. rewrite Hst.
  rewrite parseError_signature_format; [done|].
  destruct Herr as [->|(c & _ & _ & ->)]; [by left|].
  right. by exists c.
Qed.

(** The signature "0xsig": its first byte after the prefix is no hex
    digit. *)
Lemma malformed_signature_reaches_executor_witness :
  let req := Go.mkRelayRequest Sample.goFwd "0xsig" "0x1234" in
  Go.relayHandler Sample.Keccak256Hash Sample.config (Ok req) Sample.goWorld
    Go.emptyStore
  = (Go.limited "0xUser" 1000 Go.emptyStore,
     [EvProbe "0xUser"; EvFeeFetch; EvExecutor],
     Failure 500 "Invalid signature"
       "invalid signature format: encoding/hex: invalid byte: U+0073 's'").
Proof.
  intros req.
  refine (proj1 (malformed_signature_reaches_executor Sample.Keccak256Hash
                   Sample.config req Sample.goWorld Go.emptyStore
                   "encoding/hex: invalid byte: U+0073 's'" _ _ _ _)).
  - unfold Go.passesGates, Go.arrives, Go.reachesDeadlineGate, Go.reachesHashGate.
    split_and?; try done. by eexists.
  - reflexivity.
  - right. exists 30. split; [done|]. by vm_compute.
  - reflexivity.
Defined.

(** X14: When the relayer's account nonce cannot be fetched, the client of
    main.go is told "Invalid nonce or nonce already used" (or, if the
    node's error speaks of it, that the address has already minted or that
    the relayer has insufficient funds): the wrapped error contains the
    word "nonce". Nothing has been submitted. *)
Theorem nonce_fetch_failure_report :
  forall Keccak256Hash config req w s sigBytes data m,
    Go.passesGates Keccak256Hash config req w s ->
    Go.mintedCall w = Ok false -> Go.feeOk config w ->
    Go.DecodeString (Go.TrimPrefix (Go.Signature req) "0x") = Ok sigBytes ->
    Go.packed w = Ok data ->
    Go.pendingNonce w = Err m ->
    exists error,
      Go.relayHandler Keccak256Hash config (Ok req) w s
      = (Go.limited (Go.From (Go.Forward_ req)) (Go.rateClock w) s,
         [EvProbe (Go.From (Go.Forward_ req)); EvFeeFetch; EvExecutor],
         Failure 500 error ("failed to get nonce: " +:+ m))
      /\ (error = "Invalid nonce or nonce already used"
          \/ error = "This address has already minted an NFT"
          \/ error = "Relayer has insufficient funds").
Proof.
  intros K config req w s sg data m Hp Hm Hfee Hsig Hpack Hn.
  rewrite (go_relay_admitted _ _ _ _ _ Hp), go_execution_run by done.
  pose proof (go_execute_stages req w
                (Go.limited (Go.From (Go.Forward_ req)) (Go.rateClock w) s)) as Hst.
  simpl in Hst. rewrite Hsig, Hpack, Hn in Hst.
  destruct Hp as (_ & (bytes & (_ & _ & _ & Hdec) & _) & _). rewrite Hdec in Hst.
  rewrite Hst. eexists. split; [done|].
  unfold Go.parseError.
  assert (Hinc : includes ("failed to get nonce: " +:+ m) "nonce" = true)
    by (by apply includes_app_l).
  rewrite Hinc. destruct (includes _ "Already minted"); [tauto|].
  destruct (includes _ "insufficient funds"); tauto.
Qed.

Lemma nonce_fetch_failure_report_witness :
  let w := Go.mkWorld 1000 1000 (Ok false) (Ok 30) (Ok "0xdata")
             (Err "connection refused") (Ok 30) (Ok 100000) (Ok "0xtx") (Ok tt)
             (1000 * Go.Second)
             (fun i => Go.mkPoll (10 ^ 8) (Some (mkReceipt 5 21000 1)))
             (1005 * Go.Second) in
  exists error,
    Go.relayHandler Sample.Keccak256Hash Sample.config (Ok Sample.goReq) w Go.emptyStore
    = (Go.limited "0xUser" 1000 Go.emptyStore,
       [EvProbe "0xUser"; EvFeeFetch; EvExecutor],
       Failure 500 error "failed to get nonce: connection refused")
    /\ (error = "Invalid nonce or nonce already used"
        \/ error = "This address has already minted an NFT"
        \/ error = "Relayer has insufficient funds").
Proof.
  intros w.
  apply (nonce_fetch_failure_report Sample.Keccak256Hash Sample.config Sample.goReq w
           Go.emptyStore [x5e; x1f] "0xdata" "connection refused"
           (sample_go_passesGates w eq_refl eq_refl) eq_refl).
  - right. exists 30. split; [done|]. by vm_compute.
  - by vm_compute.
  - reflexivity.
  - reflexivity.
Defined.

(** X15: Once main.go has sent the transaction, the request ends in one of three
    ways: success, with the key marked; 500 "Transaction failed" with the
    details "failed to get receipt: timeout waiting for transaction
    receipt"; or 500 "Transaction failed" with the details "transaction
    reverted by contract". In the two failures the key is not marked. *)
Theorem after_submission_outcomes :
  forall Keccak256Hash config body w s,
    let out := Go.relayHandler Keccak256Hash config body w s in
    In EvWait out.1.2 ->
    (exists tx block gas,
       out.2 = Success tx block gas
       /\ exists req, body = Ok req
            /\ Go.processedRequests out.1.1 !! Go.requestID (Go.Forward_ req)
               = Some (Go.markClock w))
    \/ ((out.2 = Failure 500 "Transaction failed"
                   "failed to get receipt: timeout waiting for transaction receipt"
         \/ out.2 = Failure 500 "Transaction failed" "transaction reverted by contract")
        /\ Go.processedRequests out.1.1 = Go.processedRequests s).
Proof.
  intros K config body w s out Hin. unfold out in *.
  destruct (go_relay_cases K config body w s)
    as [(s1 & r & Ho & _)|(req & Hb & Harr & Hg & Hd & Hrun)];
    [by rewrite Ho in Hin|].
  simpl in Hrun. set (s1 := Go.limited _ _ s) in *.
  destruct (go_execution_cases config req w s1)
    as [(m & _ & Hs)|[(_ & Hs)|(Hm & [(p & _ & _ & Hs)|(Hfee & t & o & He & Hs)])]];
    simpl in Hs; rewrite Hs in Hrun.
  1-3: destruct Hrun as [Hrun _]; rewrite Hrun in Hin; simpl in Hin; naive_solver.
  destruct (go_execute_cases req w s1) as [(m & He')|[(m & _ & He')|[(m & _ & He')|
    (tx & starts & finish & waited & _ & _ & Hw & [(_ & He')|[(rc & _ & _ & He')|
                                                             (rc & -> & Hst & He')]])]]];
    simpl in He'; rewrite He' in He; simplify_eq.
  1-3: destruct Hrun as [Hrun _]; rewrite Hrun in Hin; simpl in Hin; naive_solver.
  - destruct Hrun as [Hrun _]. rewrite Hrun. right. split; [by left|done].
  - destruct Hrun as [Hrun _]. rewrite Hrun. right. split; [by right|done].
  - rewrite Hrun. left. eexists _, _, _. split; [done|]. exists req.
    split; [done|]. simpl. by rewrite lookup_insert_eq.
Qed.

(** The sample request of main.go when the transaction reverts. *)
Lemma after_submission_outcomes_witness :
  let w := Go.mkWorld 1000 1000 (Ok false) (Ok 30) (Ok "0xdata") (Ok 0) (Ok 30)
             (Ok 100000) (Ok "0xtx") (Ok tt) (1000 * Go.Second)
             (fun i => Go.mkPoll (10 ^ 8) (Some (mkReceipt 5 21000 0)))
             (1005 * Go.Second) in
  let out := Go.relayHandler Sample.Keccak256Hash Sample.config (Ok Sample.goReq) w
               Go.emptyStore in
  (exists tx block gas,
     out.2 = Success tx block gas
     /\ exists req, Ok Sample.goReq = Ok req
          /\ Go.processedRequests out.1.1 !! Go.requestID (Go.Forward_ req)
             = Some (Go.markClock w))
  \/ ((out.2 = Failure 500 "Transaction failed"
                 "failed to get receipt: timeout waiting for transaction receipt"
       \/ out.2 = Failure 500 "Transaction failed" "transaction reverted by contract")
      /\ Go.processedRequests out.1.1 = Go.processedRequests Go.emptyStore).
Proof.
  intros w out.
  apply (after_submission_outcomes Sample.Keccak256Hash Sample.config
           (Ok Sample.goReq) w Go.emptyStore).
  vm_compute. tauto.
Defined.

(** ** Hex strings *)

Lemma DecodeString_encode_cons b rest :
  Go.DecodeString (Go.EncodeToString (b :: rest))
  = match Go.DecodeString (Go.EncodeToString rest) with
    | Ok bytes => Ok (b :: bytes)
    | Err e => Err e
    end.
Proof. destruct b; reflexivity. Qed.

Lemma DecodeString_encode bs :
  Go.DecodeString (Go.EncodeToString bs) = Ok bs.
Proof.
  induction bs as [|b bs IH]; [done|]. by rewrite DecodeString_encode_cons, IH.
Qed.

Lemma EncodeToString_head b rest :
  exists h l, Go.EncodeToString (b :: rest) = String h (String l (Go.EncodeToString rest))
              /\ h <> "x"%char.
Proof. destruct b; eexists _, _; split; try reflexivity; discriminate. Qed.

Lemma TrimPrefix_0x_encode bs :
  Go.TrimPrefix (Go.EncodeToString bs) "0x" = Go.EncodeToString bs.
Proof.
  destruct bs as [|b bs]; [done|].
  destruct b; reflexivity.
Qed.

Lemma DecodeString_length src bs :
  Go.DecodeString src = Ok bs ->
  String.length src = (2 * length bs)%nat /\ Go.isHex src.
Proof.
  revert bs.
  assert (H : forall n src, (String.length src <= n)%nat -> forall bs,
    Go.DecodeString src = Ok bs ->
    String.length src = (2 * length bs)%nat /\ Go.isHex src).
  { clear. induction n as [|n IH]; intros src Hn bs.
    - destruct src; [|simpl in Hn; lia]. intros [= <-]. split; [done|constructor].
    - destruct src as [|a [|b rest]]; simpl.
      + intros [= <-]. split; [done|constructor].
      + by destruct (Go.fromHexChar a).
      + destruct (Go.fromHexChar a) eqn:Ha; [|done].
        destruct (Go.fromHexChar b) eqn:Hb; [|done].
        destruct (Go.DecodeString rest) as [bytes|] eqn:Hr; [|done].
        intros [= <-]. destruct (IH rest ltac:(simpl in Hn; lia) bytes Hr) as [Hl Hh].
        split; [simpl; lia|]. unfold Go.isHex. simpl.
        constructor; [by rewrite Ha|]. constructor; [by rewrite Hb|]. done. }
  intros bs. by apply (H (String.length src)).
Qed.

Lemma DecodeString_hex src :
  Go.isHex src -> Nat.Even (String.length src) ->
  exists bs, Go.DecodeString src = Ok bs.
Proof.
  assert (H : forall n src, (String.length src <= n)%nat ->
    Go.isHex src -> Nat.Even (String.length src) ->
    exists bs, Go.DecodeString src = Ok bs).
  { clear. induction n as [|n IH]; intros src Hn Hh He.
    - destruct src; [by eexists|simpl in Hn; lia].
    - destruct src as [|a [|b rest]]; simpl.
      + by eexists.
      + destruct He as [k Hk]. simpl in Hk. lia.
      + unfold Go.isHex in Hh. simpl in Hh.
        apply Forall_cons in Hh as [[h Ha] Hh]. apply Forall_cons in Hh as [[l Hb] Hh].
        rewrite Ha, Hb.
        destruct (IH rest) as [bs Hbs]; [simpl in Hn; lia|done| |].
        * destruct He as [k Hk]. simpl in Hk. exists (k - 1)%nat. lia.
        * rewrite Hbs. by eexists. }
  by apply (H (String.length src)).
Qed.

Lemma TrimPrefix_0x s : Go.TrimPrefix ("0x" +:+ s) "0x" = s.
Proof. by destruct s. Qed.

(** ** Bytes32 in JSON *)

(** X16: What [Bytes32.MarshalJSON] writes, [Bytes32.UnmarshalJSON] reads back
    as the same 32 bytes; and for any bytes, [hex.DecodeString] undoes
    [hex.EncodeToString]. *)
Theorem bytes32_json_round_trip :
  (forall bs, Go.DecodeString (Go.EncodeToString bs) = Ok bs)
  /\ (forall b, length b = 32%nat ->
        Go.UnmarshalJSON (Ok (Go.MarshalJSON b)) = Ok b).
Proof.
  split; [apply DecodeString_encode|].
  intros b Hlen. unfold Go.UnmarshalJSON, Go.MarshalJSON.
  rewrite TrimPrefix_0x. rewrite DecodeString_encode. by rewrite bool_decide_true.
Qed.

Lemma bytes32_json_round_trip_witness :
  Go.UnmarshalJSON (Ok (Go.MarshalJSON (replicate 31 x00 ++ [xff])))
  = Ok (replicate 31 x00 ++ [xff]).
Proof. apply (proj2 bytes32_json_round_trip). reflexivity. Defined.

(** X17: [Bytes32.UnmarshalJSON] accepts a string exactly when, after one
    leading "0x" is taken off if there is one, it consists of 64 hex digits
    (of either case); the result then has 32 bytes. Anything else is an
    error: "invalid hex string: ..." for a digit that is none or an odd
    length, "expected 32 bytes, got n" for another length. *)
Theorem bytes32_unmarshal_accepts :
  forall hexStr,
    let digits := Go.TrimPrefix hexStr "0x" in
    (forall b, Go.UnmarshalJSON (Ok hexStr) = Ok b ->
       length b = 32%nat /\ String.length digits = 64%nat /\ Go.isHex digits
       /\ Go.DecodeString digits = Ok b)
    /\ (String.length digits = 64%nat -> Go.isHex digits ->
        exists b, Go.UnmarshalJSON (Ok hexStr) = Ok b)
    /\ (forall e, Go.DecodeString digits = Err e ->
          Go.UnmarshalJSON (Ok hexStr) = Err ("invalid hex string: " +:+ e))
    /\ (forall decoded, Go.DecodeString digits = Ok decoded ->
          length decoded <> 32%nat ->
          Go.UnmarshalJSON (Ok hexStr)
          = Err ("expected 32 bytes, got " +:+ pretty (length decoded))).
Proof.
  intros hexStr digits. unfold Go.UnmarshalJSON. fold digits. split_and?.
  - intros b. destruct (Go.DecodeString digits) as [decoded|] eqn:Hd; [|done].
    case_bool_decide as Hlen; [|done]. intros [= <-].
    destruct (DecodeString_length _ _ Hd) as [Hl Hh]. split_and?; try done. lia.
  - intros Hlen Hh. destruct (DecodeString_hex digits Hh) as [bs Hbs].
    { rewrite Hlen. by exists 32%nat. }
    rewrite Hbs. destruct (DecodeString_length _ _ Hbs) as [Hl _].
    rewrite bool_decide_true by lia. by eexists.
  - by intros e ->.
  - intros decoded -> Hne. by rewrite bool_decide_false.
Qed.

(** A hash in capital letters and without the prefix. *)
Lemma bytes32_unmarshal_accepts_witness :
  exists b,
    Go.UnmarshalJSON
      (Ok "AB54A98CEB1F0AD2AB54A98CEB1F0AD2ab54a98ceb1f0ad2ab54a98ceb1f0ad2")
    = Ok b.
Proof.
  apply (proj1 (proj2 (bytes32_unmarshal_accepts
    "AB54A98CEB1F0AD2AB54A98CEB1F0AD2ab54a98ceb1f0ad2ab54a98ceb1f0ad2")));
    [reflexivity|].
  unfold Go.isHex. simpl. repeat (constructor; [by eexists|]). constructor.
Defined.

(** ** main.go: configuration *)

(** X18: [loadConfig] succeeds exactly when RPC_URL, RELAYER_PRIVATE_KEY,
    HUB_ADDRESS and NFT_CONTRACT are set to something and CHAIN_ID, if set
    to something, is a decimal number; a variable set to the empty string
    counts as not set. When several are missing the error names the first
    one in that order. *)
Theorem loadConfig_requirements :
  forall HexToAddress environ,
    let set key := Go.Getenv environ key <> EmptyString in
    ((exists config, Go.loadConfig HexToAddress environ = Ok config) <->
     set "RPC_URL" /\ set "RELAYER_PRIVATE_KEY" /\ set "HUB_ADDRESS"
     /\ set "NFT_CONTRACT"
     /\ is_Some (Go.SetString10 (Go.getEnv environ "CHAIN_ID" "80002")))
    /\ (~ set "RPC_URL" ->
        Go.loadConfig HexToAddress environ = Err "RPC_URL is required")
    /\ (set "RPC_URL" -> ~ set "RELAYER_PRIVATE_KEY" ->
        Go.loadConfig HexToAddress environ = Err "RELAYER_PRIVATE_KEY is required")
    /\ (set "RPC_URL" -> set "RELAYER_PRIVATE_KEY" -> ~ set "HUB_ADDRESS" ->
        Go.loadConfig HexToAddress environ = Err "HUB_ADDRESS is required")
    /\ (set "RPC_URL" -> set "RELAYER_PRIVATE_KEY" -> set "HUB_ADDRESS" ->
        ~ set "NFT_CONTRACT" ->
        Go.loadConfig HexToAddress environ = Err "NFT_CONTRACT is required").
Proof.
  intros HexToAddress environ set. unfold set, Go.loadConfig.
  destruct (str_eqb (Go.Getenv environ "RPC_URL") EmptyString) eqn:H1;
  destruct (str_eqb (Go.Getenv environ "RELAYER_PRIVATE_KEY") EmptyString) eqn:H2;
  destruct (str_eqb (Go.Getenv environ "HUB_ADDRESS") EmptyString) eqn:H3;
  destruct (str_eqb (Go.Getenv environ "NFT_CONTRACT") EmptyString) eqn:H4;
  destruct (Go.SetString10 (Go.getEnv environ "CHAIN_ID" "80002")) eqn:H5;
  bools; (split_and?; [split|..]); try naive_solver.
Qed.

(** X19: The defaults of [loadConfig]: port 3000 and chain 80002 when PORT and
    CHAIN_ID are not set or set to the empty string; and the fee ceiling is
    100 gwei whatever the environment says, the same as MAX_GAS_PRICE of
    relayer-server.js. A server made by [NewServer] from it starts with
    nothing on record. *)
Theorem loadConfig_defaults :
  forall HexToAddress environ config,
    Go.loadConfig HexToAddress environ = Ok config ->
    Go.settingsMaxGasPrice config = Js.MAX_GAS_PRICE
    /\ (Go.Getenv environ "PORT" = EmptyString -> Go.Port config = "3000")
    /\ (Go.Getenv environ "CHAIN_ID" = EmptyString -> Go.ChainID config = 80002)
    /\ (forall dial relayerOf server,
          Go.NewServer dial relayerOf config = Ok server ->
          Go.MaxGasPrice server.1 = 100 * 10 ^ 9 /\ server.2 = Go.emptyStore).
Proof.
  intros HexToAddress environ config. unfold Go.loadConfig.
  destruct (str_eqb (Go.Getenv environ "RPC_URL") EmptyString); [done|].
  destruct (str_eqb (Go.Getenv environ "RELAYER_PRIVATE_KEY") EmptyString); [done|].
  destruct (str_eqb (Go.Getenv environ "HUB_ADDRESS") EmptyString); [done|].
  destruct (str_eqb (Go.Getenv environ "NFT_CONTRACT") EmptyString); [done|].
  destruct (Go.SetString10 (Go.getEnv environ "CHAIN_ID" "80002")) as [chainID|] eqn:Hc;
    [|done].
  intros [= <-]. simpl. split_and?.
  - done.
  - intros Hp. unfold Go.getEnv. by rewrite Hp.
  - intros Hp. unfold Go.getEnv in Hc. rewrite Hp in Hc. simpl in Hc.
    by injection Hc as <-.
  - intros dial relayerOf server. unfold Go.NewServer. simpl.
    destruct (dial _); [|done]. destruct (relayerOf _); [|done].
    by intros [= <-].
Qed.

(** An environment with the four required variables and nothing else. *)
Lemma loadConfig_defaults_witness :
  let environ : gmap string string :=
    {[ "RPC_URL" := "http://localhost:8545"; "RELAYER_PRIVATE_KEY" := "0x01";
       "HUB_ADDRESS" := "0xHub"; "NFT_CONTRACT" := "0xNFT" ]} in
  exists config,
    Go.loadConfig (fun a => a) environ = Ok config
    /\ Go.settingsMaxGasPrice config = Js.MAX_GAS_PRICE
    /\ Go.Port config = "3000" /\ Go.ChainID config = 80002.
Proof.
  intros environ.
  destruct (Go.loadConfig (fun a => a) environ) as [config|] eqn:Hl;
    [|by vm_compute in Hl].
  exists config. split; [done|].
  destruct (loadConfig_defaults (fun a => a) environ config Hl) as (Hm & Hp & Hc & _).
  split_and?; [done|by apply Hp|by apply Hc].
Defined.

Lemma loadConfig_requirements_witness :
  let environ : gmap string string :=
    {[ "RPC_URL" := "http://localhost:8545"; "HUB_ADDRESS" := "0xHub";
       "RELAYER_PRIVATE_KEY" := EmptyString ]} in
  Go.loadConfig (fun a => a) environ = Err "RELAYER_PRIVATE_KEY is required".
Proof.
  intros environ.
  apply (proj1 (proj2 (proj2 (loadConfig_requirements (fun a => a) environ))));
    by vm_compute.
Defined.

(** ** meta-exec-lib *)

Lemma getDeployedAddress_cons {Log} parseLog (l : Log) logs :
  MetaExecLib.getDeployedAddress parseLog (l :: logs)
  = match parseLog l with
    | Ok (Some p) =>
        if str_eqb (MetaExecLib.eventName p) "ContractDeployed"
        then Some (MetaExecLib.deployed p)
        else MetaExecLib.getDeployedAddress parseLog logs
    | _ => MetaExecLib.getDeployedAddress parseLog logs
    end.
Proof.
  unfold MetaExecLib.getDeployedAddress. simpl.
  destruct (parseLog l) as [[p|]|]; simpl; try done.
  by destruct (str_eqb _ _).
Qed.

(** ** meta-exec-lib: preparing a forward *)

(** X20: [prepareForward] checks its arguments before it calls anything: without
    a nonce it throws "The parameter 'nonce' is required." whatever else is
    wrong, and with a nonce but with call data that are missing, empty or
    "0x" it throws "Empty callData.", in both cases whatever the network
    would answer. A nonce of 0 is a nonce. *)
Theorem prepareForward_validation :
  forall env a,
    (MetaExecLib.nonce a = None ->
     MetaExecLib.prepareForward env a = Err "The parameter 'nonce' is required.")
    /\ (forall n, MetaExecLib.nonce a = Some n ->
          MetaExecLib.callData a = None
          \/ MetaExecLib.callData a = Some EmptyString
          \/ MetaExecLib.callData a = Some "0x" ->
          MetaExecLib.prepareForward env a = Err "Empty callData.")
    /\ (forall callData chainId metaAddr dataHash,
          MetaExecLib.nonce a = Some 0 ->
          MetaExecLib.callData a = Some callData ->
          callData <> EmptyString -> callData <> "0x" ->
          MetaExecLib.getNetwork env = Ok chainId ->
          MetaExecLib.getAddress env (MetaExecLib.metaAddress a) = Ok metaAddr ->
          MetaExecLib.keccak256 env callData = Ok dataHash ->
          exists p, MetaExecLib.prepareForward env a = Ok p
                    /\ MetaExecLib.fTuple p !! 4%nat = Some (MetaExecLib.VInt 0)).
Proof.
  intros env a. unfold MetaExecLib.prepareForward. split_and?.
  - by intros ->.
  - intros n -> [->|[->| ->]]; done.
  - intros cd chainId metaAddr h -> -> Hne Hne0 -> -> ->.
    apply str_eqb_neq in Hne, Hne0. rewrite Hne, Hne0. simpl.
    eexists. split; [done|]. simpl. by destruct (default true _).
Qed.

(** Neither a nonce nor call data. *)
Lemma prepareForward_validation_witness :
  MetaExecLib.prepareForward
    (MetaExecLib.mkEnv (Err "network down") (fun a => Ok a) Sample.keccak256 1000000)
    (MetaExecLib.mkPrepareArgs "0xHub" None None None "0xUser" "0xNFT" None None None
       None None None MetaExecLib.VUndefined)
  = Err "The parameter 'nonce' is required.".
Proof. by apply (proj1 (prepareForward_validation _ _)). Defined.

(** X21: What [prepareForward] returns is consistent: the tuple for the hub
    lists the values of the message to sign, in the order of the fields of
    the EIP-712 type, which has seven fields, or eight with the caller last
    when [hasCaller] is true or left out; the hash in the message is the
    keccak256 hash of the call data; and the deadline is the one given, or
    else [deadlineSec] seconds after the current second, with ten minutes
    for a [deadlineSec] that is left out or 0. *)
Theorem prepareForward_consistent :
  forall env a p,
    MetaExecLib.prepareForward env a = Ok p ->
    let withCaller := default true (MetaExecLib.hasCaller a) in
    (MetaExecLib.message p).*2 = MetaExecLib.fTuple p
    /\ (MetaExecLib.message p).*1 = (MetaExecLib.types p).*1
    /\ length (MetaExecLib.fTuple p) = (if withCaller then 8 else 7)%nat
    /\ (withCaller = true ->
        last (MetaExecLib.fTuple p) = Some (MetaExecLib.caller a))
    /\ (exists callData,
          MetaExecLib.callData a = Some callData
          /\ MetaExecLib.preparedCallData p = callData
          /\ MetaExecLib.keccak256 env callData = Ok (MetaExecLib.dataHash p)
          /\ MetaExecLib.fTuple p !! 6%nat = Some (MetaExecLib.VStr (MetaExecLib.dataHash p)))
    /\ MetaExecLib.fTuple p !! 5%nat
       = Some (MetaExecLib.VInt
                 match MetaExecLib.deadline a, MetaExecLib.deadlineSec a with
                 | Some d, _ => d
                 | None, (None | Some 0) => MetaExecLib.now env / 1000 + 600
                 | None, Some sec => MetaExecLib.now env / 1000 + sec
                 end).
Proof.
  intros env a p. unfold MetaExecLib.prepareForward.
  destruct (MetaExecLib.nonce a) as [n|]; [|done].
  destruct (MetaExecLib.callData a) as [cd|]; [|done].
  destruct (str_eqb cd EmptyString || str_eqb cd "0x"); [done|].
  destruct (MetaExecLib.getNetwork env) as [chainId|]; [|done].
  destruct (MetaExecLib.getAddress env _) as [metaAddr|]; [|done].
  destruct (MetaExecLib.keccak256 env cd) as [h|] eqn:Hk; [|done].
  intros [= <-]. cbv zeta. simpl.
  destruct (default true (MetaExecLib.hasCaller a)); simpl;
    (split_and?; try done; [by exists cd|]);
    destruct (MetaExecLib.deadline a), (MetaExecLib.deadlineSec a) as [[| |]|]; done.
Qed.

(** A forward for the sample call data, with [deadlineSec] = 0. *)
Lemma prepareForward_consistent_witness :
  let env := MetaExecLib.mkEnv (Ok 80002) (fun a => Ok a) Sample.keccak256 1000000 in
  let a := MetaExecLib.mkPrepareArgs "0xHub" None None None "0xUser" "0xNFT" None None
             (Some 7) None (Some 0) (Some "0x1234") (MetaExecLib.VStr "0xRelayer") in
  exists p,
    MetaExecLib.prepareForward env a = Ok p
    /\ MetaExecLib.fTuple p !! 5%nat = Some (MetaExecLib.VInt 1600)
    /\ last (MetaExecLib.fTuple p) = Some (MetaExecLib.VStr "0xRelayer").
Proof.
  intros env a.
  destruct (MetaExecLib.prepareForward env a) as [p|] eqn:Hp; [|by vm_compute in Hp].
  exists p. split; [done|].
  destruct (prepareForward_consistent env a p Hp) as (_ & _ & _ & Hlast & _ & Hd).
  split; [exact Hd|]. by apply Hlast.
Defined.

(** ** meta-exec-lib: the deployed address *)

(** X22: [getDeployedAddress] returns the [deployed] argument of the first log
    of the receipt that parses as a ContractDeployed event, and null when
    there is none; a log that [parseLog] cannot parse (null or a throw) or
    parses as another event is passed over and never makes the function
    throw. *)
Theorem getDeployedAddress_first_match :
  forall (Log : Type) (parseLog : Log -> Result (option MetaExecLib.ParsedLog))
         (logs : list Log),
    let isDeploy l :=
      exists p, parseLog l = Ok (Some p)
                /\ MetaExecLib.eventName p = "ContractDeployed" in
    (forall address,
       MetaExecLib.getDeployedAddress parseLog logs = Some address <->
       exists pre l post p,
         logs = pre ++ l :: post
         /\ Forall (fun l' => ~ isDeploy l') pre
         /\ parseLog l = Ok (Some p)
         /\ MetaExecLib.eventName p = "ContractDeployed"
         /\ MetaExecLib.deployed p = address)
    /\ (MetaExecLib.getDeployedAddress parseLog logs = None <->
        Forall (fun l => ~ isDeploy l) logs).
Proof.
  intros Log parseLog logs isDeploy.
  assert (Hstep : forall l, isDeploy l \/ ~ isDeploy l).
  { intros l. unfold isDeploy. destruct (parseLog l) as [[p|]|]; [|right; naive_solver..].
    destruct (decide (MetaExecLib.eventName p = "ContractDeployed"));
      [left; by exists p|right; naive_solver]. }
  induction logs as [|l logs [IHs IHn]].
  - split; [|done]. intros address. split; [done|].
    intros (pre & l & post & p & Heq & _). by destruct pre.
  - rewrite getDeployedAddress_cons. split.
    + intros address. split.
      * destruct (parseLog l) as [[p|]|] eqn:Hl.
        -- destruct (str_eqb _ _) eqn:Hn.
           ++ intros [= <-]. exists [], l, logs, p. bools. by split_and?.
           ++ intros (pre & l' & post & p' & Heq & Hpre & Hl' & Hn' & Ha)%IHs.
              exists (l :: pre), l', post, p'.
              split_and?; [by rewrite Heq| |done..].
              constructor; [|done]. intros (q & Hq & Hqn). bools. congruence.
        -- intros (pre & l' & post & p' & Heq & Hpre & Hl' & Hn' & Ha)%IHs.
           exists (l :: pre), l', post, p'.
           split_and?; [by rewrite Heq| |done..].
           constructor; [|done]. intros (q & Hq & Hqn). congruence.
        -- intros (pre & l' & post & p' & Heq & Hpre & Hl' & Hn' & Ha)%IHs.
           exists (l :: pre), l', post, p'.
           split_and?; [by rewrite Heq| |done..].
           constructor; [|done]. intros (q & Hq & Hqn). congruence.
      * intros (pre & l' & post & p & Heq & Hpre & Hl' & Hn & Ha).
        destruct pre as [|l0 pre]; simplify_eq/=.
        -- rewrite Hl'. apply str_eqb_eq in Hn. by rewrite Hn.
        -- apply Forall_cons in Hpre as [Hl0 Hpre].
           assert (Hrest : MetaExecLib.getDeployedAddress parseLog (pre ++ l' :: post)
                           = Some (MetaExecLib.deployed p)).
           { apply IHs. by exists pre, l', post, p. }
           destruct (parseLog l0) as [[q|]|] eqn:Hq; try done.
           destruct (str_eqb _ _) eqn:Hqn; [|done]. bools.
           exfalso. apply Hl0. by exists q.
    + split.
      * intros Hnone. constructor.
        -- intros (p & Hp & Hn). rewrite Hp in Hnone. apply str_eqb_eq in Hn.
           by rewrite Hn in Hnone.
        -- apply IHn. destruct (parseLog l) as [[p|]|]; try done.
           by destruct (str_eqb _ _).
      * intros [Hl Hrest]%Forall_cons. apply IHn in Hrest.
        destruct (parseLog l) as [[p|]|] eqn:Hp; try done.
        destruct (str_eqb _ _) eqn:Hn; [|done]. bools. exfalso. apply Hl. by exists p.
Qed.

(** A receipt with a log of another contract and two deployments. *)
Lemma getDeployedAddress_first_match_witness :
  let parseLog (l : nat) : Result (option MetaExecLib.ParsedLog) :=
    match l with
    | 0%nat => Err "data out-of-bounds"
    | 1%nat => Ok (Some (MetaExecLib.mkParsedLog "ContractDeployed" "0xFirst"))
    | 2%nat => Ok (Some (MetaExecLib.mkParsedLog "ContractDeployed" "0xSecond"))
    | _ => Ok None
    end in
  MetaExecLib.getDeployedAddress parseLog [5; 0; 1; 2]%nat = Some "0xFirst".
Proof.
  intros parseLog.
  apply (proj1 (getDeployedAddress_first_match nat parseLog [5; 0; 1; 2]%nat)).
  exists [5; 0]%nat, 1%nat, [2%nat], (MetaExecLib.mkParsedLog "ContractDeployed" "0xFirst").
  split_and?; try done.
  repeat (constructor; [by intros (p & Hp & _)|]). constructor.
Defined.

(** ** meta-exec-lib: the options of executeForward *)

(** X23: [executeForward] with its options: it sends at most one transaction and
    does not touch the server's store; a gas limit given in the overrides
    (also 0) is used as it is and no estimate is asked for; the hub's
    allowlist is asked only when both [checkAllowlist] and [hasCaller] are
    set, and then a caller who is not allowed makes it throw "Caller ... not
    allowed" before any estimate or transaction. *)
Theorem executeForward_options :
  forall fTuple overrides hasCaller checkAllowlist w s,
    let run := Js.executeForward fTuple overrides hasCaller checkAllowlist w s in
    run.1.1 = s
    /\ (length (submissions run.1.2) <= 1)%nat
    /\ (forall g, Js.gasLimit overrides = Some g ->
          ~ In EvEstimateGas run.1.2 /\ forall g', In (EvSubmit g') run.1.2 -> g' = g)
    /\ (checkAllowlist && hasCaller = false ->
        forall allowed,
          Js.executeForward fTuple overrides hasCaller checkAllowlist
            (Js.mkWorld (Js.clock w) (Js.minted w) (Js.gasPrice w) (Js.execData w)
               allowed (Js.estimateGas w) (Js.sendTransaction w) (Js.markClock w)
               (Js.waitTime w) (Js.wait w)) s
          = run)
    /\ (checkAllowlist && hasCaller = true ->
        Js.callerAllowed w = Ok false ->
        forall data, Js.execData w = Ok data -> data <> EmptyString -> data <> "0x" ->
        run = (s, [EvExecutor],
               Throw ("Caller " +:+ Js.caller fTuple +:+ " not allowed"))).
Proof.
  intros fTuple overrides hasCaller checkAllowlist w s run. unfold run. clear run.
  unfold Js.executeForward. cbv [bind ret respond throw emit await]. simpl.
  split_and?.
  - crunch; done.
  - crunch; simpl; lia.
  - intros g ->. split.
    + crunch; simpl; naive_solver.
    + intros g'. crunch; simpl; naive_solver.
  - intros -> allowed. done.
  - intros -> -> data -> Hne Hne0. apply str_eqb_neq in Hne, Hne0.
    by rewrite Hne, Hne0.
Qed.

(** A relayer the hub does not allow, and a gas limit given by the
    caller. *)
Lemma executeForward_options_witness :
  let refused := Js.mkWorld 1000000 (Ok false) (Ok (Some 30)) (Ok "0xdata") (Ok false)
                   (Ok 100000) (Ok "0xtx") 1000500 3000 (Ok (mkReceipt 5 21000 1)) in
  Js.executeForward Sample.fwd (Js.mkOverrides None) true true refused Js.emptyStore
  = (Js.emptyStore, [EvExecutor], Throw "Caller 0xrelayer not allowed")
  /\ ~ In EvEstimateGas
         (Js.executeForward Sample.fwd (Js.mkOverrides (Some 0)) true true Sample.world
            Js.emptyStore).1.2.
Proof.
  intros refused. split.
  - apply (proj2 (proj2 (proj2 (proj2
             (executeForward_options Sample.fwd (Js.mkOverrides None) true true refused
                Js.emptyStore)))) eq_refl eq_refl "0xdata" eq_refl); done.
  - apply (proj1 (proj2 (proj2
             (executeForward_options Sample.fwd (Js.mkOverrides (Some 0)) true true
                Sample.world Js.emptyStore))) 0 eq_refl).
Defined.

(** ** The web app and the relayer *)

(** X24: A request as the web app's [mintNFT] builds it gets past every check
    of the synchronous prefix of relayer-server.js and on to the
    already-minted probe, when the server is configured with the app's NFT
    contract and runs with the relayer address the app names as caller (in
    any letter case), the sender is within the rate limit, the key of the
    request is not in the processed set, and the server's clock is not more
    than a day ahead of the client's: the hash the client computed is the
    one the server computes for the same call data. *)
Theorem frontend_request_passes_gates :
  forall keccak256 CONFIG userAddress callData signature nonceNow deadlineNow req w s,
    Frontend.mintRequest keccak256 userAddress callData signature nonceNow deadlineNow
      = Ok req ->
    toLowerCase Frontend.NFT_CONTRACT = toLowerCase (Js.NFT_CONTRACT CONFIG) ->
    toLowerCase Frontend.CALLER = toLowerCase (Js.relayerAddress CONFIG) ->
    signature <> EmptyString -> callData <> EmptyString ->
    0 <= deadlineNow <= 8000000000000000 ->
    (Js.checkRateLimit userAddress (Js.clock w) (Js.rateLimits s)).1 = true ->
    userAddress +:+ "-" +:+ pretty nonceNow ∉ Js.processedRequests s ->
    Js.clock w / 1000 <= deadlineNow / 1000 + 86400 ->
    exists fwd,
      Js.forward req = Some fwd
      /\ Js.passesGates keccak256 CONFIG req fwd w s
      /\ In (EvProbe userAddress) (Js.relay keccak256 CONFIG req w s).1.2.
Proof.
  intros keccak256 CONFIG user cd sg n d req w s Hreq Hto Hcaller Hsg Hcd Hd Hrl Hnew
    Hclock.
  unfold Frontend.mintRequest in Hreq.
  destruct (keccak256 cd) as [h|] eqn:Hk; [|done]. injection Hreq as <-.
  eexists. split; [done|].
  assert (Hp : Js.passesGates keccak256 CONFIG
                 (Js.mkRequest
                    (Some (Js.mkForward user Frontend.NFT_CONTRACT "0" "111" (pretty n)
                             (d / 1000 + 86400) h Frontend.CALLER)) sg cd)
                 (Js.mkForward user Frontend.NFT_CONTRACT "0" "111" (pretty n)
                    (d / 1000 + 86400) h Frontend.CALLER) w s).
  { unfold Js.passesGates, Js.reachesDeadlineGate, Js.reachesHashGate, Js.wellFormed.
    simpl. split_and?; try done.
    - assert (0 <= d / 1000) by (apply Z.div_pos; lia).
      assert (d / 1000 <= 8000000000000) by (apply Z.div_le_upper_bound; lia). lia.
    - assert (0 <= d / 1000) by (apply Z.div_pos; lia).
      assert (d / 1000 <= 8000000000000) by (apply Z.div_le_upper_bound; lia). lia.
    - exists h. split; [done|]. by right. }
  split; [done|].
  rewrite (js_relay_admitted _ _ _ _ _ _ Hp).
  destruct (js_submitAndMark_cases
              (Js.mkForward user Frontend.NFT_CONTRACT "0" "111" (pretty n)
                 (d / 1000 + 86400) h Frontend.CALLER) w
              (Js.limited (Js.mkForward user Frontend.NFT_CONTRACT "0" "111" (pretty n)
                             (d / 1000 + 86400) h Frontend.CALLER) (Js.clock w) s))
    as [H|[H|[_ [H|[H|[_ [H|[H|[H|H]]]]]]]]];
    repeat match type of H with
           | ex _ => destruct H as [? H]
           | _ /\ _ => destruct H as [_ H]
           end; cbv zeta in H; rewrite H; simpl; rewrite ?in_app_iff; simpl; tauto.
Qed.

(** A mint request from the app, served by a relayer configured for it. *)
Lemma frontend_request_passes_gates_witness :
  let CONFIG := Js.mkConfig Frontend.HUB_CONTRACT
                  "0x0f835e9947f15a799eb173fefe39f572279fa7ac"
                  "0xa7293f15a7c1cf346aafd603a8d0e1bc681d7b45" in
  let req := Js.mkRequest
               (Some (Js.mkForward "0xUser" Frontend.NFT_CONTRACT "0" "111" "999000"
                        87399 "0xabcd" Frontend.CALLER)) "0xsig" "0x1234" in
  exists fwd,
    Js.forward req = Some fwd
    /\ Js.passesGates Sample.keccak256 CONFIG req fwd Sample.world Js.emptyStore
    /\ In (EvProbe "0xUser")
          (Js.relay Sample.keccak256 CONFIG req Sample.world Js.emptyStore).1.2.
Proof.
  intros CONFIG req.
  apply (frontend_request_passes_gates Sample.keccak256 CONFIG "0xUser" "0x1234" "0xsig"
           999000 999500 req Sample.world Js.emptyStore); done.
Defined.

(** ** Requests of different senders in flight together *)

Lemma js_check_sameFor a now l1 l2 :
  l1 !! a = l2 !! a ->
  (Js.checkRateLimit a now l1).1 = (Js.checkRateLimit a now l2).1
  /\ (Js.checkRateLimit a now l1).2 !! a = (Js.checkRateLimit a now l2).2 !! a.
Proof.
  intros H. rewrite !js_check_eq. simpl. rewrite H.
  case_bool_decide; simpl; [done|]. by rewrite !lookup_insert_eq.
Qed.

Lemma js_sameFor_refl a k s : Js.sameFor a k s s.
Proof. by split. Qed.

Lemma js_sameFor_trans a k s1 s2 s3 :
  Js.sameFor a k s1 s2 -> Js.sameFor a k s2 s3 -> Js.sameFor a k s1 s3.
Proof. intros [H1 H2] [H3 H4]. split; [congruence|tauto]. Qed.

Lemma js_submitAndMark_store fwd w s :
  Js.submitAndMark fwd w s
  = match Js.submitAndMark fwd w Js.emptyStore with
    | (_, t, Next tx) => (Js.marked fwd (Js.markClock w) s, t, Next tx)
    | (_, t, o) => (s, t, o)
    end.
Proof.
  unfold Js.marked. js_run. simpl.
  destruct (Js.minted w) as [[|]|]; simpl; [done| |done].
  destruct (Js.gasPrice w) as [[p|]|]; simpl; [| |done].
  - destruct (Js.MAX_GAS_PRICE <? p); simpl; [done|].
    destruct (Js.execData w) as [d|]; simpl; [|done].
    destruct (str_eqb d EmptyString || str_eqb d "0x"); simpl; [done|].
    destruct (Js.callerAllowed w) as [[|]|]; simpl; [|done..].
    destruct (Js.estimateGas w) as [g|]; simpl; [|done].
    by destruct (Js.sendTransaction w) as [tx|].
  - destruct (Js.execData w) as [d|]; simpl; [|done].
    destruct (str_eqb d EmptyString || str_eqb d "0x"); simpl; [done|].
    destruct (Js.callerAllowed w) as [[|]|]; simpl; [|done..].
    destruct (Js.estimateGas w) as [g|]; simpl; [|done].
    by destruct (Js.sendTransaction w) as [tx|].
Qed.

Section JsIsolation.
Variable keccak256 : string -> Result string.
Variable CONFIG : Js.Config.

Lemma js_admission_sameFor req f now s s2 :
  Js.forward req = Some f ->
  Js.sameFor (Js.from f) (Js.requestId f) s s2 ->
  (Js.admission keccak256 CONFIG req now s).1.2
  = (Js.admission keccak256 CONFIG req now s2).1.2
  /\ (Js.admission keccak256 CONFIG req now s).2
     = (Js.admission keccak256 CONFIG req now s2).2
  /\ Js.sameFor (Js.from f) (Js.requestId f)
       (Js.admission keccak256 CONFIG req now s).1.1
       (Js.admission keccak256 CONFIG req now s2).1.1.
Proof.
  intros Hf [Hrl Hdup]. js_run. rewrite Hf.
  destruct (str_eqb (Js.signature req) EmptyString || str_eqb (Js.callData req) EmptyString);
    simpl; [by split_and?|].
  case_bool_decide as Hd; simpl; [|by split_and?].
  destruct (js_check_sameFor (Js.from f) now _ _ Hrl) as [H1 H2].
  destruct (Js.checkRateLimit (Js.from f) now (Js.rateLimits s)) as [ok g].
  destruct (Js.checkRateLimit (Js.from f) now (Js.rateLimits s2)) as [ok2 g2].
  simpl in *. subst ok2. destruct ok; simpl; [|by split_and?].
  rewrite (bool_decide_ext _ _ Hdup).
  case_bool_decide; simpl; [by split_and?|].
  crunch; by split_and?.
Qed.

Lemma js_admission_frame req f now s a k :
  Js.forward req = Some f -> a <> Js.from f ->
  Js.sameFor a k (Js.admission keccak256 CONFIG req now s).1.1 s.
Proof.
  intros Hf Hne.
  destruct (Js.admission keccak256 CONFIG req now s) as [[s1 t1] o1] eqn:Ha.
  pose proof (js_admission_inv _ _ _ _ _ _ _ _ Ha) as (_ & Hp & _ & _).
  destruct (js_admission_store keccak256 CONFIG req now s) as [Hwf Hnot].
  rewrite Ha in Hwf, Hnot. simpl in *. split; [|by rewrite Hp].
  destruct (js_wellFormed_dec req) as [[fwd H]|H].
  - rewrite (Hwf fwd H). destruct H as (Hf' & _). rewrite Hf in Hf'.
    injection Hf' as <-. unfold Js.limited. simpl.
    by apply (check_other 60000 5 _ js_check_eq).
  - by rewrite (Hnot H).
Qed.

Lemma js_threadStep_sameFor req f w th s s2 s' th' :
  Js.forward req = Some f ->
  Js.sameFor (Js.from f) (Js.requestId f) s s2 ->
  (forall fwd, Js.phase th = Js.InFlight fwd -> fwd = f) ->
  Js.threadStep keccak256 CONFIG req w th s = Some (s', th') ->
  exists s2',
    Js.threadStep keccak256 CONFIG req w th s2 = Some (s2', th')
    /\ Js.sameFor (Js.from f) (Js.requestId f) s' s2'
    /\ (forall fwd, Js.phase th' = Js.InFlight fwd -> fwd = f).
Proof.
  intros Hf Hsame Hph. unfold Js.threadStep.
  destruct th as [ph lg]. simpl in *. destruct ph as [|fwd|tx|r]; [| | |done].
  - destruct (js_admission_sameFor req f (Js.clock w) s s2 Hf Hsame) as (Ht & Ho & Hs).
    destruct (Js.admission keccak256 CONFIG req (Js.clock w) s) as [[s1 t1] o1] eqn:Ha.
    destruct (Js.admission keccak256 CONFIG req (Js.clock w) s2) as [[s3 t3] o3].
    simpl in *. subst t3 o3.
    pose proof (js_admission_inv _ _ _ _ _ _ _ _ Ha) as (_ & _ & _ & Hn).
    destruct o1 as [fwd|r|m]; simpl; intros [= <- <-]; (eexists; split; [done|]);
      simpl; (split; [done|]); intros fwd' [= <-].
    destruct (Hn fwd eq_refl) as ([[(Hf' & _) _] _] & _). congruence.
  - rewrite (Hph fwd eq_refl). rewrite (js_submitAndMark_store f w s).
    rewrite (js_submitAndMark_store f w s2).
    destruct (Js.submitAndMark f w Js.emptyStore) as [[s1 t1] [tx|r|m]]; simpl;
      intros [= <- <-]; (eexists; split; [done|]); (split; [|done]).
    2-3: exact Hsame.
    destruct Hsame as [Hrl Hdup]. split; simpl; [done|]. set_solver.
  - unfold Js.confirmation. cbv [bind ret emit await].
    destruct (Js.wait w) as [r|m]; simpl; intros [= <- <-];
      (eexists; split; [done|]); (split; [done|]); done.
Qed.

Lemma js_threadStep_frame req f w th s s' th' a k :
  Js.forward req = Some f ->
  (forall fwd, Js.phase th = Js.InFlight fwd -> fwd = f) ->
  a <> Js.from f -> k <> Js.requestId f ->
  Js.threadStep keccak256 CONFIG req w th s = Some (s', th') ->
  Js.sameFor a k s' s.
Proof.
  intros Hf Hph Ha Hk. unfold Js.threadStep.
  destruct th as [ph lg]. simpl in *. destruct ph as [|fwd|tx|r]; [| | |done].
  - pose proof (js_admission_frame req f (Js.clock w) s a k Hf Ha) as Hfr.
    destruct (Js.admission keccak256 CONFIG req (Js.clock w) s) as [[s1 t1] o1].
    simpl in *. destruct o1; intros [= <- <-]; done.
  - rewrite (Hph fwd eq_refl). rewrite (js_submitAndMark_store f w s).
    destruct (Js.submitAndMark f w Js.emptyStore) as [[s1 t1] [tx|r|m]]; simpl;
      intros [= <- <-]; [|apply js_sameFor_refl..].
    split; simpl; [done|]. set_solver.
  - unfold Js.confirmation. cbv [bind ret emit await].
    destruct (Js.wait w) as [r|m]; simpl; intros [= <- <-]; apply js_sameFor_refl.
Qed.

Lemma js_soloRun_step req w n s s' th' :
  Js.threadStep keccak256 CONFIG req w (Js.soloRun keccak256 CONFIG req w n s).2
    (Js.soloRun keccak256 CONFIG req w n s).1 = Some (s', th') ->
  Js.soloRun keccak256 CONFIG req w (S n) s = (s', th').
Proof. intros H. cbn [Js.soloRun]. cbv zeta. by rewrite H. Qed.

(** What holds of two requests of different senders and keys however their
    steps interleave. *)
Lemma js_isolation req1 w1 req2 w2 f1 f2 s0 sys :
  Js.forward req1 = Some f1 -> Js.forward req2 = Some f2 ->
  Js.from f1 <> Js.from f2 -> Js.requestId f1 <> Js.requestId f2 ->
  rtc (Js.sys_step keccak256 CONFIG (req1, w1) (req2, w2))
      (Js.mkSystem s0 Js.newThread Js.newThread) sys ->
  (exists n, Js.first sys = (Js.soloRun keccak256 CONFIG req1 w1 n s0).2
             /\ Js.sameFor (Js.from f1) (Js.requestId f1) (Js.store sys)
                  (Js.soloRun keccak256 CONFIG req1 w1 n s0).1
             /\ forall fwd, Js.phase (Js.first sys) = Js.InFlight fwd -> fwd = f1)
  /\ (exists n, Js.second sys = (Js.soloRun keccak256 CONFIG req2 w2 n s0).2
                /\ Js.sameFor (Js.from f2) (Js.requestId f2) (Js.store sys)
                     (Js.soloRun keccak256 CONFIG req2 w2 n s0).1
                /\ forall fwd, Js.phase (Js.second sys) = Js.InFlight fwd -> fwd = f2).
Proof.
  intros Hf1 Hf2 Hfrom Hkey. revert sys. apply rtc_ind_r.
  - split; exists 0%nat; (split_and?; [done|apply js_sameFor_refl|done]).
  - intros sys sys' _ [who Hstep] [(n1 & H1 & Hs1 & Hp1) (n2 & H2 & Hs2 & Hp2)].
    unfold Js.sysStep in Hstep. destruct who; simpl in Hstep.
    + destruct (Js.threadStep keccak256 CONFIG req1 w1 (Js.first sys) (Js.store sys))
        as [[s' th']|] eqn:Ht; [|done]. injection Hstep as <-. simpl.
      destruct (js_threadStep_sameFor _ _ _ _ _ _ _ _ Hf1 Hs1 Hp1 Ht)
        as (s2' & Ht2 & Hs' & Hp').
      split.
      * exists (S n1). rewrite H1 in Ht2.
        rewrite (js_soloRun_step _ _ _ _ _ _ Ht2). by split_and?.
      * exists n2. split_and?; try done.
        eapply js_sameFor_trans; [|exact Hs2].
        eapply js_threadStep_frame; [exact Hf1|exact Hp1|done|done|exact Ht].
    + destruct (Js.threadStep keccak256 CONFIG req2 w2 (Js.second sys) (Js.store sys))
        as [[s' th']|] eqn:Ht; [|done]. injection Hstep as <-. simpl.
      destruct (js_threadStep_sameFor _ _ _ _ _ _ _ _ Hf2 Hs2 Hp2 Ht)
        as (s2' & Ht2 & Hs' & Hp').
      split.
      * exists n1. split_and?; try done.
        eapply js_sameFor_trans; [|exact Hs1].
        eapply js_threadStep_frame; [exact Hf2|exact Hp2|done|done|exact Ht].
      * exists (S n2). rewrite H2 in Ht2.
        rewrite (js_soloRun_step _ _ _ _ _ _ Ht2). by split_and?.
Qed.
End JsIsolation.

Lemma go_check_sameFor a now l1 l2 :
  l1 !! a = l2 !! a ->
  (Go.checkRateLimit a now l1).1 = (Go.checkRateLimit a now l2).1
  /\ (Go.checkRateLimit a now l1).2 !! a = (Go.checkRateLimit a now l2).2 !! a.
Proof.
  intros H. rewrite !go_check_eq. simpl. rewrite H.
  case_bool_decide; simpl; [done|]. by rewrite !lookup_insert_eq.
Qed.

Lemma go_sameFor_refl a k s : Go.sameFor a k s s.
Proof. by split. Qed.

Lemma go_sameFor_trans a k s1 s2 s3 :
  Go.sameFor a k s1 s2 -> Go.sameFor a k s2 s3 -> Go.sameFor a k s1 s3.
Proof. intros [H1 H2] [H3 H4]. split; [congruence|tauto]. Qed.

(** [executeMetaTransaction] and [execution] neither read nor write the
    store. *)
Lemma go_execute_parametric req w s :
  Go.executeMetaTransaction req w s
  = (s, (Go.executeMetaTransaction req w Go.emptyStore).1.2,
     (Go.executeMetaTransaction req w Go.emptyStore).2).
Proof.
  go_run. simpl.
  destruct (Go.DecodeString (Go.TrimPrefix (Go.Signature req) "0x")); simpl; [|done].
  destruct (Go.DecodeString (Go.TrimPrefix (Go.CallData req) "0x")); simpl; [|done].
  destruct (Go.packed w); simpl; [|done].
  destruct (Go.pendingNonce w); simpl; [|done].
  destruct (Go.suggestGasPrice w); simpl; [|done].
  destruct (Go.signTx w) as [tx|]; simpl; [|done].
  destruct (Go.sendTransaction w) as [[]|]; simpl; [|done].
  destruct (Go.waitForReceipt _ _) as [[[? ?] [r|m]]|]; simpl; try done.
  by destruct (status r =? 0).
Qed.

Lemma go_execution_parametric config req w s :
  Go.execution config req w s
  = (s, (Go.execution config req w Go.emptyStore).1.2,
     (Go.execution config req w Go.emptyStore).2).
Proof.
  pose proof (go_execute_parametric req w s) as He.
  destruct (Go.executeMetaTransaction req w s) as [[s1 t1] o1] eqn:Hs.
  destruct (Go.executeMetaTransaction req w Go.emptyStore) as [[s2 t2] o2] eqn:Hs2.
  simpl in He. injection He as -> -> ->.
  unfold Go.execution, Go.checkAlreadyMinted, Go.try, Go.sendError.
  cbv [bind ret respond throw emit await].
  destruct (Go.mintedCall w) as [[|]|m]; cbn [fst snd app]; [done| |done].
  destruct (Go.feeCheck w) as [p|m]; cbn [fst snd app].
  - destruct (Go.MaxGasPrice config <? p); cbn [fst snd app]; [done|].
    rewrite Hs, Hs2. by destruct o2.
  - rewrite Hs, Hs2. by destruct o2.
Qed.

Section GoIsolation.
Variable Keccak256Hash : list byte -> list byte.
Variable config : Go.Config.

Lemma go_gates_sameFor req w s s2 a :
  Go.sameFor a (Go.requestID (Go.Forward_ req)) s s2 ->
  (Go.gates Keccak256Hash config req w s).1.2
  = (Go.gates Keccak256Hash config req w s2).1.2
  /\ (Go.gates Keccak256Hash config req w s).2
     = (Go.gates Keccak256Hash config req w s2).2
  /\ (Go.gates Keccak256Hash config req w s).1.1 = s.
Proof.
  intros [_ Hdup]. go_run. rewrite (bool_decide_ext _ _ Hdup).
  case_bool_decide; simpl; [done|]. crunch; done.
Qed.

Lemma go_threadStep_sameFor req0 w th s s2 s' th' :
  Go.sameFor (Go.From (Go.Forward_ req0)) (Go.requestID (Go.Forward_ req0)) s s2 ->
  Go.carries req0 th ->
  Go.threadStep Keccak256Hash config (Ok req0) w th s = Some (s', th') ->
  exists s2',
    Go.threadStep Keccak256Hash config (Ok req0) w th s2 = Some (s2', th')
    /\ Go.sameFor (Go.From (Go.Forward_ req0)) (Go.requestID (Go.Forward_ req0)) s' s2'
    /\ Go.carries req0 th'.
Proof.
  intros Hsame Hc. unfold Go.threadStep, Go.carries in *.
  destruct th as [ph lg]. cbn [Go.phase Go.log] in *.
  destruct ph as [|req|req|req c|r]; [| | | |done].
  - rewrite !go_arrival_cases.
    destruct (str_eqb (Go.Signature req0) EmptyString
              || str_eqb (Go.CallData req0) EmptyString); simpl.
    { intros [= <- <-]. by eexists. }
    destruct Hsame as [Hrl Hdup].
    destruct (go_check_sameFor (Go.From (Go.Forward_ req0)) (Go.rateClock w) _ _ Hrl)
      as [H1 H2].
    unfold Go.limited. rewrite <- H1.
    destruct (Go.checkRateLimit _ _ (Go.requests s)).1; simpl; intros [= <- <-];
      (eexists; split; [done|]); by split.
  - subst req. destruct (go_gates_sameFor req0 w s s2 _ Hsame) as (Ht & Ho & Hs).
    pose proof (go_gates_sameFor req0 w s2 s2 _
                  (go_sameFor_refl (Go.From (Go.Forward_ req0)) _ _)) as (_ & _ & Hs2).
    destruct (Go.gates Keccak256Hash config req0 w s) as [[s1 t1] o1].
    destruct (Go.gates Keccak256Hash config req0 w s2) as [[s3 t3] o3].
    simpl in *. subst. destruct o3; simpl; intros [= <- <-];
      (eexists; split; [done|]); by split.
  - subst req. rewrite (go_execution_parametric config req0 w s).
    rewrite (go_execution_parametric config req0 w s2).
    destruct (Go.execution config req0 w Go.emptyStore) as [[s1 t1] o1]. simpl.
    destruct o1; simpl; intros [= <- <-]; (eexists; split; [done|]); by split.
  - subst req. unfold Go.completion, Go.markProcessed. cbv [bind ret].
    simpl. intros [= <- <-]. eexists. split; [done|]. split; [|done].
    destruct Hsame as [Hrl Hdup]. split; simpl; [done|].
    rewrite !lookup_insert_eq. split; by eexists.
Qed.

Lemma go_threadStep_frame req0 w th s s' th' a k :
  Go.carries req0 th ->
  a <> Go.From (Go.Forward_ req0) -> k <> Go.requestID (Go.Forward_ req0) ->
  Go.threadStep Keccak256Hash config (Ok req0) w th s = Some (s', th') ->
  Go.sameFor a k s' s.
Proof.
  intros Hc Ha Hk. unfold Go.threadStep, Go.carries in *.
  destruct th as [ph lg]. cbn [Go.phase Go.log] in *.
  destruct ph as [|req|req|req c|r]; [| | | |done].
  - rewrite go_arrival_cases.
    destruct (str_eqb (Go.Signature req0) EmptyString
              || str_eqb (Go.CallData req0) EmptyString); simpl.
    { intros [= <- <-]. apply go_sameFor_refl. }
    assert (Hfr : Go.sameFor a k
                    (Go.limited (Go.From (Go.Forward_ req0)) (Go.rateClock w) s) s).
    { split; [|done]. unfold Go.limited. simpl.
      by apply (check_other 60 5 _ go_check_eq). }
    destruct (Go.checkRateLimit _ _ (Go.requests s)).1; simpl; by intros [= <- <-].
  - subst req.
    pose proof (go_gates_sameFor req0 w s s _ (go_sameFor_refl (Go.From (Go.Forward_ req0)) _ _))
      as (_ & _ & Hs).
    destruct (Go.gates Keccak256Hash config req0 w s) as [[s1 t1] o1].
    simpl in *. subst. destruct o1; simpl; intros [= <- <-]; apply go_sameFor_refl.
  - subst req. rewrite (go_execution_parametric config req0 w s).
    destruct (Go.execution config req0 w Go.emptyStore) as [[s1 t1] o1]. simpl.
    destruct o1; simpl; intros [= <- <-]; apply go_sameFor_refl.
  - subst req. unfold Go.completion, Go.markProcessed. cbv [bind ret].
    simpl. intros [= <- <-]. split; simpl; [done|].
    by rewrite lookup_insert_ne.
Qed.

Lemma go_soloRun_step body w n s s' th' :
  Go.threadStep Keccak256Hash config body w
    (Go.soloRun Keccak256Hash config body w n s).2
    (Go.soloRun Keccak256Hash config body w n s).1 = Some (s', th') ->
  Go.soloRun Keccak256Hash config body w (S n) s = (s', th').
Proof. intros H. cbn [Go.soloRun]. cbv zeta. by rewrite H. Qed.

Lemma go_isolation req1 w1 req2 w2 s0 sys :
  Go.From (Go.Forward_ req1) <> Go.From (Go.Forward_ req2) ->
  Go.requestID (Go.Forward_ req1) <> Go.requestID (Go.Forward_ req2) ->
  rtc (Go.sys_step Keccak256Hash config (Ok req1, w1) (Ok req2, w2))
      (Go.mkSystem s0 Go.newThread Go.newThread) sys ->
  (exists n, Go.first sys = (Go.soloRun Keccak256Hash config (Ok req1) w1 n s0).2
             /\ Go.sameFor (Go.From (Go.Forward_ req1))
                  (Go.requestID (Go.Forward_ req1)) (Go.store sys)
                  (Go.soloRun Keccak256Hash config (Ok req1) w1 n s0).1
             /\ Go.carries req1 (Go.first sys))
  /\ (exists n, Go.second sys = (Go.soloRun Keccak256Hash config (Ok req2) w2 n s0).2
                /\ Go.sameFor (Go.From (Go.Forward_ req2))
                     (Go.requestID (Go.Forward_ req2)) (Go.store sys)
                     (Go.soloRun Keccak256Hash config (Ok req2) w2 n s0).1
                /\ Go.carries req2 (Go.second sys)).
Proof.
  intros Hfrom Hkey. revert sys. apply rtc_ind_r.
  - split; exists 0%nat; (split_and?; [done|apply go_sameFor_refl|done]).
  - intros sys sys' _ [who Hstep] [(n1 & H1 & Hs1 & Hp1) (n2 & H2 & Hs2 & Hp2)].
    unfold Go.sysStep in Hstep. destruct who; simpl in Hstep.
    + destruct (Go.threadStep Keccak256Hash config (Ok req1) w1 (Go.first sys)
                  (Go.store sys)) as [[s' th']|] eqn:Ht; [|done].
      injection Hstep as <-. simpl.
      destruct (go_threadStep_sameFor _ _ _ _ _ _ _ Hs1 Hp1 Ht) as (s2' & Ht2 & Hs' & Hp').
      split.
      * exists (S n1). rewrite H1 in Ht2.
        rewrite (go_soloRun_step _ _ _ _ _ _ Ht2). by split_and?.
      * exists n2. split_and?; try done.
        eapply go_sameFor_trans; [|exact Hs2].
        eapply go_threadStep_frame; [exact Hp1|done|done|exact Ht].
    + destruct (Go.threadStep Keccak256Hash config (Ok req2) w2 (Go.second sys)
                  (Go.store sys)) as [[s' th']|] eqn:Ht; [|done].
      injection Hstep as <-. simpl.
      destruct (go_threadStep_sameFor _ _ _ _ _ _ _ Hs2 Hp2 Ht) as (s2' & Ht2 & Hs' & Hp').
      split.
      * exists n1. split_and?; try done.
        eapply go_sameFor_trans; [|exact Hs1].
        eapply go_threadStep_frame; [exact Hp2|done|done|exact Ht].
      * exists (S n2). rewrite H2 in Ht2.
        rewrite (go_soloRun_step _ _ _ _ _ _ Ht2). by split_and?.
Qed.
End GoIsolation.

(** A request served on its own ends with the answer of the handler. *)
Section JsSolo.
Variable keccak256 : string -> Result string.
Variable CONFIG : Js.Config.

Lemma js_soloRun_S req w n s :
  Js.soloRun keccak256 CONFIG req w (S n) s
  = default (Js.soloRun keccak256 CONFIG req w n s)
      (Js.threadStep keccak256 CONFIG req w
         (Js.soloRun keccak256 CONFIG req w n s).2
         (Js.soloRun keccak256 CONFIG req w n s).1).
Proof. reflexivity. Qed.

Lemma js_soloRun_three req w s :
  Js.soloRun keccak256 CONFIG req w 3 s
  = ((Js.relay keccak256 CONFIG req w s).1.1,
     Js.mkThread (Js.Finished (Js.relay keccak256 CONFIG req w s).2)
       (Js.relay keccak256 CONFIG req w s).1.2).
Proof.
  rewrite js_relay_unfold.
  assert (E1 : Js.soloRun keccak256 CONFIG req w 1 s
               = Js.advance Js.newThread Js.InFlight
                   (Js.admission keccak256 CONFIG req (Js.clock w) s)) by reflexivity.
  rewrite (js_soloRun_S req w 2), (js_soloRun_S req w 1), E1.
  destruct (Js.admission keccak256 CONFIG req (Js.clock w) s) as [[s1 t1] o1] eqn:Ha.
  pose proof (js_admission_inv _ _ _ _ _ _ _ _ Ha) as (-> & _).
  destruct o1 as [fwd|r|m]; [|reflexivity..].
  cbn [Js.advance Js.threadStep Js.newThread Js.phase Js.log fst snd default from_option id app].
  destruct (Js.submitAndMark fwd w s1) as [[s2 t2] [tx|r|m]]; [|reflexivity..].
  cbn [Js.advance Js.threadStep Js.phase Js.log fst snd default from_option id app].
  unfold Js.confirmation. cbv [bind ret emit await].
  destruct (Js.wait w); reflexivity.
Qed.

Lemma js_soloRun_finished req w n s r :
  Js.phase (Js.soloRun keccak256 CONFIG req w n s).2 = Js.Finished r ->
  Js.soloRun keccak256 CONFIG req w (S n) s = Js.soloRun keccak256 CONFIG req w n s.
Proof.
  intros H. rewrite js_soloRun_S.
  destruct (Js.soloRun keccak256 CONFIG req w n s) as [s1 th1]. cbn [fst snd] in *.
  unfold Js.threadStep. by rewrite H.
Qed.

Lemma js_soloRun_stable req w n k s r :
  Js.phase (Js.soloRun keccak256 CONFIG req w n s).2 = Js.Finished r ->
  Js.soloRun keccak256 CONFIG req w (k + n) s = Js.soloRun keccak256 CONFIG req w n s.
Proof.
  intros H. induction k as [|k IH]; [done|].
  change (S k + n)%nat with (S (k + n)).
  rewrite (js_soloRun_finished req w (k + n) s r); [done|]. by rewrite IH.
Qed.

Lemma js_soloRun_answer req w n s r :
  Js.phase (Js.soloRun keccak256 CONFIG req w n s).2 = Js.Finished r ->
  r = (Js.relay keccak256 CONFIG req w s).2
  /\ Js.log (Js.soloRun keccak256 CONFIG req w n s).2
     = (Js.relay keccak256 CONFIG req w s).1.2.
Proof.
  intros H.
  assert (H3 : Js.phase (Js.soloRun keccak256 CONFIG req w 3 s).2
               = Js.Finished (Js.relay keccak256 CONFIG req w s).2)
    by (by rewrite js_soloRun_three).
  pose proof (js_soloRun_stable req w n 3 s r H) as Hn.
  pose proof (js_soloRun_stable req w 3 n s _ H3) as Hm.
  replace (n + 3)%nat with (3 + n)%nat in Hm by lia.
  rewrite Hn in Hm. rewrite Hm, js_soloRun_three in H |- *. simpl in *.
  split; [congruence|done].
Qed.
End JsSolo.

Section GoSolo.
Variable Keccak256Hash : list byte -> list byte.
Variable config : Go.Config.

Lemma go_soloRun_S body w n s :
  Go.soloRun Keccak256Hash config body w (S n) s
  = default (Go.soloRun Keccak256Hash config body w n s)
      (Go.threadStep Keccak256Hash config body w
         (Go.soloRun Keccak256Hash config body w n s).2
         (Go.soloRun Keccak256Hash config body w n s).1).
Proof. reflexivity. Qed.

Lemma go_soloRun_four body w s :
  Go.soloRun Keccak256Hash config body w 4 s
  = ((Go.relayHandler Keccak256Hash config body w s).1.1,
     Go.mkThread (Go.Finished (Go.relayHandler Keccak256Hash config body w s).2)
       (Go.relayHandler Keccak256Hash config body w s).1.2).
Proof.
  rewrite go_relay_unfold.
  assert (E1 : Go.soloRun Keccak256Hash config body w 1 s
               = Go.advance Go.newThread Go.Limited (Go.arrival body w s))
    by reflexivity.
  rewrite (go_soloRun_S body w 3), (go_soloRun_S body w 2), (go_soloRun_S body w 1), E1.
  rewrite go_arrival_cases.
  destruct body as [req|m]; [|reflexivity].
  destruct (_ || _); [reflexivity|].
  destruct (Go.checkRateLimit _ _ _).1; [|reflexivity].
  cbn [Go.advance Go.threadStep Go.newThread Go.phase Go.log fst snd default from_option id app].
  set (s1 := Go.limited _ _ s).
  destruct (Go.gates Keccak256Hash config req w s1) as [[s2 t2] o2] eqn:Hg.
  pose proof (go_gates_inv _ _ _ _ _ _ _ _ Hg) as (-> & -> & _).
  destruct o2 as [[]|r|m]; [|reflexivity..].
  cbn [Go.advance Go.threadStep Go.phase Go.log fst snd default from_option id app].
  pose proof (go_execution_parametric config req w s1) as He.
  destruct (Go.execution config req w s1) as [[s3 t3] o3].
  injection He as -> _ _.
  destruct o3 as [c|r|m]; [|reflexivity..].
  cbn [Go.advance Go.threadStep Go.phase Go.log fst snd default from_option id app].
  reflexivity.
Qed.

Lemma go_soloRun_finished body w n s r :
  Go.phase (Go.soloRun Keccak256Hash config body w n s).2 = Go.Finished r ->
  Go.soloRun Keccak256Hash config body w (S n) s
  = Go.soloRun Keccak256Hash config body w n s.
Proof.
  intros H. rewrite go_soloRun_S.
  destruct (Go.soloRun Keccak256Hash config body w n s) as [s1 th1]. cbn [fst snd] in *.
  unfold Go.threadStep. by rewrite H.
Qed.

Lemma go_soloRun_stable body w n k s r :
  Go.phase (Go.soloRun Keccak256Hash config body w n s).2 = Go.Finished r ->
  Go.soloRun Keccak256Hash config body w (k + n) s
  = Go.soloRun Keccak256Hash config body w n s.
Proof.
  intros H. induction k as [|k IH]; [done|].
  change (S k + n)%nat with (S (k + n)).
  rewrite (go_soloRun_finished body w (k + n) s r); [done|]. by rewrite IH.
Qed.

Lemma go_soloRun_answer body w n s r :
  Go.phase (Go.soloRun Keccak256Hash config body w n s).2 = Go.Finished r ->
  r = (Go.relayHandler Keccak256Hash config body w s).2
  /\ Go.log (Go.soloRun Keccak256Hash config body w n s).2
     = (Go.relayHandler Keccak256Hash config body w s).1.2.
Proof.
  intros H.
  assert (H4 : Go.phase (Go.soloRun Keccak256Hash config body w 4 s).2
               = Go.Finished (Go.relayHandler Keccak256Hash config body w s).2)
    by (by rewrite go_soloRun_four).
  pose proof (go_soloRun_stable body w n 4 s r H) as Hn.
  pose proof (go_soloRun_stable body w 4 n s _ H4) as Hm.
  replace (n + 4)%nat with (4 + n)%nat in Hm by lia.
  rewrite Hn in Hm. rewrite Hm, go_soloRun_four in H |- *. simpl in *.
  split; [congruence|done].
Qed.
End GoSolo.

(** ** Requests of different senders *)

(** X25: Requests of different senders and with different keys do not affect
    each other.  In every interleaving of two handlers of relayer-server.js,
    or of two goroutines of main.go, started from any store, a handler that
    has answered has given the answer, and made the calls, that it gives
    when it serves its request alone from that store, the chain answering
    it the same: the rate-limit record is read and written under the
    sender, the processed set under the key, and nothing else of the store
    decides an answer. *)
Theorem requests_do_not_interfere :
  (forall keccak256 CONFIG req1 w1 req2 w2 f1 f2 s0 sys,
     Js.forward req1 = Some f1 -> Js.forward req2 = Some f2 ->
     Js.from f1 <> Js.from f2 -> Js.requestId f1 <> Js.requestId f2 ->
     rtc (Js.sys_step keccak256 CONFIG (req1, w1) (req2, w2))
         (Js.mkSystem s0 Js.newThread Js.newThread) sys ->
     (forall r, Js.phase (Js.first sys) = Js.Finished r ->
        r = (Js.relay keccak256 CONFIG req1 w1 s0).2
        /\ Js.log (Js.first sys) = (Js.relay keccak256 CONFIG req1 w1 s0).1.2)
     /\ (forall r, Js.phase (Js.second sys) = Js.Finished r ->
           r = (Js.relay keccak256 CONFIG req2 w2 s0).2
           /\ Js.log (Js.second sys) = (Js.relay keccak256 CONFIG req2 w2 s0).1.2))
  /\ (forall Keccak256Hash config req1 w1 req2 w2 s0 sys,
        Go.From (Go.Forward_ req1) <> Go.From (Go.Forward_ req2) ->
        Go.requestID (Go.Forward_ req1) <> Go.requestID (Go.Forward_ req2) ->
        rtc (Go.sys_step Keccak256Hash config (Ok req1, w1) (Ok req2, w2))
            (Go.mkSystem s0 Go.newThread Go.newThread) sys ->
        (forall r, Go.phase (Go.first sys) = Go.Finished r ->
           r = (Go.relayHandler Keccak256Hash config (Ok req1) w1 s0).2
           /\ Go.log (Go.first sys)
              = (Go.relayHandler Keccak256Hash config (Ok req1) w1 s0).1.2)
        /\ (forall r, Go.phase (Go.second sys) = Go.Finished r ->
              r = (Go.relayHandler Keccak256Hash config (Ok req2) w2 s0).2
              /\ Go.log (Go.second sys)
                 = (Go.relayHandler Keccak256Hash config (Ok req2) w2 s0).1.2)).
Proof.
  split.
  - intros keccak256 CONFIG req1 w1 req2 w2 f1 f2 s0 sys Hf1 Hf2 Hfrom Hkey Hreach.
    destruct (js_isolation keccak256 CONFIG req1 w1 req2 w2 f1 f2 s0 sys
                Hf1 Hf2 Hfrom Hkey Hreach)
      as [(n1 & H1 & _) (n2 & H2 & _)].
    split; intros r Hr.
    + rewrite H1 in Hr |- *. by apply js_soloRun_answer.
    + rewrite H2 in Hr |- *. by apply js_soloRun_answer.
  - intros K config req1 w1 req2 w2 s0 sys Hfrom Hkey Hreach.
    destruct (go_isolation K config req1 w1 req2 w2 s0 sys Hfrom Hkey Hreach)
      as [(n1 & H1 & _) (n2 & H2 & _)].
    split; intros r Hr.
    + rewrite H1 in Hr |- *. by apply go_soloRun_answer.
    + rewrite H2 in Hr |- *. by apply go_soloRun_answer.
Qed.

(** Two users mint at the same time, the handlers taking turns. *)
Lemma requests_do_not_interfere_witness :
  let other := Js.mkRequest
                 (Some (Js.mkForward "0xOther" "0xnft" "0" "0" "3" 2000 "0xABCD"
                          "0xrelayer")) "0xsig" "0x1234" in
  let sys := Js.runSchedule Sample.keccak256 Sample.CONFIG
               (Sample.req, Sample.world) (other, Sample.world)
               [Js.Fst; Js.Snd; Js.Snd; Js.Fst; Js.Snd; Js.Fst]
               (Js.mkSystem Js.emptyStore Js.newThread Js.newThread) in
  let goOther := Go.mkRelayRequest
                   (Go.mkForward "0xOther" "0xnft" 0 0 3 2000 (replicate 32 x00)
                      "0xrelayer") "0x5e1f" "0x1234" in
  let goSys := Go.runSchedule Sample.Keccak256Hash Sample.config
                 (Ok Sample.goReq, Sample.goWorld) (Ok goOther, Sample.goWorld)
                 [Go.Fst; Go.Snd; Go.Fst; Go.Snd; Go.Snd; Go.Fst; Go.Snd; Go.Fst]
                 (Go.mkSystem Go.emptyStore Go.newThread Go.newThread) in
  (exists r, Js.phase (Js.first sys) = Js.Finished r
     /\ r = (Js.relay Sample.keccak256 Sample.CONFIG Sample.req Sample.world
               Js.emptyStore).2
     /\ Js.log (Js.first sys)
        = (Js.relay Sample.keccak256 Sample.CONFIG Sample.req Sample.world
             Js.emptyStore).1.2)
  /\ (exists r, Go.phase (Go.second goSys) = Go.Finished r
        /\ r = (Go.relayHandler Sample.Keccak256Hash Sample.config (Ok goOther)
                  Sample.goWorld Go.emptyStore).2
        /\ Go.log (Go.second goSys)
           = (Go.relayHandler Sample.Keccak256Hash Sample.config (Ok goOther)
                Sample.goWorld Go.emptyStore).1.2).
Proof.
  intros other sys goOther goSys. split.
  - eexists. split; [by vm_compute|].
    apply (proj1 requests_do_not_interfere Sample.keccak256 Sample.CONFIG
             Sample.req Sample.world other Sample.world Sample.fwd
             (Js.mkForward "0xOther" "0xnft" "0" "0" "3" 2000 "0xABCD" "0xrelayer")
             Js.emptyStore sys);
      [done|done|done|done|apply js_runSchedule_reachable|by vm_compute].
  - eexists. split; [by vm_compute|].
    apply (proj2 requests_do_not_interfere Sample.Keccak256Hash Sample.config
             Sample.goReq Sample.goWorld goOther Sample.goWorld Go.emptyStore goSys);
      [done|done|apply go_runSchedule_reachable|by vm_compute].
Defined.
